(** * uproot_methods.common.TVector: scalar and array vector mixins

    A shallow embedding of [uproot_methods/common/TVector.py]: the three
    mixin classes [Common], [ArrayMethods] and [Methods], the Python and
    numpy operations they call, and the properties of the specification
    checked against them.

    Numbers.  The module computes on Python floats and numpy float64
    values, both IEEE 754 binary64.  The embedding is written over an
    interface [Number] and read at [Binary64.number], Rocq's primitive
    binary64 floats, on which every definition runs exactly as the Python
    code does (rounding, overflow, underflow, NaN).  The two types differ
    in one respect, division by zero, which [float_type] records.  The
    transcendental functions of the C library ([acos], [atan2]) are not
    computed: statements hold for any [Libm float].

    Vectors.  The classes that mix these methods in are not part of the
    file.  What they provide ([x], [y], [z], [dot], [cross], [_vector], the
    arithmetic operators) is in [TVector3] and [TVector3Array], for three
    float components.

    Errors and effects.  A method returns a [result]: its value, or the
    exception it raises.  Array-mode methods build new arrays, so they are
    functions of their operands; [unit(inplace=True)] alone changes an
    object, and is a function of the store. *)

From Stdlib Require Import Floats ZArith Bool String List Reals Lra Lia.
Import ListNotations.

Set Implicit Arguments.

(** ** Python exceptions and results *)

Inductive exception : Type :=
| TypeError (msg : string)
| ZeroDivisionError (msg : string)
| ValueError (msg : string)
| AttributeError (msg : string)
| IndexError (msg : string).

Inductive result (A : Type) : Type :=
| Return (a : A)
| Raise (e : exception).

Arguments Return {A} a.
Arguments Raise {A} e.

Definition bind {A B : Type} (r : result A) (k : A -> result B) : result B :=
  match r with
  | Return a => k a
  | Raise e => Raise e
  end.

Declare Scope py_scope.
Delimit Scope py_scope with py.
Notation "x <- c ;; k" := (bind c (fun x => k))
  (at level 61, c at next level, right associativity) : py_scope.
Open Scope py_scope.

(** ** The numeric interface

    What the module asks of a number: IEEE-style arithmetic that never
    raises ([div] by zero gives what the arithmetic gives; Python's own
    check is [py_truediv] below), comparisons, and the literals of the
    source. *)

Class Number (T : Type) : Type := {
  lit_0 : T;                     (* 0, 0.0 *)
  lit_1 : T;                     (* 1, 1.0 *)
  lit_2 : T;                     (* 2 *)
  lit_180 : T;                   (* 180.0 *)
  lit_1e_10 : T;                 (* 1e-10, the default tolerance *)
  pi : T;                        (* math.pi, numpy.pi *)
  add : T -> T -> T;
  sub : T -> T -> T;
  mul : T -> T -> T;
  div : T -> T -> T;
  opp : T -> T;
  absolute : T -> T;
  sqrt : T -> T;
  eqb : T -> T -> bool;
  ltb : T -> T -> bool;
  fmod : T -> T -> T;            (* C's fmod *)
  copysign : T -> T -> T         (* C's copysign *)
}.

(** The C library functions behind [math.acos], [math.atan2],
    [numpy.arccos] and [numpy.arctan2]. *)
Class Libm (T : Type) : Type := {
  acos : T -> T;
  atan2 : T -> T -> T
}.

(** ** Binary64: Python's float and numpy's float64 *)

Module Binary64.

(** C's [fmod] on the specification floats: the remainder of the
    truncated division, which is exact; it has the sign of [x]. *)
Definition SFfmod (x y : spec_float) : spec_float :=
  match x, y with
  | S754_nan, _ | _, S754_nan => S754_nan
  | S754_infinity _, _ => S754_nan
  | _, S754_zero _ => S754_nan
  | S754_zero _, _ => x
  | S754_finite _ _ _, S754_infinity _ => x
  | S754_finite sx mx ex, S754_finite _ my ey =>
      let e := Z.min ex ey in
      let X := (Z.pos mx * 2 ^ (ex - e))%Z in
      let Y := (Z.pos my * 2 ^ (ey - e))%Z in
      binary_normalize prec emax (cond_Zopp sx (Z.rem X Y)) e sx
  end.

Definition fmod64 (x y : float) : float :=
  SF2Prim (SFfmod (Prim2SF x) (Prim2SF y)).

Definition copysign64 (x y : float) : float :=
  if Bool.eqb (get_sign x) (get_sign y) then x else PrimFloat.opp x.

#[global] Instance number : Number float := {|
  lit_0 := 0%float;
  lit_1 := 1%float;
  lit_2 := 2%float;
  lit_180 := 180%float;
  lit_1e_10 := 0x1.b7cdfd9d7bdbbp-34%float;
  pi := 0x1.921fb54442d18p+1%float;
  add := PrimFloat.add;
  sub := PrimFloat.sub;
  mul := PrimFloat.mul;
  div := PrimFloat.div;
  opp := PrimFloat.opp;
  absolute := PrimFloat.abs;
  sqrt := PrimFloat.sqrt;
  eqb := PrimFloat.eqb;
  ltb := PrimFloat.ltb;
  fmod := fmod64;
  copysign := copysign64
|}.

End Binary64.

(** ** Python's float operations and the [math] module *)

(** The two types a number has in scalar mode.  A component given by the
    caller is a Python [float]; an element taken out of a numpy array, and
    whatever a numpy function returns ([numpy.sqrt] in [mag]), is a
    [numpy.float64].  Both are binary64 and compute the same values; they
    differ in what a division by zero does. *)
Inductive float_type : Type := python_float | numpy_float64.

Section Python.
Context {T : Type} {N : Number T} {L : Libm T}.

(** [a / b] on Python floats. *)
Definition py_truediv (a b : T) : result T :=
  if eqb b lit_0 then Raise (ZeroDivisionError "float division by zero")
  else Return (div a b).

(** [a / b] in scalar mode.  Between two Python floats it is Python's
    division; as soon as one operand is a [numpy.float64] it is numpy's,
    which gives an infinity or a NaN for a zero divisor (with a warning)
    and raises nothing. *)
Definition truediv (ta tb : float_type) (a b : T) : result T :=
  match ta, tb with
  | python_float, python_float => py_truediv a b
  | _, _ => Return (div a b)
  end.

(** [v % w] on Python floats (CPython's [float_rem]): the remainder
    takes the sign of the divisor. *)
Definition py_mod (v w : T) : result T :=
  if eqb w lit_0 then Raise (ZeroDivisionError "float modulo")
  else
    let m := fmod v w in
    if negb (eqb m lit_0) then
      if xorb (ltb w lit_0) (ltb m lit_0) then Return (add m w) else Return m
    else Return (copysign lit_0 w).

(** The builtins [min(a, b)] and [max(a, b)]: the first argument stays
    unless the second compares strictly below (above) it. *)
Definition py_min (a b : T) : T := if ltb b a then b else a.
Definition py_max (a b : T) : T := if ltb a b then b else a.

Definition math_sqrt (a : T) : result T :=
  if ltb a lit_0 then Raise (ValueError "math domain error")
  else Return (sqrt a).

Definition math_acos (a : T) : result T :=
  if ltb a (opp lit_1) || ltb lit_1 a
  then Raise (ValueError "math domain error")
  else Return (acos a).

Definition math_atan2 (b a : T) : T := atan2 b a.

(** ** numpy on one-dimensional float64 and bool arrays

    An array is the list of its elements.  Two array operands must have
    the same length (broadcasting of a length-one array against a longer
    one is not modelled: it raises like any other mismatch). *)

Definition shape_mismatch : exception :=
  ValueError "operands could not be broadcast together".

Fixpoint map2 {A B C : Type} (f : A -> B -> C) (a : list A) (b : list B)
  : list C :=
  match a, b with
  | x :: a', y :: b' => f x y :: map2 f a' b'
  | _, _ => []
  end.

Definition np_binop {A B C : Type} (f : A -> B -> C) (a : list A) (b : list B)
  : result (list C) :=
  if Nat.eqb (length a) (length b) then Return (map2 f a b)
  else Raise shape_mismatch.

(** [a[mask]] for a boolean [mask]. *)
Fixpoint compress {A : Type} (mask : list bool) (a : list A) : list A :=
  match mask, a with
  | true :: mask', x :: a' => x :: compress mask' a'
  | false :: mask', _ :: a' => compress mask' a'
  | _, _ => []
  end.

Definition getitem_mask {A : Type} (a : list A) (mask : list bool)
  : result (list A) :=
  if Nat.eqb (length mask) (length a) then Return (compress mask a)
  else Raise (IndexError "boolean index did not match indexed array").

(** [a[mask] = vals]: the values go, in order, to the selected places. *)
Fixpoint put_mask {A : Type} (a : list A) (mask : list bool) (vals : list A)
  : list A :=
  match a, mask with
  | x :: a', true :: mask' =>
      match vals with
      | v :: vals' => v :: put_mask a' mask' vals'
      | [] => x :: put_mask a' mask' []
      end
  | x :: a', false :: mask' => x :: put_mask a' mask' vals
  | _, _ => a
  end.

Definition setitem_mask {A : Type} (a : list A) (mask : list bool)
           (vals : list A) : result (list A) :=
  if Nat.eqb (length mask) (length a) then
    if Nat.eqb (length vals) (length (compress mask a))
    then Return (put_mask a mask vals)
    else Raise (ValueError "shape mismatch in boolean index assignment")
  else Raise (IndexError "boolean index did not match indexed array").

(** [a[mask] = v] for a scalar [v]. *)
Definition fill_mask {A : Type} (a : list A) (mask : list bool) (v : A)
  : result (list A) :=
  if Nat.eqb (length mask) (length a)
  then Return (map2 (fun x (m : bool) => if m then v else x) a mask)
  else Raise (IndexError "boolean index did not match indexed array").

(** [numpy.clip] on one element: a NaN passes through. *)
Definition clip1 (lo hi a : T) : T :=
  if ltb a lo then lo else if ltb hi a then hi else a.

(** [numpy.sign] on one element. *)
Definition sign1 (a : T) : T :=
  if ltb lit_0 a then lit_1
  else if ltb a lit_0 then opp lit_1
       else if eqb a lit_0 then lit_0 else a.

Definition np_sqrt (a : list T) : list T := map sqrt a.
Definition np_absolute (a : list T) : list T := map absolute a.
Definition np_arccos (a : list T) : list T := map acos a.
Definition np_sign (a : list T) : list T := map sign1 a.
Definition np_clip (a : list T) (lo hi : T) : list T := map (clip1 lo hi) a.
Definition np_logical_not (m : list bool) : list bool := map negb m.
Definition np_arctan2 (b a : list T) : result (list T) := np_binop atan2 b a.
Definition np_bitwise_and (a b : list bool) : result (list bool) :=
  np_binop andb a b.
Definition np_add (a b : list T) : result (list T) := np_binop add a b.
Definition np_subtract (a b : list T) : result (list T) := np_binop sub a b.
Definition np_multiply (a b : list T) : result (list T) := np_binop mul a b.
Definition np_divide (a b : list T) : result (list T) := np_binop div a b.

(** An array against a Python scalar. *)
Definition np_less_s (a : list T) (s : T) : list bool :=
  map (fun x => ltb x s) a.
Definition np_greater_s (a : list T) (s : T) : list bool :=
  map (fun x => ltb s x) a.
Definition np_multiply_s (a : list T) (s : T) : list T :=
  map (fun x => mul x s) a.

(** numpy's remainder on one element: as Python's, but a zero divisor
    gives what [fmod] gives and does not raise. *)
Definition np_mod1 (v w : T) : T :=
  let m := fmod v w in
  if eqb w lit_0 then m
  else if negb (eqb m lit_0) then
         if xorb (ltb w lit_0) (ltb m lit_0) then add m w else m
       else copysign lit_0 w.

End Python.

(** ** What [Common] asks of the quantities it computes on

    [Common] is mixed into a scalar vector, whose derived quantities are
    Python numbers, and into an array vector, whose derived quantities are
    numpy arrays.  [Quantity T Q B] is the arithmetic both provide: [Q] is
    the quantity, [B] what a comparison gives (a [bool] or a mask), and the
    [_s] operations take a Python scalar of type [T] on one side. *)

Class Quantity (T Q B : Type) : Type := {
  q_add : Q -> Q -> result Q;      (* a + b *)
  q_sub : Q -> Q -> result Q;      (* a - b *)
  q_mul : Q -> Q -> result Q;      (* a * b *)
  q_add_s : Q -> T -> Q;           (* a + s *)
  q_sub_s : Q -> T -> Q;           (* a - s *)
  s_sub_q : T -> Q -> Q;           (* s - a *)
  q_mod_s : Q -> T -> result Q;    (* a % s *)
  q_lt_s : Q -> T -> B;            (* a < s *)
  q_sqrt : Q -> Q;                 (* numpy.sqrt(a) *)
  q_absolute : Q -> Q              (* numpy.absolute(a) *)
}.

#[global] Instance scalar_quantity {T : Type} {N : Number T}
  : Quantity T T bool := {|
  q_add := fun a b => Return (add a b);
  q_sub := fun a b => Return (sub a b);
  q_mul := fun a b => Return (mul a b);
  q_add_s := add;
  q_sub_s := sub;
  s_sub_q := sub;
  q_mod_s := py_mod;
  q_lt_s := ltb;
  q_sqrt := sqrt;
  q_absolute := absolute
|}.

#[global] Instance array_quantity {T : Type} {N : Number T}
  : Quantity T (list T) (list bool) := {|
  q_add := np_add;
  q_sub := np_subtract;
  q_mul := np_multiply;
  q_add_s := fun a s => map (fun v => add v s) a;
  q_sub_s := fun a s => map (fun v => sub v s) a;
  s_sub_q := fun s a => map (fun v => sub s v) a;
  q_mod_s := fun a s => Return (map (fun v => np_mod1 v s) a);
  q_lt_s := np_less_s;
  q_sqrt := np_sqrt;
  q_absolute := np_absolute
|}.

(** ** The concrete vector classes *)

Module TVector3.

Record t (T : Type) : Type := mk { x : T; y : T; z : T }.
Arguments mk {T} x y z.
Arguments x {T} _.
Arguments y {T} _.
Arguments z {T} _.

Section Ops.
Context {T : Type} {N : Number T}.

(** Modelled from the spec: the [dot] method of the concrete scalar
    vector class, which is not in this file: "a dot product against
    another vector-like value of the same shape", a plain number. *)
Definition dot (self other : t T) : T :=
  add (add (mul (x self) (x other)) (mul (y self) (y other)))
      (mul (z self) (z other)).

(** Modelled from the spec: the [_vector] helper of the concrete class,
    "a new vector-like value from a binary operator and operand". *)
Definition _vector (operator : T -> T -> T) (self other : t T) : t T :=
  mk (operator (x self) (x other)) (operator (y self) (y other))
     (operator (z self) (z other)).

(** Modelled from the spec: the division of a scalar vector by a
    number, [self / m], "self divided by mag()": each component divided by
    [m] with Python's [/], for components of type [tc] and a divisor of
    type [tm]. *)
Definition __truediv__ (tc tm : float_type) (self : t T) (m : T)
  : result (t T) :=
  qx <- truediv tc tm (x self) m ;;
  qy <- truediv tc tm (y self) m ;;
  qz <- truediv tc tm (z self) m ;;
  Return (mk qx qy qz).

End Ops.

End TVector3.

Module TVector3Array.

(** An array of vectors is stored by columns: one buffer per component. *)
Record t (T : Type) : Type := mk { x : list T; y : list T; z : list T }.
Arguments mk {T} x y z.
Arguments x {T} _.
Arguments y {T} _.
Arguments z {T} _.

Section Ops.
Context {T : Type} {N : Number T}.

(** The vector at position [i]; its components, taken out of numpy
    arrays, are of type [numpy_float64]. *)
Definition item (self : t T) (i : nat) : TVector3.t T :=
  TVector3.mk (nth i (x self) lit_0) (nth i (y self) lit_0)
              (nth i (z self) lit_0).

(** All three buffers have length [n]. *)
Definition has_length (n : nat) (self : t T) : Prop :=
  length (x self) = n /\ length (y self) = n /\ length (z self) = n.

(** Modelled from the spec: the [dot] method of the concrete array
    class, the dot product at every position, in a new array. *)
Definition dot (self other : t T) : result (list T) :=
  out <- np_multiply (x self) (x other) ;;
  yy <- np_multiply (y self) (y other) ;;
  out <- np_add out yy ;;
  zz <- np_multiply (z self) (z other) ;;
  np_add out zz.

(** Modelled from the spec: [self + other] of the concrete array
    class, component by component, in new buffers. *)
Definition __add__ (self other : t T) : result (t T) :=
  sx <- np_add (x self) (x other) ;;
  sy <- np_add (y self) (y other) ;;
  sz <- np_add (z self) (z other) ;;
  Return (mk sx sy sz).

(** Modelled from the spec: [self / m] of the concrete array class for
    an array [m], "self / mag() elementwise", in new buffers; numpy's
    division does not raise. *)
Definition __truediv__ (self : t T) (m : list T) : result (t T) :=
  qx <- np_divide (x self) m ;;
  qy <- np_divide (y self) m ;;
  qz <- np_divide (z self) m ;;
  Return (mk qx qy qz).

(** Modelled from the spec: the [cross] method of the concrete array
    class (three components only), at every position. *)
Definition cross (self other : t T) : result (t T) :=
  yz <- np_multiply (y self) (z other) ;;
  zy <- np_multiply (z self) (y other) ;;
  zx <- np_multiply (z self) (x other) ;;
  xz <- np_multiply (x self) (z other) ;;
  xy <- np_multiply (x self) (y other) ;;
  yx <- np_multiply (y self) (x other) ;;
  cx <- np_subtract yz zy ;;
  cy <- np_subtract zx xz ;;
  cz <- np_subtract xy yx ;;
  Return (mk cx cy cz).

End Ops.

End TVector3Array.

(** ** class Common

    The methods a subclass or the concrete vector class provides ([x],
    [y], [dot], [phi], [cosdelta]) are the section's variables: Python binds
    them when the method runs, here the subclass passes its own. *)

Module Common.

Section Common.
Context {T : Type} {N : Number T} {V Q B : Type} {QT : Quantity T Q B}.
Variables (x y : V -> Q).
Variable dot : V -> V -> result Q.
Variable phi : V -> result Q.
Variable cosdelta : V -> V -> result Q.

(** [return self.dot(self)] *)
Definition mag2 (self : V) : result Q := dot self self.

(** [return awkward.util.numpy.sqrt(self.mag2())] *)
Definition mag (self : V) : result Q :=
  m <- mag2 self ;; Return (q_sqrt m).

(** [out = self.x * self.x; out += self.y * self.y; return out] *)
Definition rho2 (self : V) : result Q :=
  out <- q_mul (x self) (x self) ;;
  yy <- q_mul (y self) (y self) ;;
  q_add out yy.

(** [return (self.phi() - other.phi() + math.pi) % (2*math.pi) - math.pi] *)
Definition delta_phi (self other : V) : result Q :=
  p1 <- phi self ;;
  p2 <- phi other ;;
  d <- q_sub p1 p2 ;;
  m <- q_mod_s (q_add_s d pi) (mul lit_2 pi) ;;
  Return (q_sub_s m pi).

(** [return 1 - self.cosdelta(other) < tolerance] *)
Definition isparallel (self other : V) (tolerance : T) : result B :=
  c <- cosdelta self other ;;
  Return (q_lt_s (s_sub_q lit_1 c) tolerance).

(** [return self.cosdelta(other) - (-1) < tolerance] *)
Definition isantiparallel (self other : V) (tolerance : T) : result B :=
  c <- cosdelta self other ;;
  Return (q_lt_s (q_sub_s c (opp lit_1)) tolerance).

(** [return 1 - awkward.util.numpy.absolute(self.cosdelta(other))
    < tolerance] *)
Definition iscollinear (self other : V) (tolerance : T) : result B :=
  c <- cosdelta self other ;;
  Return (q_lt_s (s_sub_q lit_1 (q_absolute c)) tolerance).

(** [raise TypeError("spatial vectors have no natural ordering")], four
    times. *)
Definition __lt__ (self other : V) : result bool :=
  Raise (TypeError "spatial vectors have no natural ordering").

Definition __gt__ (self other : V) : result bool :=
  Raise (TypeError "spatial vectors have no natural ordering").

Definition __le__ (self other : V) : result bool :=
  Raise (TypeError "spatial vectors have no natural ordering").

Definition __ge__ (self other : V) : result bool :=
  Raise (TypeError "spatial vectors have no natural ordering").

End Common.

End Common.

(** ** class Methods(Common): one vector

    The methods that divide take the type [tc] of the components of
    [self]: [self.dot(other)] has that type, [math.sqrt] returns a Python
    float and [numpy.sqrt], in [mag], a [numpy.float64]. *)

Module Methods.

Section Methods.
Context {T : Type} {N : Number T} {L : Libm T}.

(** What a Python expression can hold here: a number or a vector.
    Reading [.x] off a number raises. *)
Inductive object : Type :=
| Float (v : T)
| Vector (v : TVector3.t T).

Definition getattr (name : string) (field : TVector3.t T -> T)
           (o : object) : result T :=
  match o with
  | Vector v => Return (field v)
  | Float _ =>
      Raise (AttributeError
               ("'float' object has no attribute '" ++ name ++ "'"))
  end.

Definition dot (self other : TVector3.t T) : result T :=
  Return (TVector3.dot self other).

Definition mag2 := Common.mag2 dot.
Definition mag := Common.mag dot.
Definition rho2 :=
  Common.rho2 (V := TVector3.t T) TVector3.x TVector3.y.

(** [return self / self.mag()] *)
Definition unit (tc : float_type) (self : TVector3.t T)
  : result (TVector3.t T) :=
  m <- mag self ;; TVector3.__truediv__ tc numpy_float64 self m.

(** [return math.sqrt(self.rho2())] *)
Definition rho (self : TVector3.t T) : result T :=
  r <- rho2 self ;; math_sqrt r.

(** [return math.atan2(self.y, self.x)] *)
Definition phi (self : TVector3.t T) : result T :=
  Return (math_atan2 (TVector3.y self) (TVector3.x self)).

(** [m1 = self.mag2(); m2 = other.mag2()];
    [if m1 == 0 or m2 == 0: return 1.0];
    [r = self.dot(other) / math.sqrt(m1 * m2)];
    [return max(-1.0, min(1.0, r))] *)
Definition cosdelta (tc : float_type) (self other : TVector3.t T)
  : result T :=
  m1 <- mag2 self ;;
  m2 <- mag2 other ;;
  if eqb m1 lit_0 || eqb m2 lit_0 then Return lit_1
  else
    d <- dot self other ;;
    s <- math_sqrt (mul m1 m2) ;;
    r <- truediv tc python_float d s ;;
    Return (py_max (opp lit_1) (py_min lit_1 r)).

(** [out = math.acos(self.cosdelta(other))];
    [if degrees: out *= 180.0/math.pi]; [return out] *)
Definition angle (tc : float_type) (self other : TVector3.t T)
           (degrees : bool) : result T :=
  c <- cosdelta tc self other ;;
  out <- math_acos c ;;
  if degrees then Return (mul out (div lit_180 pi)) else Return out.

(** [return self._vector(operator.add, other)] *)
Definition __add__ (self other : TVector3.t T) : result object :=
  Return (Vector (TVector3._vector add self other)).

(** [abs(tmp.x) < tolerance and abs(tmp.y) < tolerance and
    abs(tmp.z) < tolerance]: a component is read only when the ones
    before it passed. *)
Definition all_below (tmp : object) (tolerance : T) : result bool :=
  tx <- getattr "x" TVector3.x tmp ;;
  if ltb (absolute tx) tolerance then
    ty <- getattr "y" TVector3.y tmp ;;
    if ltb (absolute ty) tolerance then
      tz <- getattr "z" TVector3.z tmp ;;
      Return (ltb (absolute tz) tolerance)
    else Return false
  else Return false.

(** [tmp = self + other], then the three comparisons. *)
Definition isopposite (self other : TVector3.t T) (tolerance : T)
  : result bool :=
  tmp <- __add__ self other ;;
  all_below tmp tolerance.

(** [tmp = self.dot(other)], then the same three comparisons. *)
Definition isperpendicular (self other : TVector3.t T) (tolerance : T)
  : result bool :=
  d <- dot self other ;;
  let tmp := Float d in
  all_below tmp tolerance.

Definition delta_phi := Common.delta_phi phi.
Definition isparallel (tc : float_type) := Common.isparallel (cosdelta tc).
Definition isantiparallel (tc : float_type) :=
  Common.isantiparallel (cosdelta tc).
Definition iscollinear (tc : float_type) := Common.iscollinear (cosdelta tc).

End Methods.

Arguments object T : clear implicits.

End Methods.

(** ** The object store

    [unit(inplace=True)] changes the array vector it is called on, so array
    vectors live in a store and are named by references; two names of one
    object see the same buffers. *)

Module Store.

Definition ref : Type := nat.
Definition heap (T : Type) : Type := list (TVector3Array.t T).

Section Store.
Context {T : Type}.

Definition load (h : heap T) (r : ref) : result (TVector3Array.t T) :=
  match nth_error h r with
  | Some o => Return o
  | None => Raise (ValueError "no such object")
  end.

Fixpoint store (h : heap T) (r : ref) (o : TVector3Array.t T) : heap T :=
  match h, r with
  | [], _ => []
  | _ :: h', O => o :: h'
  | o' :: h', S r' => o' :: store h' r' o
  end.

(** A new object: its reference and the store that holds it. *)
Definition alloc (h : heap T) (o : TVector3Array.t T) : ref * heap T :=
  (length h, h ++ [o]).

End Store.

End Store.

(** ** class ArrayMethods(Common): an array of vectors *)

Module ArrayMethods.

Section ArrayMethods.
Context {T : Type} {N : Number T} {L : Libm T}.

(** A numpy array or an array vector.  Reading [.x] off a numpy array
    raises. *)
Inductive object : Type :=
| NdArray (a : list T)
| VectorArray (v : TVector3Array.t T).

Definition getattr (name : string) (field : TVector3Array.t T -> list T)
           (o : object) : result (list T) :=
  match o with
  | VectorArray v => Return (field v)
  | NdArray _ =>
      Raise (AttributeError
               ("'numpy.ndarray' object has no attribute '" ++ name ++ "'"))
  end.

Definition dot := @TVector3Array.dot T N.
Definition mag2 := Common.mag2 dot.
Definition mag := Common.mag dot.
Definition rho2 :=
  Common.rho2 (V := TVector3Array.t T) TVector3Array.x TVector3Array.y.

(** The value [self / self.mag()]. *)
Definition unit_value (self : TVector3Array.t T)
  : result (TVector3Array.t T) :=
  m <- mag self ;; TVector3Array.__truediv__ self m.

(** Modelled from the spec: [self /= m] of the concrete array class,
    which "divides self by mag() in place (mutating the array
    buffers)": the object keeps its identity and holds the quotients. *)
Definition __itruediv__ (self : Store.ref) (m : list T) (h : Store.heap T)
  : result (Store.heap T) :=
  v <- Store.load h self ;;
  q <- TVector3Array.__truediv__ v m ;;
  Return (Store.store h self q).

(** [unit(inplace)]: what it returns ([None], or the new array vector)
    and the store it leaves. *)
Definition unit (self : Store.ref) (inplace : bool) (h : Store.heap T)
  : result (option Store.ref * Store.heap T) :=
  v <- Store.load h self ;;
  if inplace then
    m <- mag v ;;
    h' <- __itruediv__ self m h ;;
    Return (None, h')
  else
    q <- unit_value v ;;
    let (r, h') := Store.alloc h q in
    Return (Some r, h').

(** [out = self.rho2(); return awkward.util.numpy.sqrt(out, out=out)] *)
Definition rho (self : TVector3Array.t T) : result (list T) :=
  out <- rho2 self ;; Return (np_sqrt out).

(** [return awkward.util.numpy.arctan2(self.y, self.x)] *)
Definition phi (self : TVector3Array.t T) : result (list T) :=
  np_arctan2 (TVector3Array.y self) (TVector3Array.x self).

(** Statement by statement: [denom = self.mag2()],
    [denom *= other.mag2()], [mask = (denom > 0)], [denom = denom[mask]],
    [denom[:] = sqrt(denom)], [out = self.dot(other)],
    [out[mask] /= denom], [logical_not(mask, out=mask)], [out[mask] = 1],
    [return clip(out, -1, 1, out=out)]. *)
Definition cosdelta (self other : TVector3Array.t T) : result (list T) :=
  denom <- mag2 self ;;
  m2 <- mag2 other ;;
  denom <- np_multiply denom m2 ;;
  let mask := np_greater_s denom lit_0 in
  denom <- getitem_mask denom mask ;;
  let denom := np_sqrt denom in
  out <- dot self other ;;
  sel <- getitem_mask out mask ;;
  q <- np_divide sel denom ;;
  out <- setitem_mask out mask q ;;
  let mask := np_logical_not mask in
  out <- fill_mask out mask lit_1 ;;
  Return (np_clip out (opp lit_1) lit_1).

(** [out = arccos(self.cosdelta(other))]; with a normal,
    [out *= sign(normal.dot(a.cross(b)))] for the two unit vectors; with
    [degrees], [multiply(out, 180.0/pi, out=out)]. *)
Definition angle (self other : TVector3Array.t T)
           (normal : option (TVector3Array.t T)) (degrees : bool)
  : result (list T) :=
  c <- cosdelta self other ;;
  let out := np_arccos c in
  out <- match normal with
         | Some n =>
             a <- unit_value self ;;
             b <- unit_value other ;;
             ab <- TVector3Array.cross a b ;;
             d <- dot n ab ;;
             np_multiply out (np_sign d)
         | None => Return out
         end ;;
  if degrees then Return (np_multiply_s out (div lit_180 pi))
  else Return out.

(** The three components of [tmp], made absolute, all below the
    tolerance: the mask both predicates end with. *)
Definition all_below (tmp : object) (tolerance : T) : result (list bool) :=
  tx <- getattr "x" TVector3Array.x tmp ;;
  let tx := np_absolute tx in
  ty <- getattr "y" TVector3Array.y tmp ;;
  let ty := np_absolute ty in
  tz <- getattr "z" TVector3Array.z tmp ;;
  let tz := np_absolute tz in
  let out := np_less_s tx tolerance in
  out <- np_bitwise_and out (np_less_s ty tolerance) ;;
  np_bitwise_and out (np_less_s tz tolerance).

(** [tmp = self + other], then the mask. *)
Definition isopposite (self other : TVector3Array.t T) (tolerance : T)
  : result (list bool) :=
  tmp <- TVector3Array.__add__ self other ;;
  all_below (VectorArray tmp) tolerance.

(** [tmp = self.dot(other)], then the same mask. *)
Definition isperpendicular (self other : TVector3Array.t T) (tolerance : T)
  : result (list bool) :=
  tmp <- dot self other ;;
  all_below (NdArray tmp) tolerance.

Definition delta_phi := Common.delta_phi phi.
Definition isparallel := Common.isparallel cosdelta.
Definition isantiparallel := Common.isantiparallel cosdelta.
Definition iscollinear := Common.iscollinear cosdelta.

End ArrayMethods.

Arguments object T : clear implicits.

End ArrayMethods.

(** ** Definitions used by the statements *)

Section Elementwise.
Context {T : Type} {N : Number T}.

(** What array-mode [cosdelta] leaves at one position, from the two
    squared magnitudes and the dot product there. *)
Definition cosdelta_at (m1 m2 d : T) : T :=
  let denom := mul m1 m2 in
  clip1 (opp lit_1) lit_1
        (if ltb lit_0 denom then div d (sqrt denom) else lit_1).

(** The mask both array predicates end with, at one position. *)
Definition below_at (tolerance : T) (v : TVector3.t T) : bool :=
  ltb (absolute (TVector3.x v)) tolerance
  && ltb (absolute (TVector3.y v)) tolerance
  && ltb (absolute (TVector3.z v)) tolerance.

(** The three direction predicates at one position, from the cosine
    there: [1 - c < tolerance], [c - (-1) < tolerance] and
    [1 - absolute(c) < tolerance]. *)
Definition parallel_at (tolerance c : T) : bool :=
  ltb (sub lit_1 c) tolerance.
Definition antiparallel_at (tolerance c : T) : bool :=
  ltb (sub c (opp lit_1)) tolerance.
Definition collinear_at (tolerance c : T) : bool :=
  ltb (sub lit_1 (absolute c)) tolerance.

(** What [unit] leaves at one position: the vector there divided by its
    magnitude, with numpy's division. *)
Definition quotient_at (v : TVector3.t T) : TVector3.t T :=
  let m := sqrt (TVector3.dot v v) in
  TVector3.mk (div (TVector3.x v) m) (div (TVector3.y v) m)
              (div (TVector3.z v) m).

(** What [cross] of the array class holds at one position. *)
Definition cross_at (a b : TVector3.t T) : TVector3.t T :=
  TVector3.mk
    (sub (mul (TVector3.y a) (TVector3.z b))
         (mul (TVector3.z a) (TVector3.y b)))
    (sub (mul (TVector3.z a) (TVector3.x b))
         (mul (TVector3.x a) (TVector3.z b)))
    (sub (mul (TVector3.x a) (TVector3.y b))
         (mul (TVector3.y a) (TVector3.x b))).

(** What array-mode [angle] with a normal holds at one position, from the
    three vectors there. *)
Definition signed_angle_at {L : Libm T} (v w nv : TVector3.t T)
           (degrees : bool) : T :=
  let c := cosdelta_at (TVector3.dot v v) (TVector3.dot w w)
                       (TVector3.dot v w) in
  let s := sign1 (TVector3.dot nv (cross_at (quotient_at v) (quotient_at w))) in
  let out := mul (acos c) s in
  if degrees then mul out (div lit_180 pi) else out.

(** The array vector of [n] copies of one vector. *)
Definition constant_array (n : nat) (v : TVector3.t T) : TVector3Array.t T :=
  TVector3Array.mk (repeat (TVector3.x v) n) (repeat (TVector3.y v) n)
                   (repeat (TVector3.z v) n).

(** The least [delta_phi] asks of its operands is a [phi()] method: an
    object that only carries its azimuthal angle and returns it. *)
Definition phi_of_angle (a : T) : result T := Return a.

End Elementwise.

(** A specification float that is not negative: a NaN, or a zero, an
    infinity or a finite number with the sign bit clear. *)
Definition unsigned (x : spec_float) : Prop :=
  match x with
  | S754_nan => True
  | S754_zero s | S754_infinity s | S754_finite s _ _ => s = false
  end.

(** [lo <= c <= hi] on binary64; false for a NaN. *)
Definition between (lo hi c : float) : bool :=
  (PrimFloat.leb lo c) && (PrimFloat.leb c hi).

(** What an array-mode method does on operands of length [n] when it
    does not raise: it returns an array of that length. *)
Definition returns_array {A : Type} (n : nat) (r : result (list A)) : Prop :=
  exists out, r = Return out /\ length out = n.

(** A vector whose three components are NaN. *)
Definition nan_vector (a : TVector3.t float) : Prop :=
  PrimFloat.is_nan (TVector3.x a) = true
  /\ PrimFloat.is_nan (TVector3.y a) = true
  /\ PrimFloat.is_nan (TVector3.z a) = true.

Module Examples.

Open Scope float_scope.

(** (3, 4, 0) and (4, 3, 0) *)
Definition v340 : TVector3.t float := TVector3.mk 3 4 0.
Definition v430 : TVector3.t float := TVector3.mk 4 3 0.
Definition zero_vector : TVector3.t float := TVector3.mk 0 0 0.

(** (1e-100, 0, 0): its squared magnitude 1e-200 is not zero, the
    product of two of them underflows to zero. *)
Definition tiny : TVector3.t float := TVector3.mk 0x1.bff2ee48e0530p-333 0 0.

(** (-1e-100, 0, 0), the opposite of [tiny]. *)
Definition tiny_opposite : TVector3.t float :=
  TVector3.mk (-0x1.bff2ee48e0530p-333) 0 0.

(** (1.7e-81, 0, 0): the product of two squared magnitudes is a
    subnormal number, rounded to a multiple of 2^-1074. *)
Definition subnormal : TVector3.t float :=
  TVector3.mk 0x1.9cd1300f89896p-269 0 0.

(** (3e-162, 0, 0): its squared magnitude, 9e-324, is rounded to 1e-323,
    twice the least positive binary64 number. *)
Definition small : TVector3.t float := TVector3.mk 0x1.59843e8c86a09p-537 0 0.

(** (1e200, 0, 0): its squared magnitude overflows to infinity. *)
Definition huge : TVector3.t float := TVector3.mk 0x1.4e718d7d7625ap+664 0 0.

(** 0.96, to the nearest binary64 number. *)
Definition f0_96 : float := 0x1.eb851eb851eb8p-1.

End Examples.


(** * Binary64 values as integers

    What the lemmas on rounding are stated with: a finite binary64 number
    is an integer multiple of 2^-1074, so it is measured in that unit. *)

Module Scaled.

#[local] Open Scope Z_scope.

(** The bits shifted out so far are not all zero. *)
Definition sticky (mrs : shr_record) : bool := shr_r mrs || shr_s mrs.

(** The exponent of the format: 53 digits, no exponent below -1074. *)
Definition fexp64 (x : Z) : Z := Z.max (x - 53) (-1074).

(** [rounded s V r]: the float [r] has sign [s] and magnitude [V], counted
    in units of 2^-1074; an infinity stands for a magnitude of 2^1024 or
    more. *)
Definition rounded (s : bool) (V : Z) (r : spec_float) : Prop :=
  (V = 0 /\ r = S754_zero s)
  \/ (exists m e, r = S754_finite s m e /\ -1074 <= e <= 971
                  /\ Z.pos m * 2 ^ (e + 1074) = V
                  /\ valid_binary r = true)
  \/ (r = S754_infinity s /\ 2 ^ 2098 <= V).

(** The exponent, above -1074, of the grid on which the floats near a
    magnitude [V] (in units of 2^-1074) lie. *)
Definition grid (V : Z) : Z := Z.max (Zdigits2 V - 53) 0.

Definition on_grid (H : Z) : Prop := H mod 2 ^ grid H = 0.

(** The value of a finite float in units of 2^-1074. *)
Definition SV (x : spec_float) : Z :=
  match x with
  | S754_finite s m e => cond_Zopp s (Z.pos m * 2 ^ (e + 1074))
  | _ => 0
  end.

(** A zero or a valid finite float. *)
Definition FV (x : spec_float) : Prop :=
  match x with
  | S754_zero _ => True
  | S754_finite _ _ _ => valid_binary x = true
  | _ => False
  end.

Definition Vf (x : float) : Z := SV (Prim2SF x).

Definition FVf (x : float) : Prop := FV (Prim2SF x).

End Scaled.
(** * Properties *)

(** ** Lists as arrays *)

Section ListLemmas.
Context {A B C : Type}.

Lemma map2_length (f : A -> B -> C) (a : list A) (b : list B) :
  length a = length b -> length (map2 f a b) = length a.
Proof.
  revert b; induction a as [|x a IH]; intros [|y b]; simpl; try congruence.
  intros H; f_equal; apply IH; congruence.
Qed.

Lemma nth_map2 (f : A -> B -> C) (a : list A) (b : list B) i da db dc :
  length a = length b -> i < length a ->
  nth i (map2 f a b) dc = f (nth i a da) (nth i b db).
Proof.
  revert b i; induction a as [|x a IH]; intros [|y b] i; simpl;
    try congruence; try lia.
  intros H Hi; destruct i as [|i]; [reflexivity|].
  apply IH; [congruence | lia].
Qed.

Lemma np_binop_ok (f : A -> B -> C) (a : list A) (b : list B) :
  length a = length b -> np_binop f a b = Return (map2 f a b).
Proof.
  intros H; unfold np_binop; rewrite H, Nat.eqb_refl; reflexivity.
Qed.

End ListLemmas.

Lemma nth_map_in {A B : Type} (f : A -> B) (a : list A) i da db :
  i < length a -> nth i (map f a) db = f (nth i a da).
Proof.
  revert i; induction a as [|x a IH]; intros i; simpl; [lia|].
  intros Hi; destruct i as [|i]; [reflexivity | apply IH; lia].
Qed.

Lemma compress_length_eq {A B : Type} (mask : list bool) (a : list A)
      (b : list B) :
  length a = length mask -> length b = length mask ->
  length (compress mask a) = length (compress mask b).
Proof.
  revert a b; induction mask as [|m mask IH]; intros [|x a] [|y b]; simpl;
    try congruence.
  intros Ha Hb; destruct m; simpl; [f_equal|]; apply IH; congruence.
Qed.

(** Dividing under a mask, then overwriting the complement: position by
    position, a quotient where the mask holds and the constant elsewhere. *)
Lemma masked_quotient {A : Type} (g : A -> A -> A) (h : A -> A) (one : A)
      (mask : list bool) (out den : list A) :
  length out = length mask -> length den = length mask ->
  map2 (fun o (m : bool) => if m then one else o)
       (put_mask out mask
                 (map2 g (compress mask out) (map h (compress mask den))))
       (map negb mask)
  = map2 (fun (m : bool) od => if m then g (fst od) (h (snd od)) else one)
         mask (combine out den).
Proof.
  revert out den; induction mask as [|m mask IH]; intros [|o out] [|d den];
    simpl; try congruence; try reflexivity.
  intros Ho Hd; destruct m; simpl; f_equal; apply IH; congruence.
Qed.

Lemma put_mask_length {A : Type} (a : list A) (mask : list bool)
      (vals : list A) :
  length (put_mask a mask vals) = length a.
Proof.
  revert mask vals; induction a as [|x a IH]; intros [|m mask] vals; simpl;
    try reflexivity.
  destruct m; [destruct vals|]; simpl; f_equal; apply IH.
Qed.

(** ** Array vectors, position by position *)

Ltac lengths :=
  repeat first
    [ rewrite map2_length | rewrite length_map | rewrite put_mask_length
    | rewrite repeat_length ];
  try congruence; try lia.

Section ArrayShape.
Context {T : Type} {N : Number T}.

Lemma array_dot_spec n (self other : TVector3Array.t T) :
  TVector3Array.has_length n self -> TVector3Array.has_length n other ->
  exists out,
    TVector3Array.dot self other = Return out /\ length out = n /\
    forall i, i < n ->
      nth i out lit_0
      = TVector3.dot (TVector3Array.item self i) (TVector3Array.item other i).
Proof.
  intros (Hx & Hy & Hz) (Hx' & Hy' & Hz').
  unfold TVector3Array.dot, np_multiply, np_add.
  rewrite (np_binop_ok mul (TVector3Array.x self)) by congruence; simpl.
  rewrite (np_binop_ok mul (TVector3Array.y self)) by congruence; simpl.
  rewrite np_binop_ok by (lengths; lengths); simpl.
  rewrite (np_binop_ok mul (TVector3Array.z self)) by congruence; simpl.
  rewrite np_binop_ok by (lengths; lengths).
  eexists; split; [reflexivity|split].
  - lengths; lengths.
  - intros i Hi. unfold TVector3.dot, TVector3Array.item; simpl.
    rewrite (nth_map2 add _ _ lit_0 lit_0) by (lengths; lengths).
    rewrite (nth_map2 add _ _ lit_0 lit_0) by (lengths; lengths).
    rewrite !(nth_map2 mul _ _ lit_0 lit_0) by (lengths; lengths).
    reflexivity.
Qed.

Lemma array_mag2_spec n (self : TVector3Array.t T) :
  TVector3Array.has_length n self ->
  exists out,
    ArrayMethods.mag2 self = Return out /\ length out = n /\
    forall i, i < n ->
      nth i out lit_0
      = TVector3.dot (TVector3Array.item self i) (TVector3Array.item self i).
Proof.
  intros H; exact (array_dot_spec H H).
Qed.

End ArrayShape.

Section ArrayCosdelta.
Context {T : Type} {N : Number T}.

Lemma array_cosdelta_spec n (self other : TVector3Array.t T) :
  TVector3Array.has_length n self -> TVector3Array.has_length n other ->
  exists out,
    ArrayMethods.cosdelta self other = Return out /\ length out = n /\
    forall i, i < n ->
      let v := TVector3Array.item self i in
      let w := TVector3Array.item other i in
      nth i out lit_0
      = cosdelta_at (TVector3.dot v v) (TVector3.dot w w) (TVector3.dot v w).
Proof.
  intros Hs Ho.
  destruct (array_mag2_spec Hs) as (m1 & E1 & L1 & P1).
  destruct (array_mag2_spec Ho) as (m2 & E2 & L2 & P2).
  destruct (array_dot_spec Hs Ho) as (d & Ed & Ld & Pd).
  unfold ArrayMethods.cosdelta.
  rewrite E1, E2; simpl.
  unfold np_multiply; rewrite np_binop_ok by congruence; simpl.
  set (denom := map2 mul m1 m2).
  assert (Ldenom : length denom = n) by (unfold denom; lengths).
  set (mask := np_greater_s denom lit_0).
  assert (Lmask : length mask = n) by (unfold mask, np_greater_s; lengths).
  unfold getitem_mask at 1. rewrite Lmask, Ldenom, Nat.eqb_refl; simpl.
  unfold ArrayMethods.dot; rewrite Ed; simpl.
  unfold getitem_mask. rewrite Lmask, Ld, Nat.eqb_refl; simpl.
  unfold np_divide, np_sqrt.
  rewrite np_binop_ok
    by (rewrite length_map; apply compress_length_eq; congruence); simpl.
  unfold setitem_mask. rewrite Lmask, Ld, Nat.eqb_refl.
  rewrite map2_length
    by (rewrite length_map; apply compress_length_eq; congruence).
  rewrite Nat.eqb_refl; simpl.
  unfold fill_mask, np_logical_not.
  rewrite length_map, put_mask_length, Lmask, Ld, Nat.eqb_refl; simpl.
  rewrite masked_quotient by congruence.
  eexists; split; [reflexivity|split].
  - unfold np_clip. rewrite length_map, map2_length; [exact Lmask|].
    rewrite length_combine; lia.
  - intros i Hi. unfold np_clip.
    rewrite (nth_map_in _ _ lit_0)
      by (rewrite map2_length; rewrite ?length_combine; lia).
    rewrite (nth_map2 _ _ _ false (lit_0, lit_0))
      by (rewrite ?length_combine; lia).
    rewrite combine_nth by congruence; simpl.
    unfold mask, np_greater_s.
    rewrite (nth_map_in _ _ lit_0) by lia.
    unfold denom. rewrite (nth_map2 mul _ _ lit_0 lit_0) by lia.
    rewrite P1, P2, Pd by lia.
    reflexivity.
Qed.

End ArrayCosdelta.

(** ** Division in scalar mode *)

Section Truediv.
Context {T : Type} {N : Number T}.

(** By a divisor that is not zero every division returns the quotient. *)
Lemma truediv_nonzero (ta tb : float_type) (a b : T) :
  eqb b lit_0 = false -> truediv ta tb a b = Return (div a b).
Proof.
  intros H. destruct ta, tb; try reflexivity.
  unfold truediv, py_truediv. rewrite H. reflexivity.
Qed.

End Truediv.

(** ** Binary64 facts

    Comparisons and the special values, read off the specification of the
    primitive floats. *)

Module F64.

Open Scope float_scope.

Abbreviation is_nan := PrimFloat.is_nan.

Lemma SFcompare_antisym (a b : spec_float) :
  SFcompare b a = option_map CompOpp (SFcompare a b).
Proof.
  destruct a as [sa|sa| |sa ma ea], b as [sb|sb| |sb mb eb]; simpl;
    try destruct sa; try destruct sb; simpl; try reflexivity;
    rewrite (Z.compare_antisym ea eb);
    destruct (Z.compare ea eb); simpl; try reflexivity;
    rewrite (Pos.compare_cont_antisym ma mb Eq); simpl;
    rewrite ?CompOpp_involutive; reflexivity.
Qed.

Lemma SFcompare_finite_eq s m e s' m' e' :
  SFcompare (S754_finite s m e) (S754_finite s' m' e') = Some Eq ->
  s = s' /\ m = m' /\ e = e'.
Proof.
  simpl. destruct s, s'; try discriminate;
    destruct (Z.compare e e') eqn:He; try discriminate;
    apply Z.compare_eq in He; subst e'; intros H; injection H as H;
    [apply (f_equal CompOpp) in H; rewrite CompOpp_involutive in H;
     simpl in H|];
    apply Pos.compare_eq in H; subst; auto.
Qed.

Lemma is_nan_spec (r : float) :
  is_nan r = true <-> Prim2SF r = S754_nan.
Proof.
  unfold PrimFloat.is_nan. rewrite FloatAxioms.eqb_spec. unfold SFeqb.
  destruct (Prim2SF r) as [s|s| |s m e] eqn:E; simpl.
  - split; discriminate.
  - destruct s; split; discriminate.
  - split; reflexivity.
  - destruct s; rewrite Z.compare_refl, Pos.compare_cont_refl; simpl;
      split; discriminate.
Qed.

Lemma not_nan_spec (r : float) :
  is_nan r = false <-> Prim2SF r <> S754_nan.
Proof.
  rewrite <- is_nan_spec. destruct (is_nan r); split; congruence.
Qed.

(** Equal to a nonzero number under [=?] means equal. *)
Lemma eqb_finite_eq (r c : float) s m e :
  Prim2SF c = S754_finite s m e -> (r =? c) = true -> r = c.
Proof.
  intros Hc H. rewrite FloatAxioms.eqb_spec, Hc in H. unfold SFeqb in H.
  destruct (SFcompare (Prim2SF r) (S754_finite s m e)) as [[]|] eqn:E;
    try discriminate.
  destruct (Prim2SF r) as [s'|s'| |s' m' e'] eqn:Er; simpl in E;
    try (destruct s', s; discriminate); try (destruct s'; discriminate);
    try discriminate.
  change (SFcompare (S754_finite s' m' e') (S754_finite s m e) = Some Eq) in E.
  apply SFcompare_finite_eq in E. destruct E as (-> & -> & ->).
  rewrite <- (SF2Prim_Prim2SF r), <- (SF2Prim_Prim2SF c), Er, Hc. reflexivity.
Qed.

Lemma ltb_leb (a b : float) : (a <? b) = true -> (a <=? b) = true.
Proof.
  rewrite ltb_spec, leb_spec. unfold SFltb, SFleb.
  destruct (SFcompare (Prim2SF a) (Prim2SF b)) as [[]|]; congruence.
Qed.

Lemma leb_not_ltb (a b : float) : (a <=? b) = true -> (b <? a) = false.
Proof.
  rewrite ltb_spec, leb_spec. unfold SFltb, SFleb.
  rewrite (SFcompare_antisym (Prim2SF a) (Prim2SF b)).
  destruct (SFcompare (Prim2SF a) (Prim2SF b)) as [[]|]; simpl; congruence.
Qed.

Lemma ltb_nan_l (a b : float) : is_nan a = true -> (a <? b) = false.
Proof.
  rewrite is_nan_spec, ltb_spec. intros ->. reflexivity.
Qed.

Lemma ltb_nan_r (a b : float) : is_nan b = true -> (a <? b) = false.
Proof.
  rewrite is_nan_spec, ltb_spec. intros ->.
  unfold SFltb. destruct (Prim2SF a); reflexivity.
Qed.

(** Neither below nor above and not a NaN: equal under [=?]. *)
Lemma not_ltb_eqb (a b : float) :
  is_nan a = false -> is_nan b = false ->
  (a <? b) = false -> (b <? a) = false -> (a =? b) = true.
Proof.
  rewrite !not_nan_spec, !ltb_spec, FloatAxioms.eqb_spec.
  unfold SFltb, SFeqb.
  rewrite (SFcompare_antisym (Prim2SF a) (Prim2SF b)).
  intros Ha Hb.
  destruct (SFcompare (Prim2SF a) (Prim2SF b)) as [[]|] eqn:E; simpl;
    try congruence.
  destruct (Prim2SF a), (Prim2SF b); simpl in E; congruence.
Qed.

(** The scalar clamp [max(-1.0, min(1.0, r))] lands in [-1, 1] whatever
    [r] is: a NaN fails [r < 1.0], so [min] keeps 1.0. *)
Lemma clamp_between (r : float) :
  between (-1) 1 (py_max (opp lit_1) (py_min lit_1 r)) = true.
Proof.
  unfold py_max, py_min, between; simpl.
  destruct (r <? 1) eqn:E1; [|reflexivity].
  destruct (-1 <? r) eqn:E2; [|reflexivity].
  rewrite (@ltb_leb _ _ E1), (@ltb_leb _ _ E2). reflexivity.
Qed.

Lemma clamp_nan (r : float) :
  is_nan r = true -> py_max (opp lit_1) (py_min lit_1 r) = 1.
Proof.
  intros H. unfold py_max, py_min; simpl.
  rewrite (@ltb_nan_l r 1 H). reflexivity.
Qed.

(** [numpy.clip(r, -1, 1)] lands in [-1, 1] unless [r] is a NaN, which it
    returns as it is. *)
Lemma clip_between (r : float) :
  is_nan r = false -> between (-1) 1 (clip1 (opp lit_1) lit_1 r) = true.
Proof.
  intros H. unfold clip1, between; simpl.
  destruct (r <? -1) eqn:E1; [reflexivity|].
  destruct (1 <? r) eqn:E2; [reflexivity|].
  assert (L1 : (-1 <=? r) = true).
  { destruct (-1 <? r) eqn:E3; [apply ltb_leb; exact E3|].
    rewrite (@eqb_finite_eq r (-1) true 4503599627370496 (-52)%Z);
      [reflexivity|reflexivity|].
    apply not_ltb_eqb; auto. }
  assert (L2 : (r <=? 1) = true).
  { destruct (r <? 1) eqn:E3; [apply ltb_leb; exact E3|].
    rewrite (@eqb_finite_eq r 1 false 4503599627370496 (-52)%Z);
      [reflexivity|reflexivity|].
    apply not_ltb_eqb; auto. }
  rewrite L1, L2. reflexivity.
Qed.

Lemma clip_nan (r : float) :
  is_nan r = true -> clip1 (opp lit_1) lit_1 r = r.
Proof.
  intros H. unfold clip1; simpl.
  rewrite (@ltb_nan_l r (-1) H), (@ltb_nan_r 1 r H). reflexivity.
Qed.

(** On a number the two clamps agree. *)
Lemma clamp_clip (r : float) :
  is_nan r = false ->
  py_max (opp lit_1) (py_min lit_1 r) = clip1 (opp lit_1) lit_1 r.
Proof.
  intros H. unfold py_max, py_min, clip1; simpl.
  destruct (r <? 1) eqn:E1.
  - assert (E2 : (1 <? r) = false) by (apply leb_not_ltb, ltb_leb, E1).
    rewrite E2.
    destruct (-1 <? r) eqn:E3.
    + rewrite (@leb_not_ltb _ _ (@ltb_leb _ _ E3)). reflexivity.
    + destruct (r <? -1) eqn:E4; [reflexivity|].
      symmetry.
      apply (@eqb_finite_eq r (-1) true 4503599627370496 (-52)%Z);
        [reflexivity|].
      apply not_ltb_eqb; auto.
  - change (-1 <? 1) with true; simpl.
    destruct (r <? -1) eqn:E4.
    + (* r < -1 and not r < 1: impossible *)
      exfalso.
      rewrite ltb_spec in E1, E4. unfold SFltb in *.
      destruct (Prim2SF r) as [s|s| |s m e]; simpl in *;
        try destruct s; simpl in *; try discriminate.
    + destruct (1 <? r) eqn:E5; [reflexivity|].
      symmetry.
      apply (@eqb_finite_eq r 1 false 4503599627370496 (-52)%Z);
        [reflexivity|].
      apply not_ltb_eqb; auto.
Qed.

(** A product with a zero factor is a zero or a NaN, never above zero. *)
Lemma mul_zero_not_pos (m m' : float) :
  (m =? 0) = true -> (0 <? m * m') = false /\ (0 <? m' * m) = false.
Proof.
  rewrite FloatAxioms.eqb_spec, !ltb_spec, !mul_spec.
  change (Prim2SF 0) with (S754_zero false).
  unfold SF64mul, SFeqb, SFltb.
  destruct (Prim2SF m) as [s|s| |s x e]; simpl;
    try (destruct s; discriminate); try discriminate.
  intros _. destruct (Prim2SF m') as [s'|s'| |s' x' e']; simpl; auto.
Qed.

Lemma sqrt_nan (d : float) :
  is_nan d = true -> is_nan (PrimFloat.sqrt d) = true.
Proof.
  rewrite !is_nan_spec, sqrt_spec. intros ->. reflexivity.
Qed.

Lemma div_nan_r (a b : float) : is_nan b = true -> is_nan (a / b) = true.
Proof.
  rewrite !is_nan_spec, div_spec. intros ->.
  unfold SF64div. destruct (Prim2SF a); reflexivity.
Qed.

(** Not below zero, not above zero, and a square root that is not zero:
    only a NaN is left. *)
Lemma undecided_is_nan (d : float) :
  (d <? 0) = false -> (0 <? d) = false -> (PrimFloat.sqrt d =? 0) = false ->
  is_nan d = true.
Proof.
  rewrite is_nan_spec, !ltb_spec, FloatAxioms.eqb_spec, sqrt_spec.
  change (Prim2SF 0) with (S754_zero false).
  unfold SFltb, SFeqb, SF64sqrt.
  destruct (Prim2SF d) as [s|s| |s x e]; simpl; try reflexivity;
    destruct s; simpl; discriminate.
Qed.

(** Scalar mode against array mode at one position: when the scalar
    computation returns, array mode holds the same number there, unless the
    quotient is a NaN, which [max]/[min] turn into 1.0 and [clip] keeps. *)
Lemma scalar_vs_array_cosdelta (v w : TVector3.t float) (c : float) :
  Methods.cosdelta python_float v w = Return c ->
  let a := cosdelta_at (TVector3.dot v v) (TVector3.dot w w)
                       (TVector3.dot v w) in
  a = c \/ (is_nan a = true /\ c = 1).
Proof.
  unfold Methods.cosdelta, Methods.mag2, Common.mag2, Methods.dot, cosdelta_at.
  cbn [bind].
  generalize (TVector3.dot v v) (TVector3.dot w w) (TVector3.dot v w).
  intros m1 m2 d; simpl.
  destruct ((m1 =? 0) || (m2 =? 0)) eqn:G.
  - intros H; injection H as <-. left.
    apply orb_true_iff in G. destruct G as [G|G].
    + rewrite (proj1 (@mul_zero_not_pos m1 m2 G)). reflexivity.
    + rewrite (proj2 (@mul_zero_not_pos m2 m1 G)). reflexivity.
  - unfold math_sqrt; simpl.
    destruct (m1 * m2 <? 0) eqn:Hneg; simpl; [discriminate|].
    unfold truediv, py_truediv; simpl.
    destruct (PrimFloat.sqrt (m1 * m2) =? 0) eqn:Hz; simpl; [discriminate|].
    intros H; injection H as <-.
    destruct (0 <? m1 * m2) eqn:Hpos.
    + destruct (is_nan (d / PrimFloat.sqrt (m1 * m2))) eqn:Hn.
      * right.
        pose proof (@clip_nan _ Hn) as E1; simpl in E1.
        pose proof (@clamp_nan _ Hn) as E2; simpl in E2.
        rewrite E1. auto.
      * left. pose proof (@clamp_clip _ Hn) as E; simpl in E. auto.
    + left.
      assert (Hn : is_nan (d / PrimFloat.sqrt (m1 * m2)) = true).
      { apply div_nan_r, sqrt_nan, undecided_is_nan; assumption. }
      pose proof (@clamp_nan _ Hn) as E; simpl in E. auto.
Qed.

(** Equal under [=?] to a number that is not zero means equal. *)
Lemma eqb_nonzero_eq (a b : float) :
  (a =? b) = true -> (b =? 0) = false -> a = b.
Proof.
  intros H Hz.
  destruct (Prim2SF b) as [s|s| |s m e] eqn:Eb.
  - rewrite FloatAxioms.eqb_spec, Eb in Hz. destruct s; discriminate.
  - rewrite FloatAxioms.eqb_spec, Eb in H. unfold SFeqb in H.
    destruct (Prim2SF a) as [s'|s'| |s' m' e'] eqn:Ea; simpl in H;
      try discriminate; try (destruct s'; discriminate);
      try (destruct s; discriminate).
    assert (s' = s) by (destruct s', s; congruence). subst s'.
    rewrite <- (SF2Prim_Prim2SF a), <- (SF2Prim_Prim2SF b), Ea, Eb.
    reflexivity.
  - rewrite FloatAxioms.eqb_spec, Eb in H. unfold SFeqb in H.
    destruct (Prim2SF a); discriminate.
  - exact (@eqb_finite_eq a b s m e Eb H).
Qed.

Lemma eqb_not_nan_r (a b : float) : (a =? b) = true -> is_nan b = false.
Proof.
  rewrite FloatAxioms.eqb_spec, not_nan_spec. unfold SFeqb.
  intros H E. rewrite E in H. destruct (Prim2SF a); discriminate.
Qed.

(** The square root of a number below zero is a NaN. *)
Lemma sqrt_neg_nan (d : float) :
  (d <? 0) = true -> is_nan (PrimFloat.sqrt d) = true.
Proof.
  rewrite is_nan_spec, ltb_spec, sqrt_spec.
  change (Prim2SF 0) with (S754_zero false).
  unfold SFltb, SF64sqrt.
  destruct (Prim2SF d) as [s|s| |s x e]; simpl; try discriminate;
    destruct s; simpl; try discriminate; reflexivity.
Qed.

(** A finite number that is not zero, divided by itself, is exactly 1.0:
    the quotient of the mantissas is a power of two and nothing is
    rounded. *)
Lemma SFdiv_self s m e :
  SF64div (S754_finite s m e) (S754_finite s m e)
  = S754_finite false 4503599627370496 (-52).
Proof.
  unfold SF64div, SFdiv, SFdiv_core_binary.
  rewrite Z.sub_diag.
  replace (Zdigits2 (Z.pos m) + e - (Zdigits2 (Z.pos m) + e))%Z with 0%Z
    by lia.
  change (Z.min (fexp prec emax 0) 0) with (-53)%Z.
  change (0 - -53)%Z with 53%Z. cbv iota beta.
  assert (E : Z.div_eucl (Z.shiftl (Z.pos m) 53) (Z.pos m)
              = (9007199254740992%Z, 0%Z)).
  { rewrite Z.shiftl_mul_pow2 by lia.
    assert (P : forall a b, Z.div_eucl a b = (Z.div a b, Z.modulo a b)).
    { intros a b. unfold Z.div, Z.modulo.
      destruct (Z.div_eucl a b); reflexivity. }
    rewrite P, (Z.mul_comm (Z.pos m)), Z.div_mul, Z.mod_mul by lia.
    reflexivity. }
  rewrite E.
  assert (L : new_location (Z.pos m) 0 = loc_Exact).
  { unfold new_location. destruct (Z.even (Z.pos m)); reflexivity. }
  rewrite L. destruct s; reflexivity.
Qed.

(** A number that is neither zero nor a NaN, divided by itself: 1.0, or a
    NaN for an infinity; clamped, 1.0 either way. *)
Lemma clamp_div_self (m : float) :
  (m =? 0) = false -> is_nan m = false ->
  py_max (opp lit_1) (py_min lit_1 (m / m)) = 1.
Proof.
  intros Hz Hn.
  destruct (Prim2SF m) as [s|s| |s x e] eqn:E.
  - rewrite FloatAxioms.eqb_spec, E in Hz. destruct s; discriminate.
  - apply clamp_nan. rewrite is_nan_spec, div_spec, E. reflexivity.
  - apply not_nan_spec in Hn. congruence.
  - assert (D : m / m = 1).
    { rewrite <- (SF2Prim_Prim2SF (m / m)), div_spec, E, SFdiv_self.
      reflexivity. }
    rewrite D. reflexivity.
Qed.

(** Rounding keeps the sign it is given. *)
Lemma binary_round_aux_unsigned m e l :
  unsigned (binary_round_aux prec emax false m e l).
Proof.
  unfold binary_round_aux.
  destruct (shr_fexp prec emax m e l) as [mrs' e'].
  destruct (shr_fexp prec emax _ e' loc_Exact) as [mrs'' e''].
  destruct (shr_m mrs''); simpl; auto.
  match goal with |- context [if ?c then _ else _] => destruct c end;
    reflexivity.
Qed.

Lemma mul_self_unsigned (a : float) : unsigned (Prim2SF (a * a)).
Proof.
  rewrite mul_spec. unfold SF64mul.
  destruct (Prim2SF a) as [s|s| |s m e]; simpl; auto;
    try (destruct s; reflexivity).
  rewrite xorb_nilpotent. apply binary_round_aux_unsigned.
Qed.

Lemma add_unsigned (a b : float) :
  unsigned (Prim2SF a) -> unsigned (Prim2SF b) ->
  unsigned (Prim2SF (a + b)).
Proof.
  rewrite add_spec. unfold SF64add.
  destruct (Prim2SF a) as [s|s| |s m e], (Prim2SF b) as [s'|s'| |s' m' e'];
    simpl; auto; try (intros -> ->; reflexivity).
  intros -> ->. unfold SFadd, binary_normalize, binary_round. simpl.
  destruct (shl_align _ _ _) as [mz ez]. apply binary_round_aux_unsigned.
Qed.

Lemma mul_unsigned (a b : float) :
  unsigned (Prim2SF a) -> unsigned (Prim2SF b) ->
  unsigned (Prim2SF (a * b)).
Proof.
  rewrite mul_spec. unfold SF64mul.
  destruct (Prim2SF a) as [s|s| |s m e], (Prim2SF b) as [s'|s'| |s' m' e'];
    simpl; auto; try (intros -> ->; reflexivity).
  intros -> ->. apply binary_round_aux_unsigned.
Qed.

Lemma unsigned_not_neg (a : float) :
  unsigned (Prim2SF a) -> (a <? 0) = false.
Proof.
  rewrite ltb_spec. change (Prim2SF 0) with (S754_zero false).
  unfold SFltb. destruct (Prim2SF a) as [s|s| |s m e]; simpl;
    try reflexivity; intros ->; reflexivity.
Qed.

(** A squared magnitude is never below zero, nor is a product of two. *)
Lemma dot_self_unsigned (v : TVector3.t float) :
  unsigned (Prim2SF (TVector3.dot v v)).
Proof.
  unfold TVector3.dot. cbn [add mul Binary64.number].
  repeat apply add_unsigned; apply mul_self_unsigned.
Qed.

Lemma denominator_not_neg (v w : TVector3.t float) :
  (TVector3.dot v v * TVector3.dot w w <? 0) = false.
Proof.
  apply unsigned_not_neg, mul_unsigned; apply dot_self_unsigned.
Qed.

(** Scalar-mode [cosdelta] either returns a value in [-1, 1] or raises
    ZeroDivisionError, the latter exactly when both squared magnitudes
    pass the guard and the square root of their product is zero. *)
Lemma scalar_cosdelta_cases (v w : TVector3.t float) :
  let m1 := TVector3.dot v v in
  let m2 := TVector3.dot w w in
  if (m1 =? 0) || (m2 =? 0) || negb (PrimFloat.sqrt (m1 * m2) =? 0)
  then exists c, Methods.cosdelta python_float v w = Return c /\ between (-1) 1 c = true
  else Methods.cosdelta python_float v w
       = Raise (ZeroDivisionError "float division by zero").
Proof.
  intros m1 m2.
  pose proof (denominator_not_neg v w) as Hneg. fold m1 m2 in Hneg.
  unfold Methods.cosdelta, Methods.mag2, Common.mag2, Methods.dot.
  cbn [bind]. fold m1 m2.
  change (@eqb float Binary64.number) with PrimFloat.eqb.
  change (@lit_0 float Binary64.number) with 0.
  change (@lit_1 float Binary64.number) with 1.
  change (@mul float Binary64.number) with PrimFloat.mul.
  destruct ((m1 =? 0) || (m2 =? 0)) eqn:G; cbn [orb].
  - exists 1. split; reflexivity.
  - unfold math_sqrt.
    change (@ltb float Binary64.number) with PrimFloat.ltb.
    change (@sqrt float Binary64.number) with PrimFloat.sqrt.
    change (@lit_0 float Binary64.number) with 0.
    rewrite Hneg. cbn [bind]. unfold truediv, py_truediv.
    change (@eqb float Binary64.number) with PrimFloat.eqb.
    change (@lit_0 float Binary64.number) with 0.
    destruct (PrimFloat.sqrt (m1 * m2) =? 0); cbn [negb bind].
    + reflexivity.
    + eexists; split; [reflexivity|]. apply clamp_between.
Qed.

(** Whatever scalar-mode [cosdelta] returns lies in [-1, 1], for
    components of either type. *)
Lemma cosdelta_between (tc : float_type) (v w : TVector3.t float) (c : float) :
  Methods.cosdelta tc v w = Return c -> between (-1) 1 c = true.
Proof.
  unfold Methods.cosdelta, Methods.mag2, Common.mag2, Methods.dot.
  cbn [bind].
  destruct (eqb (TVector3.dot v v) lit_0 || eqb (TVector3.dot w w) lit_0).
  - intros H; injection H as <-. reflexivity.
  - destruct (math_sqrt _) as [s|]; [|discriminate]. cbn [bind].
    destruct (truediv tc python_float _ s) as [r|]; [|discriminate].
    cbn [bind].
    intros H; injection H as <-. apply clamp_between.
Qed.

(** It returns whenever a squared magnitude is zero or the square root of
    their product is not. *)
Lemma cosdelta_guarded (tc : float_type) (v w : TVector3.t float) :
  let m1 := TVector3.dot v v in
  let m2 := TVector3.dot w w in
  (m1 =? 0) || (m2 =? 0) || negb (PrimFloat.sqrt (m1 * m2) =? 0) = true ->
  exists c, Methods.cosdelta tc v w = Return c /\ between (-1) 1 c = true.
Proof.
  intros m1 m2 H.
  assert (E : exists c, Methods.cosdelta tc v w = Return c).
  { pose proof (denominator_not_neg v w) as Hneg. fold m1 m2 in Hneg.
    unfold Methods.cosdelta, Methods.mag2, Common.mag2, Methods.dot.
    cbn [bind]. fold m1 m2.
    change (@eqb float Binary64.number) with PrimFloat.eqb.
    change (@lit_0 float Binary64.number) with 0.
    change (@mul float Binary64.number) with PrimFloat.mul.
    destruct ((m1 =? 0) || (m2 =? 0)) eqn:G; cbn [orb] in *.
    - eexists; reflexivity.
    - unfold math_sqrt.
      change (@ltb float Binary64.number) with PrimFloat.ltb.
      change (@sqrt float Binary64.number) with PrimFloat.sqrt.
      change (@lit_0 float Binary64.number) with 0.
      rewrite Hneg. cbn [bind].
      apply negb_true_iff in H.
      rewrite truediv_nonzero by exact H. cbn [bind].
      eexists; reflexivity. }
  destruct E as [c E]. exists c. split; [exact E|].
  exact (cosdelta_between _ _ _ E).
Qed.

End F64.

(** ** Ordering *)

(** C5.  Each of [<], [>], [<=] and [>=] between any two vectors raises
    TypeError with the message "spatial vectors have no natural ordering",
    whatever the operands are; none of them returns a boolean. *)
Theorem ordering_raises_type_error (V : Type) (self other : V) :
  let e := TypeError "spatial vectors have no natural ordering" in
  Common.__lt__ self other = Raise e /\
  Common.__gt__ self other = Raise e /\
  Common.__le__ self other = Raise e /\
  Common.__ge__ self other = Raise e /\
  forall b : bool,
    Common.__lt__ self other <> Return b /\
    Common.__gt__ self other <> Return b /\
    Common.__le__ self other <> Return b /\
    Common.__ge__ self other <> Return b.
Proof.
  unfold Common.__lt__, Common.__gt__, Common.__le__, Common.__ge__.
  repeat split; discriminate.
Qed.

(** ** The predicates built on [dot] *)

Section Perpendicular.
Context {T : Type} {N : Number T}.

(** [dot] gives a number, and a number has no [x]: scalar-mode
    [isperpendicular] raises on every input. *)
Lemma scalar_isperpendicular_raises (v w : TVector3.t T) (tolerance : T) :
  Methods.isperpendicular v w tolerance
  = Raise (AttributeError "'float' object has no attribute 'x'").
Proof. reflexivity. Qed.

(** The same in array mode, on arrays of one length. *)
Lemma array_isperpendicular_raises n (self other : TVector3Array.t T)
      (tolerance : T) :
  TVector3Array.has_length n self -> TVector3Array.has_length n other ->
  ArrayMethods.isperpendicular self other tolerance
  = Raise (AttributeError "'numpy.ndarray' object has no attribute 'x'").
Proof.
  intros Hs Ho. destruct (array_dot_spec Hs Ho) as (d & Ed & _).
  unfold ArrayMethods.isperpendicular, ArrayMethods.dot. rewrite Ed.
  reflexivity.
Qed.

End Perpendicular.

(** C6.  On the scalar vectors (3, 4, 0) and (4, 3, 0): [mag()] is 5.0 for
    each and [cosdelta] is 0.96 (the binary64 number nearest to it), but
    [isperpendicular] with tolerance 1e-10 does not evaluate to False: it
    raises AttributeError, because [self.dot(other)] is the number 24.0 and
    the method reads [.x] off it. *)
Theorem example_340_430 :
  Methods.mag Examples.v340 = Return 5%float /\
  Methods.mag Examples.v430 = Return 5%float /\
  TVector3.dot Examples.v340 Examples.v430 = 24%float /\
  Methods.cosdelta python_float Examples.v340 Examples.v430 = Return Examples.f0_96 /\
  Methods.isperpendicular Examples.v340 Examples.v430 lit_1e_10
  = Raise (AttributeError "'float' object has no attribute 'x'") /\
  Methods.isperpendicular Examples.v340 Examples.v430 lit_1e_10
  <> Return false.
Proof.
  repeat split; try (vm_compute; reflexivity).
  rewrite scalar_isperpendicular_raises. discriminate.
Qed.

(** ** [cosdelta] *)

Section CosdeltaBinary64.
Open Scope float_scope.

(** C2.  At a position where either operand has zero squared magnitude,
    [cosdelta] is exactly 1.0 in both modes: scalar mode by its branch on
    [m1 == 0 or m2 == 0]; array mode by masking, which forces to 1 every
    position where the product of the squared magnitudes is not above
    zero, as it is not when a factor is zero, and [clip] leaves 1 alone. *)
Theorem cosdelta_zero_magnitude
        (tc : float_type) (n : nat) (self other : TVector3Array.t float) (i : nat)
        (Hs : TVector3Array.has_length n self)
        (Ho : TVector3Array.has_length n other)
        (Hi : i < n)
        (Hz : (TVector3.dot (TVector3Array.item self i)
                            (TVector3Array.item self i) =? 0) = true
              \/ (TVector3.dot (TVector3Array.item other i)
                               (TVector3Array.item other i) =? 0) = true) :
  Methods.cosdelta tc (TVector3Array.item self i) (TVector3Array.item other i)
  = Return 1
  /\ exists out,
      ArrayMethods.cosdelta self other = Return out /\ length out = n /\
      nth i out 0 = 1 /\
      forall j, j < n ->
        (0 <? TVector3.dot (TVector3Array.item self j)
                           (TVector3Array.item self j)
              * TVector3.dot (TVector3Array.item other j)
                             (TVector3Array.item other j)) = false ->
        nth j out 0 = 1.
Proof.
  split.
  - unfold Methods.cosdelta, Methods.mag2, Common.mag2, Methods.dot.
    cbn [bind].
    change (@eqb float Binary64.number) with PrimFloat.eqb.
    change (@lit_0 float Binary64.number) with 0.
    destruct Hz as [-> | ->]; [reflexivity | rewrite orb_true_r; reflexivity].
  - destruct (array_cosdelta_spec Hs Ho) as (out & E & L & P).
    exists out. split; [exact E|]. split; [exact L|].
    change (@lit_0 float Binary64.number) with 0 in P.
    assert (M : forall j, j < n ->
                (0 <? TVector3.dot (TVector3Array.item self j)
                                   (TVector3Array.item self j)
                      * TVector3.dot (TVector3Array.item other j)
                                     (TVector3Array.item other j)) = false ->
                nth j out 0 = 1).
    { intros j Hj Hm. rewrite (P j Hj). unfold cosdelta_at.
      change (@ltb float Binary64.number) with PrimFloat.ltb.
      change (@mul float Binary64.number) with PrimFloat.mul.
      change (@lit_0 float Binary64.number) with 0.
      rewrite Hm. reflexivity. }
    split; [|exact M].
    apply (M i Hi).
    destruct Hz as [Hz | Hz].
    + exact (proj1 (F64.mul_zero_not_pos _ Hz)).
    + exact (proj2 (F64.mul_zero_not_pos _ Hz)).
Qed.

(** Any vector against the zero vector, and the zero vector against any
    vector, in an array of two positions. *)
Lemma cosdelta_zero_magnitude_witness :
  let self := TVector3Array.mk [3; 0] [4; 0] [0; 0] in
  let other := TVector3Array.mk [0; 4] [0; 3] [0; 0] in
  Methods.cosdelta python_float Examples.v340 Examples.zero_vector = Return 1
  /\ exists out,
      ArrayMethods.cosdelta self other = Return out
      /\ length out = 2%nat /\ nth 0 out 0 = 1 /\
      forall j, j < 2 ->
        (0 <? TVector3.dot (TVector3Array.item self j)
                           (TVector3Array.item self j)
              * TVector3.dot (TVector3Array.item other j)
                             (TVector3Array.item other j)) = false ->
        nth j out 0 = 1.
Proof.
  apply (@cosdelta_zero_magnitude
           python_float 2 (TVector3Array.mk [3; 0] [4; 0] [0; 0])
           (TVector3Array.mk [0; 4] [0; 3] [0; 0]) 0).
  - repeat split.
  - repeat split.
  - lia.
  - right. vm_compute. reflexivity.
Defined.

(** C3, counterexample.  In array mode the vector (1e200, 0, 0) against
    itself gives a NaN: the squared magnitude overflows to infinity, the
    quotient is infinity / infinity, and [clip] passes a NaN through. *)
Lemma cosdelta_array_nan :
  exists out,
    ArrayMethods.cosdelta (constant_array 1 Examples.huge)
                          (constant_array 1 Examples.huge) = Return out
    /\ between (-1) 1 (nth 0 out 0) = false.
Proof.
  exists [nan]. split; vm_compute; reflexivity.
Qed.

(** C3, as amended.  Scalar-mode [cosdelta] returns a value in [-1, 1]
    whenever a squared magnitude is zero or the square root of their
    product is not, and whatever it returns lies in [-1, 1]; array-mode
    [cosdelta] holds at each position either a value in [-1, 1] or a NaN,
    and a NaN only where the masked quotient [dot / sqrt(denom)] is itself
    a NaN. *)
Theorem cosdelta_range
        (tc : float_type) (n : nat) (self other : TVector3Array.t float) (i : nat)
        (Hs : TVector3Array.has_length n self)
        (Ho : TVector3Array.has_length n other)
        (Hi : i < n) :
  let v := TVector3Array.item self i in
  let w := TVector3Array.item other i in
  let m1 := TVector3.dot v v in
  let m2 := TVector3.dot w w in
  let q := TVector3.dot v w / PrimFloat.sqrt (m1 * m2) in
  ((m1 =? 0) || (m2 =? 0) || negb (PrimFloat.sqrt (m1 * m2) =? 0) = true ->
   exists c, Methods.cosdelta tc v w = Return c /\ between (-1) 1 c = true)
  /\ (forall c, Methods.cosdelta tc v w = Return c -> between (-1) 1 c = true)
  /\ exists out,
      ArrayMethods.cosdelta self other = Return out /\ length out = n /\
      (between (-1) 1 (nth i out 0) = true
       \/ (PrimFloat.is_nan (nth i out 0) = true
           /\ (0 <? m1 * m2) = true /\ PrimFloat.is_nan q = true)).
Proof.
  intros v w m1 m2 q.
  split; [|split].
  - intros G. exact (F64.cosdelta_guarded tc v w G).
  - intros c E. exact (F64.cosdelta_between _ _ _ E).
  - destruct (array_cosdelta_spec Hs Ho) as (out & E & L & P).
    exists out. split; [exact E|]. split; [exact L|].
    change (@lit_0 float Binary64.number) with 0 in P.
    rewrite (P i Hi). unfold cosdelta_at. fold v w m1 m2.
    change (@ltb float Binary64.number) with PrimFloat.ltb.
    change (@mul float Binary64.number) with PrimFloat.mul.
    change (@div float Binary64.number) with PrimFloat.div.
    change (@sqrt float Binary64.number) with PrimFloat.sqrt.
    change (@lit_0 float Binary64.number) with 0.
    destruct (0 <? m1 * m2) eqn:Hpos.
    + fold q. destruct (PrimFloat.is_nan q) eqn:Hn.
      * right. rewrite (F64.clip_nan _ Hn). auto.
      * left. apply F64.clip_between. exact Hn.
    + left. reflexivity.
Qed.

(** On (3, 4, 0) and (4, 3, 0), alone in their arrays. *)
Lemma cosdelta_range_witness :
  ((25 =? 0) || (25 =? 0) || negb (PrimFloat.sqrt (25 * 25) =? 0) = true ->
   exists c, Methods.cosdelta python_float Examples.v340 Examples.v430 = Return c
             /\ between (-1) 1 c = true)
  /\ (forall c, Methods.cosdelta python_float Examples.v340 Examples.v430 = Return c ->
                between (-1) 1 c = true)
  /\ exists out,
      ArrayMethods.cosdelta (constant_array 1 Examples.v340)
                            (constant_array 1 Examples.v430) = Return out
      /\ length out = 1%nat /\
      (between (-1) 1 (nth 0 out 0) = true
       \/ (PrimFloat.is_nan (nth 0 out 0) = true
           /\ (0 <? 25 * 25) = true /\ PrimFloat.is_nan (24 / 25) = true)).
Proof.
  apply (@cosdelta_range python_float 1 (constant_array 1 Examples.v340)
                         (constant_array 1 Examples.v430) 0).
  - repeat split.
  - repeat split.
  - lia.
Defined.

(** Against the zero vector, on either side and in either mode. *)
Lemma cosdelta_with_zero_vector (tc : float_type) (v : TVector3.t float) (n : nat) :
  Methods.cosdelta tc v Examples.zero_vector = Return 1
  /\ Methods.cosdelta tc Examples.zero_vector v = Return 1
  /\ ArrayMethods.cosdelta (constant_array n v)
                           (constant_array n Examples.zero_vector)
     = Return (repeat 1 n).
Proof.
  assert (S1 : Methods.cosdelta tc v Examples.zero_vector = Return 1).
  { unfold Methods.cosdelta, Methods.mag2, Common.mag2, Methods.dot.
    cbn [bind].
    change (eqb (TVector3.dot Examples.zero_vector Examples.zero_vector) lit_0)
      with true.
    rewrite orb_true_r. reflexivity. }
  split; [exact S1|]. split; [reflexivity|].
  assert (Hv : TVector3Array.has_length n (constant_array n v))
    by (repeat split; apply repeat_length).
  assert (Hz : TVector3Array.has_length
                 n (constant_array n Examples.zero_vector))
    by (repeat split; apply repeat_length).
  destruct (array_cosdelta_spec Hv Hz) as (out & E & L & P).
  rewrite E. f_equal.
  apply (nth_ext _ _ 0 0); [rewrite repeat_length; exact L|].
  intros i Hi. rewrite L in Hi.
  change (@lit_0 float Binary64.number) with 0 in P.
  rewrite (P i Hi), (nth_repeat_lt _ _ Hi).
  unfold cosdelta_at.
  assert (I : TVector3Array.item (constant_array n Examples.zero_vector) i
              = Examples.zero_vector).
  { unfold TVector3Array.item, constant_array.
    cbn [TVector3Array.x TVector3Array.y TVector3Array.z].
    rewrite !(nth_repeat_lt _ _ Hi). reflexivity. }
  rewrite I.
  change (@ltb float Binary64.number) with PrimFloat.ltb.
  change (@mul float Binary64.number) with PrimFloat.mul.
  change (@lit_0 float Binary64.number) with 0.
  assert (Z : (TVector3.dot Examples.zero_vector Examples.zero_vector =? 0)
              = true) by (vm_compute; reflexivity).
  destruct (@F64.mul_zero_not_pos
              (TVector3.dot (N := Binary64.number)
                            Examples.zero_vector Examples.zero_vector)
              (TVector3.dot (TVector3Array.item (constant_array n v) i)
                            (TVector3Array.item (constant_array n v) i)) Z)
    as [_ ->].
  reflexivity.
Qed.

End CosdeltaBinary64.

(** ** Scalar [angle] *)

Section AngleBinary64.
Open Scope float_scope.
Context {L : Libm float}.

(** The arccosine never sees a value outside [-1, 1]: when [cosdelta]
    returns, [math.acos] returns too. *)
Lemma acos_of_cosdelta (tc : float_type) (v w : TVector3.t float)
      (c : float) :
  Methods.cosdelta tc v w = Return c -> math_acos c = Return (acos c).
Proof.
  intros H.
  assert (B : between (-1) 1 c = true).
  { revert H. unfold Methods.cosdelta, Methods.mag2, Common.mag2, Methods.dot.
    cbn [bind].
    destruct (eqb (TVector3.dot v v) lit_0 || eqb (TVector3.dot w w) lit_0).
    - intros H; injection H as <-. reflexivity.
    - destruct (math_sqrt _) as [s|]; [|discriminate]. cbn [bind].
      destruct (truediv tc python_float _ s) as [r|]; [|discriminate].
      cbn [bind].
      intros H; injection H as <-. apply F64.clamp_between. }
  unfold between in B. apply andb_true_iff in B. destruct B as [B1 B2].
  unfold math_acos.
  change (@ltb float Binary64.number) with PrimFloat.ltb.
  change (opp lit_1) with (-1). change (@lit_1 float Binary64.number) with 1.
  rewrite (F64.leb_not_ltb B1), (F64.leb_not_ltb B2). reflexivity.
Qed.

(** When [cosdelta] returns, so does [angle]. *)
Lemma angle_of_cosdelta (tc : float_type) (v w : TVector3.t float)
      (c : float) (degrees : bool) :
  Methods.cosdelta tc v w = Return c ->
  Methods.angle tc v w degrees
  = Return (if degrees then acos c * (180 / pi) else acos c).
Proof.
  intros H. unfold Methods.angle. rewrite H. cbn [bind].
  erewrite acos_of_cosdelta by exact H. cbn [bind].
  destruct degrees; reflexivity.
Qed.

End AngleBinary64.

(** C10.  Scalar-mode [angle] is not total on vectors with real components:
    on (1e-100, 0, 0) against itself both squared magnitudes are 1e-200,
    not zero, so the guard of [cosdelta] lets them through; their product
    underflows to 0.0, its square root is 0.0, and the division raises
    ZeroDivisionError before the arccosine is reached.  Array mode, which
    masks on the product, gives 1.0 at such a position. *)
Theorem angle_raises_on_underflow :
  (TVector3.dot Examples.tiny Examples.tiny =? 0)%float = false /\
  (TVector3.dot Examples.tiny Examples.tiny
   * TVector3.dot Examples.tiny Examples.tiny)%float = 0%float /\
  (forall (L : Libm float) (degrees : bool),
     Methods.angle python_float Examples.tiny Examples.tiny degrees
     = Raise (ZeroDivisionError "float division by zero")) /\
  ArrayMethods.cosdelta (constant_array 1 Examples.tiny)
                        (constant_array 1 Examples.tiny)
  = Return [1%float].
Proof.
  repeat split; try (vm_compute; reflexivity).
Qed.

(** ** Array mode against scalar mode *)

Section Agreement.
Context {T : Type} {N : Number T}.

Lemma array_mag_spec n (self : TVector3Array.t T) :
  TVector3Array.has_length n self ->
  exists ms,
    ArrayMethods.mag self = Return ms /\ length ms = n /\
    forall i, i < n ->
      Methods.mag (TVector3Array.item self i) = Return (nth i ms lit_0).
Proof.
  intros Hs. destruct (array_mag2_spec Hs) as (m & E & Lm & P).
  unfold ArrayMethods.mag, Common.mag.
  change (Common.mag2 ArrayMethods.dot self) with (ArrayMethods.mag2 self).
  rewrite E. cbn [bind q_sqrt array_quantity].
  eexists; split; [reflexivity|]. split; [unfold np_sqrt; lengths|].
  intros i Hi. unfold np_sqrt.
  rewrite (nth_map_in _ _ lit_0) by lia. rewrite (P i Hi). reflexivity.
Qed.

Lemma array_phi_spec {L : Libm T} n (self : TVector3Array.t T) :
  TVector3Array.has_length n self ->
  exists ps,
    ArrayMethods.phi self = Return ps /\ length ps = n /\
    forall i, i < n ->
      Methods.phi (TVector3Array.item self i) = Return (nth i ps lit_0).
Proof.
  intros (Hx & Hy & Hz).
  unfold ArrayMethods.phi, np_arctan2. rewrite np_binop_ok by congruence.
  eexists; split; [reflexivity|]. split; [lengths|].
  intros i Hi. rewrite (nth_map2 atan2 _ _ lit_0 lit_0) by lia.
  reflexivity.
Qed.

Lemma scalar_isopposite_spec (v w : TVector3.t T) (tolerance : T) :
  Methods.isopposite v w tolerance
  = Return (below_at tolerance (TVector3._vector add v w)).
Proof.
  unfold Methods.isopposite, Methods.__add__, Methods.all_below, below_at.
  cbn [bind Methods.getattr].
  destruct (ltb (absolute (TVector3.x (TVector3._vector add v w))) tolerance);
    [|reflexivity].
  destruct (ltb (absolute (TVector3.y (TVector3._vector add v w))) tolerance);
    reflexivity.
Qed.

Lemma array_isopposite_spec n (self other : TVector3Array.t T) (tolerance : T) :
  TVector3Array.has_length n self -> TVector3Array.has_length n other ->
  exists bs,
    ArrayMethods.isopposite self other tolerance = Return bs /\
    length bs = n /\
    forall i, i < n ->
      Methods.isopposite (TVector3Array.item self i)
                         (TVector3Array.item other i) tolerance
      = Return (nth i bs false).
Proof.
  intros (Hx & Hy & Hz) (Hx' & Hy' & Hz').
  unfold ArrayMethods.isopposite, TVector3Array.__add__, np_add.
  rewrite !np_binop_ok by congruence. cbn [bind].
  unfold ArrayMethods.all_below. cbn [bind ArrayMethods.getattr].
  cbn [TVector3Array.x TVector3Array.y TVector3Array.z].
  unfold np_bitwise_and, np_less_s, np_absolute.
  rewrite np_binop_ok by (lengths; lengths). cbn [bind].
  rewrite np_binop_ok by (lengths; lengths).
  eexists; split; [reflexivity|]. split; [lengths; lengths|].
  intros i Hi. rewrite scalar_isopposite_spec. f_equal.
  rewrite (nth_map2 andb _ _ false false) by (lengths; lengths).
  rewrite (nth_map2 andb _ _ false false) by (lengths; lengths).
  rewrite !(nth_map_in _ _ lit_0) by (lengths; lengths).
  rewrite ?(nth_map_in _ _ lit_0) by (lengths; lengths).
  rewrite !(nth_map2 add _ _ lit_0 lit_0) by (lengths; lengths).
  reflexivity.
Qed.

Lemma array_angle_spec {L : Libm T} n (self other : TVector3Array.t T)
      (cs : list T) (degrees : bool) :
  ArrayMethods.cosdelta self other = Return cs -> length cs = n ->
  exists out,
    ArrayMethods.angle self other None degrees = Return out /\
    length out = n /\
    forall i, i < n ->
      nth i out lit_0
      = if degrees then mul (acos (nth i cs lit_0)) (div lit_180 pi)
        else acos (nth i cs lit_0).
Proof.
  intros E Lc. unfold ArrayMethods.angle. rewrite E. cbn [bind].
  unfold np_arccos, np_multiply_s.
  destruct degrees; (eexists; split; [reflexivity|]; split; [lengths|]);
    intros i Hi.
  - rewrite (nth_map_in _ _ lit_0) by lengths.
    rewrite (nth_map_in _ _ lit_0) by lengths. reflexivity.
  - rewrite (nth_map_in _ _ lit_0) by lengths. reflexivity.
Qed.

End Agreement.



(** ** [delta_phi] *)

(** A finite binary64 number minus itself is +0.0. *)
Lemma sub_self_finite (p : float) :
  PrimFloat.is_finite p = true -> (p - p)%float = 0%float.
Proof.
  intros Hf.
  rewrite <- (SF2Prim_Prim2SF (p - p)), sub_spec.
  unfold PrimFloat.is_finite, PrimFloat.is_infinity in Hf.
  apply negb_true_iff, orb_false_iff in Hf. destruct Hf as [Hn Hi].
  rewrite FloatAxioms.eqb_spec, abs_spec in Hi.
  apply F64.not_nan_spec in Hn.
  destruct (Prim2SF p) as [s|s| |s m e]; try congruence.
  - destruct s; reflexivity.
  - destruct s; discriminate.
  - unfold SF64sub, SFsub. rewrite Z.sub_diag. reflexivity.
Qed.

(** ** [isparallel] *)

Section ParallelBinary64.
Open Scope float_scope.

(** C8, counterexample.  (1.7e-81, 0, 0) is not the zero vector and is not
    parallel to itself by [isparallel]: the product of its squared
    magnitudes is rounded in the subnormal range, [cosdelta] comes out near
    0.92, and the answer is False.  On (1e-100, 0, 0) the call raises. *)
Lemma isparallel_self_fails :
  (TVector3.x Examples.subnormal =? 0) = false
  /\ (TVector3.dot Examples.subnormal Examples.subnormal =? 0) = false
  /\ Methods.isparallel python_float Examples.subnormal Examples.subnormal lit_1e_10
     = Return false
  /\ Methods.isparallel python_float Examples.tiny Examples.tiny lit_1e_10
     = Raise (ZeroDivisionError "float division by zero").
Proof.
  repeat split; vm_compute; reflexivity.
Qed.

(** C8, as amended.  For every vector whose squared magnitude [m] is not
    zero and is recovered by the denominator, [sqrt(m * m) == m] (the
    product neither underflows nor is rounded in the subnormal range),
    [isparallel(v, v)] with the default tolerance is True: the quotient is
    exactly 1.0, or a NaN that the clamp turns into 1.0, and
    [1 - 1.0 == 0 < 1e-10]. *)
Theorem isparallel_self
        (tc : float_type) (v : TVector3.t float)
        (Hnz : (TVector3.dot v v =? 0) = false)
        (Hsq : (PrimFloat.sqrt (TVector3.dot v v * TVector3.dot v v)
                =? TVector3.dot v v) = true) :
  Methods.cosdelta tc v v = Return 1
  /\ Methods.isparallel tc v v lit_1e_10 = Return true.
Proof.
  assert (C : Methods.cosdelta tc v v = Return 1).
  { unfold Methods.cosdelta, Methods.mag2, Common.mag2, Methods.dot.
    cbn [bind]. revert Hnz Hsq.
    generalize (TVector3.dot v v). intros m Hnz Hsq.
    change (@eqb float Binary64.number) with PrimFloat.eqb.
    change (@lit_0 float Binary64.number) with 0.
    change (@mul float Binary64.number) with PrimFloat.mul.
    rewrite Hnz. cbn [orb].
    pose proof (@F64.eqb_not_nan_r _ _ Hsq) as Hn.
    pose proof (@F64.eqb_nonzero_eq _ _ Hsq Hnz) as Es.
    unfold math_sqrt.
    change (@ltb float Binary64.number) with PrimFloat.ltb.
    change (@sqrt float Binary64.number) with PrimFloat.sqrt.
    change (@lit_0 float Binary64.number) with 0.
    destruct (m * m <? 0) eqn:Hneg.
    - apply F64.sqrt_neg_nan in Hneg. rewrite Es in Hneg. congruence.
    - cbn [bind]. rewrite Es. rewrite truediv_nonzero by exact Hnz.
      change (@div float Binary64.number) with PrimFloat.div.
      cbn [bind].
      rewrite (@F64.clamp_div_self _ Hnz Hn). reflexivity. }
  split; [exact C|].
  unfold Methods.isparallel, Common.isparallel. rewrite C. reflexivity.
Qed.

(** (3, 4, 0): squared magnitude 25, and sqrt(625) is 25. *)
Lemma isparallel_self_witness :
  Methods.cosdelta python_float Examples.v340 Examples.v340 = Return 1
  /\ Methods.isparallel python_float Examples.v340 Examples.v340 lit_1e_10 = Return true.
Proof.
  apply (@isparallel_self python_float Examples.v340); vm_compute; reflexivity.
Defined.

End ParallelBinary64.


(** ** The store, and array-mode [unit] *)

Section StoreLemmas.
Context {T : Type}.

Lemma load_store_same (h : Store.heap T) r o :
  r < length h -> Store.load (Store.store h r o) r = Return o.
Proof.
  unfold Store.load. revert r; induction h as [|o' h IH]; intros r; simpl;
    [lia|].
  destruct r as [|r]; simpl; [reflexivity|]. intros Hr. apply IH. lia.
Qed.

Lemma load_store_other (h : Store.heap T) r r' o :
  r' <> r -> Store.load (Store.store h r o) r' = Store.load h r'.
Proof.
  unfold Store.load. revert r r'; induction h as [|o' h IH]; intros r r' Hr;
    simpl; [reflexivity|].
  destruct r as [|r], r' as [|r']; simpl; try reflexivity; try congruence.
  apply IH. congruence.
Qed.

Lemma load_in_range (h : Store.heap T) r o :
  Store.load h r = Return o -> r < length h.
Proof.
  unfold Store.load. destruct (nth_error h r) eqn:E; [|discriminate].
  intros _. apply nth_error_Some. congruence.
Qed.

Lemma load_alloc_old (h : Store.heap T) q r :
  r < length h -> Store.load (h ++ [q]) r = Store.load h r.
Proof.
  intros Hr. unfold Store.load. rewrite nth_error_app1 by exact Hr.
  reflexivity.
Qed.

Lemma load_alloc_new (h : Store.heap T) q :
  Store.load (h ++ [q]) (length h) = Return q.
Proof.
  unfold Store.load. rewrite nth_error_app2 by lia.
  rewrite Nat.sub_diag. reflexivity.
Qed.

End StoreLemmas.

Section ArrayUnit.
Context {T : Type} {N : Number T}.

Lemma scalar_mag_value (v : TVector3.t T) (m : T) :
  Methods.mag v = Return m -> m = sqrt (TVector3.dot v v).
Proof.
  unfold Methods.mag, Common.mag, Common.mag2, Methods.dot.
  cbn [bind q_sqrt scalar_quantity]. intros H; injection H as <-.
  reflexivity.
Qed.

(** [self / self.mag()], position by position. *)
Lemma unit_value_spec n (self : TVector3Array.t T) :
  TVector3Array.has_length n self ->
  exists q,
    ArrayMethods.unit_value self = Return q /\
    TVector3Array.has_length n q /\
    forall i, i < n ->
      let v := TVector3Array.item self i in
      let m := sqrt (TVector3.dot v v) in
      TVector3Array.item q i
      = TVector3.mk (div (TVector3.x v) m) (div (TVector3.y v) m)
                    (div (TVector3.z v) m).
Proof.
  intros Hs. destruct (array_mag2_spec Hs) as (m2 & E & Lm & P).
  destruct Hs as (Hx & Hy & Hz).
  unfold ArrayMethods.unit_value, ArrayMethods.mag, Common.mag.
  change (Common.mag2 ArrayMethods.dot self) with (ArrayMethods.mag2 self).
  rewrite E. cbn [bind q_sqrt array_quantity].
  unfold TVector3Array.__truediv__, np_divide, np_sqrt.
  rewrite !np_binop_ok by (rewrite length_map; congruence). cbn [bind].
  eexists; split; [reflexivity|]. split.
  - repeat split; cbn [TVector3Array.x TVector3Array.y TVector3Array.z];
      rewrite map2_length; rewrite ?length_map; congruence.
  - intros i Hi. unfold TVector3Array.item at 1.
    cbn [TVector3Array.x TVector3Array.y TVector3Array.z].
    rewrite !(nth_map2 div _ _ lit_0 lit_0)
      by (rewrite ?length_map; congruence || lia).
    rewrite !(nth_map_in _ _ lit_0) by lia.
    rewrite (P i Hi). reflexivity.
Qed.

(** What [unit] does to the store: in place, the object named [self] now
    holds the quotients and every other object is as it was; otherwise a
    new object holds them and every old object, [self] too, is as it was. *)
Lemma unit_frame n (h : Store.heap T) (self : Store.ref)
      (v : TVector3Array.t T) :
  Store.load h self = Return v -> TVector3Array.has_length n v ->
  exists q,
    ArrayMethods.unit_value v = Return q /\
    (exists h',
       ArrayMethods.unit self true h = Return (None, h') /\
       Store.load h' self = Return q /\
       forall r, r <> self -> Store.load h' r = Store.load h r) /\
    (exists r h',
       ArrayMethods.unit self false h = Return (Some r, h') /\
       r <> self /\
       Store.load h' r = Return q /\
       forall r0, r0 < length h -> Store.load h' r0 = Store.load h r0).
Proof.
  intros Hl Hs. destruct (unit_value_spec Hs) as (q & Eq & _ & _).
  exists q. split; [exact Eq|].
  pose proof (load_in_range _ _ Hl) as Hr.
  unfold ArrayMethods.unit. rewrite Hl. cbn [bind].
  split.
  - unfold ArrayMethods.unit_value in Eq.
    destruct (ArrayMethods.mag v) as [m|] eqn:Em; [|discriminate].
    cbn [bind] in *. unfold ArrayMethods.__itruediv__.
    rewrite Hl. cbn [bind]. rewrite Eq. cbn [bind].
    eexists; split; [reflexivity|]. split.
    + apply load_store_same. exact Hr.
    + intros r Hne. apply load_store_other. exact Hne.
  - rewrite Eq. cbn [bind Store.alloc].
    eexists; eexists; split; [reflexivity|]. split; [lia|]. split.
    + apply load_alloc_new.
    + intros r0 H0. apply load_alloc_old. exact H0.
Qed.

End ArrayUnit.

(** C9, counterexample.  The array vector holding only (3e-162, 0, 0) has
    a magnitude that is not zero; its squared magnitude is rounded in the
    subnormal range, and after [unit(inplace=True)] its [mag()] is about
    0.954, further from 1.0 than any tolerance in use.  The one holding
    only (1e200, 0, 0) has magnitude infinity and ends with [mag()] 0.0. *)
Lemma unit_inplace_misses_one :
  (ArrayMethods.mag (constant_array 1 Examples.small)
   = Return [0x1.6a09e667f3bcdp-537%float]
   /\ exists h' v',
       ArrayMethods.unit 0 true [constant_array 1 Examples.small]
       = Return (None, h')
       /\ Store.load h' 0 = Return v'
       /\ ArrayMethods.mag v' = Return [0x1.e8a25d1206ae8p-1%float]
       /\ (PrimFloat.abs (0x1.e8a25d1206ae8p-1 - 1) <? lit_1e_10)%float
          = false)
  /\ (ArrayMethods.mag (constant_array 1 Examples.huge) = Return [infinity]
      /\ exists h' v',
          ArrayMethods.unit 0 true [constant_array 1 Examples.huge]
          = Return (None, h')
          /\ Store.load h' 0 = Return v'
          /\ ArrayMethods.mag v' = Return [0%float]).
Proof.
  split.
  - split; [vm_compute; reflexivity|].
    exists [TVector3Array.mk [0x1.e8a25d1206ae8p-1%float] [0%float] [0%float]].
    exists (TVector3Array.mk [0x1.e8a25d1206ae8p-1%float] [0%float] [0%float]).
    repeat split; vm_compute; reflexivity.
  - split; [vm_compute; reflexivity|].
    exists [TVector3Array.mk [0%float] [0%float] [0%float]].
    exists (TVector3Array.mk [0%float] [0%float] [0%float]).
    repeat split; vm_compute; reflexivity.
Qed.




(** * Further properties

    What the methods left aside above do: [rho], the three direction
    predicates, the signed [angle], [delta_phi] as a function of the
    difference of the azimuths, and how the methods behave under exchange
    of their operands. *)

(** ** Binary64: commutativity, negation, sign *)

Section AlgebraBinary64.
Open Scope float_scope.

Lemma SFadd_comm (a b : spec_float) :
  SFadd prec emax a b = SFadd prec emax b a.
Proof.
  destruct a as [sa|sa| |sa ma ea], b as [sb|sb| |sb mb eb];
    try reflexivity; try (destruct sa, sb; reflexivity).
  unfold SFadd. rewrite (Z.min_comm ea eb), Z.add_comm. reflexivity.
Qed.

Lemma SFmul_comm (a b : spec_float) :
  SFmul prec emax a b = SFmul prec emax b a.
Proof.
  destruct a as [sa|sa| |sa ma ea], b as [sb|sb| |sb mb eb];
    try reflexivity; try (destruct sa, sb; reflexivity).
  unfold SFmul. rewrite (xorb_comm sa sb), (Pos.mul_comm ma mb),
    (Z.add_comm ea eb). reflexivity.
Qed.

Lemma add_comm64 (a b : float) : a + b = b + a.
Proof.
  rewrite <- (SF2Prim_Prim2SF (a + b)), <- (SF2Prim_Prim2SF (b + a)).
  rewrite !add_spec. unfold SF64add. rewrite SFadd_comm. reflexivity.
Qed.

Lemma mul_comm64 (a b : float) : a * b = b * a.
Proof.
  rewrite <- (SF2Prim_Prim2SF (a * b)), <- (SF2Prim_Prim2SF (b * a)).
  rewrite !mul_spec. unfold SF64mul. rewrite SFmul_comm. reflexivity.
Qed.

Lemma dot_comm64 (v w : TVector3.t float) :
  TVector3.dot v w = TVector3.dot w v.
Proof.
  unfold TVector3.dot. cbn [add mul Binary64.number].
  rewrite (mul_comm64 (TVector3.x v)), (mul_comm64 (TVector3.y v)),
    (mul_comm64 (TVector3.z v)). reflexivity.
Qed.

Lemma is_finite_spec (p : float) :
  PrimFloat.is_finite p = true <->
  (exists s, Prim2SF p = S754_zero s)
  \/ (exists s m e, Prim2SF p = S754_finite s m e).
Proof.
  unfold PrimFloat.is_finite, PrimFloat.is_infinity, PrimFloat.is_nan.
  rewrite !FloatAxioms.eqb_spec, abs_spec.
  change (Prim2SF infinity) with (S754_infinity false).
  destruct (Prim2SF p) as [s|s| |s m e]; simpl.
  - split; [intros _; left; eexists; reflexivity | reflexivity].
  - split; [destruct s; discriminate|].
    intros [[s' H]|(s' & m & e & H)]; discriminate.
  - split; [discriminate|].
    intros [[s' H]|(s' & m & e & H)]; discriminate.
  - unfold SFeqb. simpl. rewrite Z.compare_refl, Pos.compare_cont_refl.
    destruct s; simpl;
      (split; [intros _; right; do 3 eexists; reflexivity | reflexivity]).
Qed.

(** A number plus its negation: +0.0 when the number is finite, a NaN
    otherwise. *)
Lemma add_opp_finite (p : float) :
  PrimFloat.is_finite p = true -> p + - p = 0.
Proof.
  intros Hf. apply is_finite_spec in Hf.
  rewrite <- (SF2Prim_Prim2SF (p + - p)), add_spec, opp_spec.
  destruct Hf as [[s E]|(s & m & e & E)]; rewrite E.
  - destruct s; reflexivity.
  - unfold SF64add, SFadd, SFopp. rewrite Z.min_id.
    unfold shl_align. rewrite Z.sub_diag. cbn [fst].
    destruct s; cbn [negb cond_Zopp Z.opp];
      rewrite ?Z.add_opp_diag_r, ?Z.add_opp_diag_l; reflexivity.
Qed.

Lemma add_opp_not_finite (p : float) :
  PrimFloat.is_finite p = false -> F64.is_nan (p + - p) = true.
Proof.
  intros Hf. rewrite F64.is_nan_spec, add_spec, opp_spec.
  destruct (Prim2SF p) as [s|s| |s m e] eqn:E.
  - assert (PrimFloat.is_finite p = true)
      by (apply is_finite_spec; left; eexists; exact E). congruence.
  - destruct s; reflexivity.
  - reflexivity.
  - assert (PrimFloat.is_finite p = true)
      by (apply is_finite_spec; right; do 3 eexists; exact E). congruence.
Qed.

Lemma abs_nan (p : float) :
  F64.is_nan p = true -> F64.is_nan (abs p) = true.
Proof.
  rewrite !F64.is_nan_spec, abs_spec. intros ->. reflexivity.
Qed.

Lemma sub_nan_r (a p : float) :
  F64.is_nan p = true -> F64.is_nan (a - p) = true.
Proof.
  rewrite !F64.is_nan_spec, sub_spec. intros ->.
  unfold SF64sub. destruct (Prim2SF a); reflexivity.
Qed.

Lemma sub_nan_l (p a : float) :
  F64.is_nan p = true -> F64.is_nan (p - a) = true.
Proof.
  rewrite !F64.is_nan_spec, sub_spec. intros ->. reflexivity.
Qed.

Lemma sqrt_unsigned (a : float) :
  unsigned (Prim2SF a) -> unsigned (Prim2SF (PrimFloat.sqrt a)).
Proof.
  rewrite sqrt_spec. unfold SF64sqrt, SFsqrt.
  destruct (Prim2SF a) as [s|s| |s m e]; simpl; auto.
  - intros ->. reflexivity.
  - intros ->. destruct (SFsqrt_core_binary _ _ _ _) as [[mz ez] lz].
    apply F64.binary_round_aux_unsigned.
Qed.

(** Adding the square of a zero changes nothing in a number that is not
    negative. *)
Lemma add_zero_square (r z : float) :
  unsigned (Prim2SF r) -> (z =? 0) = true -> r + z * z = r.
Proof.
  intros Hr Hz.
  assert (Z0 : Prim2SF (z * z) = S754_zero false).
  { rewrite mul_spec. rewrite FloatAxioms.eqb_spec in Hz.
    change (Prim2SF 0) with (S754_zero false) in Hz. unfold SFeqb in Hz.
    destruct (Prim2SF z) as [s|s| |s m e]; simpl in Hz;
      try discriminate; try (destruct s; discriminate).
    destruct s; reflexivity. }
  rewrite <- (SF2Prim_Prim2SF (r + z * z)), add_spec, Z0.
  rewrite <- (SF2Prim_Prim2SF r) at 2.
  destruct (Prim2SF r) as [s|s| |s m e]; simpl in Hr; subst;
    reflexivity.
Qed.

End AlgebraBinary64.

(** ** [rho] *)

Section Rho.
Context {T : Type} {N : Number T}.

Lemma scalar_rho2_value (v : TVector3.t T) :
  Methods.rho2 v
  = Return (add (mul (TVector3.x v) (TVector3.x v))
                (mul (TVector3.y v) (TVector3.y v))).
Proof. reflexivity. Qed.

(** Array-mode [rho]: the square root of [x*x + y*y] at every position. *)
Lemma array_rho_spec n (self : TVector3Array.t T) :
  TVector3Array.has_length n self ->
  exists rs,
    ArrayMethods.rho self = Return rs /\ length rs = n /\
    forall i, i < n ->
      let v := TVector3Array.item self i in
      nth i rs lit_0
      = sqrt (add (mul (TVector3.x v) (TVector3.x v))
                  (mul (TVector3.y v) (TVector3.y v))).
Proof.
  intros (Hx & Hy & Hz).
  unfold ArrayMethods.rho, ArrayMethods.rho2, Common.rho2.
  cbn [q_mul q_add array_quantity]. unfold np_multiply, np_add.
  rewrite !np_binop_ok by congruence. cbn [bind].
  rewrite np_binop_ok by (lengths; lengths). cbn [bind].
  eexists; split; [reflexivity|]. split.
  - unfold np_sqrt. lengths; lengths.
  - intros i Hi. unfold np_sqrt, TVector3Array.item.
    cbn [TVector3.x TVector3.y].
    rewrite (nth_map_in _ _ lit_0) by (lengths; lengths).
    rewrite (nth_map2 add _ _ lit_0 lit_0) by (lengths; lengths).
    rewrite !(nth_map2 mul _ _ lit_0 lit_0) by lia.
    reflexivity.
Qed.

End Rho.

Section RhoBinary64.
Open Scope float_scope.

Lemma rho2_unsigned (v : TVector3.t float) :
  unsigned (Prim2SF (TVector3.x v * TVector3.x v
                     + TVector3.y v * TVector3.y v)).
Proof. apply F64.add_unsigned; apply F64.mul_self_unsigned. Qed.

Lemma scalar_rho_value (v : TVector3.t float) :
  let r := PrimFloat.sqrt (TVector3.x v * TVector3.x v
                           + TVector3.y v * TVector3.y v) in
  Methods.rho v = Return r /\ (r <? 0) = false.
Proof.
  intros r. split.
  - unfold Methods.rho. rewrite scalar_rho2_value. cbn [bind].
    unfold math_sqrt.
    change (@ltb float Binary64.number) with PrimFloat.ltb.
    change (@lit_0 float Binary64.number) with 0.
    cbn [add mul Binary64.number].
    rewrite (F64.unsigned_not_neg _ (rho2_unsigned v)). reflexivity.
  - apply F64.unsigned_not_neg, sqrt_unsigned, rho2_unsigned.
Qed.

(** Scalar-mode [rho] returns for every vector: [math.sqrt] is never
    handed a number below zero, so its domain error cannot occur, and the
    value is the square root of [x*x + y*y], never below zero itself. *)
Theorem scalar_rho_returns (v : TVector3.t float) :
  let r := PrimFloat.sqrt (TVector3.x v * TVector3.x v
                           + TVector3.y v * TVector3.y v) in
  Methods.rho v = Return r /\ (r <? 0) = false.
Proof. exact (scalar_rho_value v). Qed.

(** Array-mode [rho] holds, at every position, what scalar-mode [rho]
    returns on the vector there. *)
Theorem rho_modes_agree n (self : TVector3Array.t float) :
  TVector3Array.has_length n self ->
  exists rs,
    ArrayMethods.rho self = Return rs /\ length rs = n /\
    forall i, (i < n)%nat ->
      Methods.rho (TVector3Array.item self i) = Return (nth i rs 0).
Proof.
  intros Hs. destruct (array_rho_spec Hs) as (rs & E & Lr & P).
  exists rs. split; [exact E|]. split; [exact Lr|].
  intros i Hi.
  destruct (scalar_rho_value (TVector3Array.item self i)) as [R _].
  rewrite R. f_equal. symmetry. exact (P i Hi).
Qed.

Lemma rho_modes_agree_witness :
  exists rs,
    ArrayMethods.rho (constant_array 2 Examples.v340) = Return rs
    /\ length rs = 2%nat
    /\ forall i, (i < 2)%nat ->
         Methods.rho (TVector3Array.item (constant_array 2 Examples.v340) i)
         = Return (nth i rs 0).
Proof.
  apply (@rho_modes_agree 2 (constant_array 2 Examples.v340)).
  repeat split.
Defined.

(** For a vector in the transverse plane, [z == 0], [mag()] and [rho()]
    are the same number: the squared magnitude is [rho2] plus the square
    of a zero. *)
Theorem mag_is_rho_in_plane (v : TVector3.t float) :
  (TVector3.z v =? 0) = true -> Methods.mag v = Methods.rho v.
Proof.
  intros Hz. destruct (scalar_rho_value v) as [R _]. rewrite R.
  unfold Methods.mag, Common.mag, Common.mag2, Methods.dot.
  cbn [bind q_sqrt scalar_quantity]. unfold TVector3.dot.
  cbn [add mul sqrt Binary64.number].
  rewrite (add_zero_square _ (rho2_unsigned v) Hz). reflexivity.
Qed.

Lemma mag_is_rho_in_plane_witness :
  Methods.mag Examples.v340 = Methods.rho Examples.v340.
Proof.
  apply (@mag_is_rho_in_plane Examples.v340). reflexivity.
Defined.

End RhoBinary64.

(** ** Exchange of the operands *)

Section SymmetryBinary64.
Open Scope float_scope.

Lemma cosdelta_at_comm (m1 m2 d : float) :
  cosdelta_at m1 m2 d = cosdelta_at m2 m1 d.
Proof.
  unfold cosdelta_at. cbn [mul Binary64.number].
  rewrite (mul_comm64 m1 m2). reflexivity.
Qed.

(** [cosdelta] does not depend on the order of its operands, in either
    mode, down to the last bit and to the exception raised; nor does
    scalar-mode [angle]. *)
Theorem cosdelta_symmetric (tc : float_type) n (self other : TVector3Array.t float)
        (v w : TVector3.t float) :
  TVector3Array.has_length n self -> TVector3Array.has_length n other ->
  Methods.cosdelta tc v w = Methods.cosdelta tc w v
  /\ (forall (L : Libm float) (degrees : bool),
        Methods.angle tc v w degrees = Methods.angle tc w v degrees)
  /\ ArrayMethods.cosdelta self other = ArrayMethods.cosdelta other self.
Proof.
  intros Hs Ho.
  assert (C : Methods.cosdelta tc v w = Methods.cosdelta tc w v).
  { unfold Methods.cosdelta, Methods.mag2, Common.mag2, Methods.dot.
    cbn [bind]. rewrite (dot_comm64 v w).
    cbn [mul Binary64.number].
    rewrite (mul_comm64 (TVector3.dot v v) (TVector3.dot w w)).
    rewrite (orb_comm (eqb (TVector3.dot v v) lit_0)). reflexivity. }
  split; [exact C|]. split.
  - intros L degrees. unfold Methods.angle. rewrite C. reflexivity.
  - destruct (array_cosdelta_spec Hs Ho) as (a & Ea & La & Pa).
    destruct (array_cosdelta_spec Ho Hs) as (b & Eb & Lb & Pb).
    rewrite Ea, Eb. f_equal.
    apply (nth_ext a b lit_0 lit_0); [congruence|].
    intros i Hi. rewrite La in Hi.
    rewrite (Pa i Hi), (Pb i Hi). cbv zeta.
    rewrite cosdelta_at_comm.
    rewrite (dot_comm64 (TVector3Array.item self i)
                        (TVector3Array.item other i)). reflexivity.
Qed.

Lemma cosdelta_symmetric_witness :
  Methods.cosdelta python_float Examples.v340 Examples.v430
  = Methods.cosdelta python_float Examples.v430 Examples.v340
  /\ (forall (L : Libm float) (degrees : bool),
        Methods.angle python_float Examples.v340 Examples.v430 degrees
        = Methods.angle python_float Examples.v430 Examples.v340 degrees)
  /\ ArrayMethods.cosdelta (constant_array 2 Examples.v340)
                           (constant_array 2 Examples.v430)
     = ArrayMethods.cosdelta (constant_array 2 Examples.v430)
                             (constant_array 2 Examples.v340).
Proof.
  apply (@cosdelta_symmetric python_float 2); repeat split.
Defined.

End SymmetryBinary64.

(** ** [isopposite] *)

Section OppositeBinary64.
Open Scope float_scope.

(** [isopposite] does not depend on the order of its operands, in either
    mode: the sum of two numbers does not. *)
Theorem isopposite_symmetric n (self other : TVector3Array.t float)
        (v w : TVector3.t float) (tolerance : float) :
  TVector3Array.has_length n self -> TVector3Array.has_length n other ->
  Methods.isopposite v w tolerance = Methods.isopposite w v tolerance
  /\ ArrayMethods.isopposite self other tolerance
     = ArrayMethods.isopposite other self tolerance.
Proof.
  intros Hs Ho.
  assert (S : forall a b : TVector3.t float,
             Methods.isopposite a b tolerance
             = Methods.isopposite b a tolerance).
  { intros a b. rewrite !scalar_isopposite_spec. unfold TVector3._vector.
    cbn [add Binary64.number].
    rewrite (add_comm64 (TVector3.x a)), (add_comm64 (TVector3.y a)),
      (add_comm64 (TVector3.z a)). reflexivity. }
  split; [apply S|].
  destruct (array_isopposite_spec tolerance Hs Ho) as (a & Ea & La & Pa).
  destruct (array_isopposite_spec tolerance Ho Hs) as (b & Eb & Lb & Pb).
  rewrite Ea, Eb. f_equal.
  apply (nth_ext a b false false); [congruence|].
  intros i Hi. rewrite La in Hi.
  pose proof (Pa i Hi) as A. pose proof (Pb i Hi) as B.
  rewrite S, B in A. injection A as A. symmetry. exact A.
Qed.

Lemma isopposite_symmetric_witness :
  Methods.isopposite Examples.v340 Examples.v430 lit_1e_10
  = Methods.isopposite Examples.v430 Examples.v340 lit_1e_10
  /\ ArrayMethods.isopposite (constant_array 2 Examples.v340)
                             (constant_array 2 Examples.v430) lit_1e_10
     = ArrayMethods.isopposite (constant_array 2 Examples.v430)
                               (constant_array 2 Examples.v340) lit_1e_10.
Proof.
  apply (@isopposite_symmetric 2); repeat split.
Defined.

Lemma below_sum_with_negation (p tolerance : float) :
  (abs (p + - p) <? tolerance)
  = PrimFloat.is_finite p && (0 <? tolerance).
Proof.
  destruct (PrimFloat.is_finite p) eqn:Hf; cbn [andb].
  - rewrite (add_opp_finite _ Hf). reflexivity.
  - apply F64.ltb_nan_l, abs_nan, add_opp_not_finite. exact Hf.
Qed.

(** A vector against its own negation: opposite exactly when its three
    components are finite and the tolerance is above zero.  An infinite
    component gives [inf + -inf], a NaN, which is below no tolerance. *)
Theorem isopposite_negation (v : TVector3.t float) (tolerance : float) :
  Methods.isopposite
    v (TVector3.mk (- TVector3.x v) (- TVector3.y v) (- TVector3.z v))
    tolerance
  = Return (PrimFloat.is_finite (TVector3.x v)
            && PrimFloat.is_finite (TVector3.y v)
            && PrimFloat.is_finite (TVector3.z v)
            && (0 <? tolerance)).
Proof.
  rewrite scalar_isopposite_spec. unfold below_at, TVector3._vector.
  cbn [TVector3.x TVector3.y TVector3.z].
  change (@ltb float Binary64.number) with PrimFloat.ltb.
  change (@absolute float Binary64.number) with PrimFloat.abs.
  change (@add float Binary64.number) with PrimFloat.add.
  rewrite !below_sum_with_negation. f_equal.
  destruct (PrimFloat.is_finite (TVector3.x v)),
    (PrimFloat.is_finite (TVector3.y v)),
    (PrimFloat.is_finite (TVector3.z v)), (0 <? tolerance); reflexivity.
Qed.

End OppositeBinary64.

(** ** The direction predicates *)

Section Predicates.
Context {T : Type} {N : Number T}.

Lemma scalar_predicates_spec (tc : float_type) (v w : TVector3.t T) (c tolerance : T) :
  Methods.cosdelta tc v w = Return c ->
  Methods.isparallel tc v w tolerance = Return (parallel_at tolerance c)
  /\ Methods.isantiparallel tc v w tolerance
     = Return (antiparallel_at tolerance c)
  /\ Methods.iscollinear tc v w tolerance = Return (collinear_at tolerance c).
Proof.
  intros E.
  unfold Methods.isparallel, Methods.isantiparallel, Methods.iscollinear,
    Common.isparallel, Common.isantiparallel, Common.iscollinear.
  rewrite E. repeat split.
Qed.

Lemma array_predicates_spec (self other : TVector3Array.t T) (cs : list T)
      (tolerance : T) :
  ArrayMethods.cosdelta self other = Return cs ->
  ArrayMethods.isparallel self other tolerance
  = Return (map (parallel_at tolerance) cs)
  /\ ArrayMethods.isantiparallel self other tolerance
     = Return (map (antiparallel_at tolerance) cs)
  /\ ArrayMethods.iscollinear self other tolerance
     = Return (map (collinear_at tolerance) cs).
Proof.
  intros E.
  unfold ArrayMethods.isparallel, ArrayMethods.isantiparallel,
    ArrayMethods.iscollinear,
    Common.isparallel, Common.isantiparallel, Common.iscollinear.
  rewrite E.
  cbn [bind q_lt_s s_sub_q q_sub_s q_absolute array_quantity].
  unfold np_less_s, np_absolute. rewrite !map_map. repeat split.
Qed.

End Predicates.

Section PredicatesBinary64.
Open Scope float_scope.

Lemma cosdelta_at_zero (m1 m2 d : float) :
  (m1 =? 0) || (m2 =? 0) = true -> cosdelta_at m1 m2 d = 1.
Proof.
  intros H. unfold cosdelta_at.
  change (@ltb float Binary64.number) with PrimFloat.ltb.
  change (@mul float Binary64.number) with PrimFloat.mul.
  change (@lit_0 float Binary64.number) with 0.
  assert (E : (0 <? m1 * m2) = false).
  { apply orb_true_iff in H. destruct H as [H|H].
    - apply (F64.mul_zero_not_pos m2 H).
    - apply (F64.mul_zero_not_pos m1 H). }
  rewrite E. reflexivity.
Qed.

(** Where a squared magnitude is zero the cosine is 1.0, so the pair is
    parallel and collinear for every tolerance above zero and
    anti-parallel only for a tolerance above 2: in scalar mode, and at
    that position in array mode. *)
Theorem zero_magnitude_predicates (tc : float_type) n (self other : TVector3Array.t float)
        (i : nat) (tolerance : float) :
  TVector3Array.has_length n self -> TVector3Array.has_length n other ->
  (i < n)%nat ->
  let v := TVector3Array.item self i in
  let w := TVector3Array.item other i in
  (TVector3.dot v v =? 0) || (TVector3.dot w w =? 0) = true ->
  (Methods.isparallel tc v w tolerance = Return (0 <? tolerance)
   /\ Methods.isantiparallel tc v w tolerance = Return (2 <? tolerance)
   /\ Methods.iscollinear tc v w tolerance = Return (0 <? tolerance))
  /\ exists ps qs rs,
       ArrayMethods.isparallel self other tolerance = Return ps
       /\ ArrayMethods.isantiparallel self other tolerance = Return qs
       /\ ArrayMethods.iscollinear self other tolerance = Return rs
       /\ nth i ps false = (0 <? tolerance)
       /\ nth i qs false = (2 <? tolerance)
       /\ nth i rs false = (0 <? tolerance).
Proof.
  intros Hs Ho Hi v w Hz. split.
  - assert (C : Methods.cosdelta tc v w = Return 1).
    { unfold Methods.cosdelta, Methods.mag2, Common.mag2, Methods.dot.
      cbn [bind].
      change (@eqb float Binary64.number) with PrimFloat.eqb.
      change (@lit_0 float Binary64.number) with 0.
      rewrite Hz. reflexivity. }
    exact (scalar_predicates_spec tc v w tolerance C).
  - destruct (array_cosdelta_spec Hs Ho) as (cs & E & Lc & P).
    destruct (array_predicates_spec self other tolerance E) as (E1 & E2 & E3).
    do 3 eexists.
    split; [exact E1|]. split; [exact E2|]. split; [exact E3|].
    assert (C : nth i cs 0 = 1).
    { change 0 with (@lit_0 float Binary64.number).
      rewrite (P i Hi). cbv zeta. apply cosdelta_at_zero. exact Hz. }
    rewrite !(nth_map_in _ _ 0) by lia. rewrite C. repeat split.
Qed.

Lemma zero_magnitude_predicates_witness :
  (Methods.isparallel python_float Examples.zero_vector Examples.v340 lit_1e_10
   = Return true
   /\ Methods.isantiparallel python_float Examples.zero_vector Examples.v340 lit_1e_10
      = Return false
   /\ Methods.iscollinear python_float Examples.zero_vector Examples.v340 lit_1e_10
      = Return true)
  /\ exists ps qs rs,
       ArrayMethods.isparallel (constant_array 1 Examples.zero_vector)
                               (constant_array 1 Examples.v340) lit_1e_10
       = Return ps
       /\ ArrayMethods.isantiparallel (constant_array 1 Examples.zero_vector)
                                      (constant_array 1 Examples.v340)
                                      lit_1e_10
          = Return qs
       /\ ArrayMethods.iscollinear (constant_array 1 Examples.zero_vector)
                                   (constant_array 1 Examples.v340) lit_1e_10
          = Return rs
       /\ nth 0 ps false = true /\ nth 0 qs false = false
       /\ nth 0 rs false = true.
Proof.
  exact (@zero_magnitude_predicates
           python_float 1 (constant_array 1 Examples.zero_vector)
           (constant_array 1 Examples.v340) 0 lit_1e_10
           (conj eq_refl (conj eq_refl eq_refl))
           (conj eq_refl (conj eq_refl eq_refl))
           (le_n 1) eq_refl).
Defined.

(** Where array-mode [cosdelta] holds a NaN, the pair is reported as
    neither parallel, nor anti-parallel, nor collinear, whatever the
    tolerance: every comparison with a NaN is false. *)
Theorem nan_cosine_fails_predicates (self other : TVector3Array.t float)
        (cs : list float) (i : nat) (tolerance : float) :
  ArrayMethods.cosdelta self other = Return cs ->
  (i < length cs)%nat ->
  F64.is_nan (nth i cs 0) = true ->
  exists ps qs rs,
    ArrayMethods.isparallel self other tolerance = Return ps
    /\ ArrayMethods.isantiparallel self other tolerance = Return qs
    /\ ArrayMethods.iscollinear self other tolerance = Return rs
    /\ nth i ps true = false /\ nth i qs true = false
    /\ nth i rs true = false.
Proof.
  intros E Hi Hn.
  destruct (array_predicates_spec self other tolerance E) as (E1 & E2 & E3).
  do 3 eexists.
  split; [exact E1|]. split; [exact E2|]. split; [exact E3|].
  rewrite !(nth_map_in _ _ 0) by lia.
  unfold parallel_at, antiparallel_at, collinear_at.
  change (@ltb float Binary64.number) with PrimFloat.ltb.
  change (@sub float Binary64.number) with PrimFloat.sub.
  change (@absolute float Binary64.number) with PrimFloat.abs.
  repeat split; apply F64.ltb_nan_l.
  - apply sub_nan_r. exact Hn.
  - apply sub_nan_l. exact Hn.
  - apply sub_nan_r, abs_nan. exact Hn.
Qed.

Lemma nan_cosine_fails_predicates_witness :
  exists ps qs rs,
    ArrayMethods.isparallel (constant_array 1 Examples.huge)
                            (constant_array 1 Examples.huge) lit_1e_10
    = Return ps
    /\ ArrayMethods.isantiparallel (constant_array 1 Examples.huge)
                                   (constant_array 1 Examples.huge) lit_1e_10
       = Return qs
    /\ ArrayMethods.iscollinear (constant_array 1 Examples.huge)
                                (constant_array 1 Examples.huge) lit_1e_10
       = Return rs
    /\ nth 0 ps true = false /\ nth 0 qs true = false
    /\ nth 0 rs true = false.
Proof.
  apply (@nan_cosine_fails_predicates
           (constant_array 1 Examples.huge) (constant_array 1 Examples.huge)
           [nan] 0 lit_1e_10);
    [vm_compute; reflexivity | simpl; lia | reflexivity].
Defined.

End PredicatesBinary64.

(** ** [delta_phi] in the two modes *)

Section DeltaPhiModes.
Context {T : Type} {N : Number T}.

(** Python's [%] and numpy's agree when the divisor is not zero. *)
Lemma py_mod_np_mod1 (v w : T) :
  eqb w lit_0 = false -> py_mod v w = Return (np_mod1 v w).
Proof.
  intros H. unfold py_mod, np_mod1. rewrite H.
  destruct (negb (eqb (fmod v w) lit_0)); [|reflexivity].
  destruct (xorb (ltb w lit_0) (ltb (fmod v w) lit_0)); reflexivity.
Qed.

Lemma delta_phi_agreement {L : Libm T} n (self other : TVector3Array.t T) :
  eqb (mul lit_2 pi) lit_0 = false ->
  TVector3Array.has_length n self -> TVector3Array.has_length n other ->
  exists ds,
    ArrayMethods.delta_phi self other = Return ds /\ length ds = n /\
    forall i, i < n ->
      Methods.delta_phi (TVector3Array.item self i)
                        (TVector3Array.item other i)
      = Return (nth i ds lit_0).
Proof.
  intros Hnz Hs Ho.
  destruct (array_phi_spec Hs) as (p1 & E1 & L1 & P1).
  destruct (array_phi_spec Ho) as (p2 & E2 & L2 & P2).
  unfold ArrayMethods.delta_phi, Common.delta_phi. rewrite E1, E2.
  cbn [bind q_sub q_add_s q_sub_s q_mod_s array_quantity].
  unfold np_subtract. rewrite np_binop_ok by congruence. cbn [bind].
  eexists; split; [reflexivity|]. split; [lengths; lengths|].
  intros i Hi. unfold Methods.delta_phi, Common.delta_phi.
  rewrite (P1 i Hi), (P2 i Hi).
  cbn [bind q_sub q_add_s q_sub_s q_mod_s scalar_quantity].
  rewrite py_mod_np_mod1 by exact Hnz. cbn [bind]. f_equal.
  rewrite !(nth_map_in _ _ lit_0) by (lengths; lengths).
  rewrite (nth_map2 sub _ _ lit_0 lit_0) by lia.
  reflexivity.
Qed.

End DeltaPhiModes.

(** Array-mode [delta_phi] holds, at every position, what scalar-mode
    [delta_phi] returns on the two vectors there, whatever the C library
    computes for [atan2]: Python's [%] and numpy's differ only for a zero
    divisor, and [2*math.pi] is not zero. *)
Theorem delta_phi_modes_agree n (self other : TVector3Array.t float) :
  TVector3Array.has_length n self -> TVector3Array.has_length n other ->
  forall L : Libm float,
  exists ds,
    ArrayMethods.delta_phi self other = Return ds /\ length ds = n /\
    forall i, i < n ->
      Methods.delta_phi (TVector3Array.item self i)
                        (TVector3Array.item other i)
      = Return (nth i ds 0%float).
Proof.
  intros Hs Ho L.
  exact (@delta_phi_agreement float Binary64.number L n self other
                              eq_refl Hs Ho).
Qed.

Lemma delta_phi_modes_agree_witness :
  (TVector3Array.has_length 2 (constant_array 2 Examples.v340)
   /\ TVector3Array.has_length 2 (constant_array 2 Examples.v430))
  /\ forall L : Libm float,
     exists ds,
       ArrayMethods.delta_phi (constant_array 2 Examples.v340)
                              (constant_array 2 Examples.v430)
       = Return ds /\ length ds = 2 /\
       forall i, i < 2 ->
         Methods.delta_phi
           (TVector3Array.item (constant_array 2 Examples.v340) i)
           (TVector3Array.item (constant_array 2 Examples.v430) i)
         = Return (nth i ds 0%float).
Proof.
  split; [repeat split|].
  apply (@delta_phi_modes_agree 2); repeat split.
Defined.



(** ** Array-mode [angle] with a normal *)

Section SignedAngle.
Context {T : Type} {N : Number T}.

Lemma array_cross_spec n (a b : TVector3Array.t T) :
  TVector3Array.has_length n a -> TVector3Array.has_length n b ->
  exists c,
    TVector3Array.cross a b = Return c /\ TVector3Array.has_length n c /\
    forall i, i < n ->
      TVector3Array.item c i
      = cross_at (TVector3Array.item a i) (TVector3Array.item b i).
Proof.
  intros (Hx & Hy & Hz) (Hx' & Hy' & Hz').
  unfold TVector3Array.cross, np_multiply, np_subtract.
  rewrite !(np_binop_ok mul) by congruence. cbn [bind].
  rewrite !(np_binop_ok sub) by (lengths; lengths). cbn [bind].
  eexists; split; [reflexivity|]. split.
  - repeat split; cbn [TVector3Array.x TVector3Array.y TVector3Array.z];
      lengths; lengths.
  - intros i Hi. unfold TVector3Array.item at 1, cross_at.
    cbn [TVector3Array.x TVector3Array.y TVector3Array.z].
    rewrite !(nth_map2 sub _ _ lit_0 lit_0) by (lengths; lengths).
    rewrite !(nth_map2 mul _ _ lit_0 lit_0) by lia.
    reflexivity.
Qed.

(** Array-mode [angle] with a normal, position by position. *)
Lemma array_signed_angle_spec {L : Libm T} n
      (self other normal : TVector3Array.t T) (degrees : bool) :
  TVector3Array.has_length n self -> TVector3Array.has_length n other ->
  TVector3Array.has_length n normal ->
  exists out,
    ArrayMethods.angle self other (Some normal) degrees = Return out /\
    length out = n /\
    forall i, i < n ->
      nth i out lit_0
      = signed_angle_at (TVector3Array.item self i)
                        (TVector3Array.item other i)
                        (TVector3Array.item normal i) degrees.
Proof.
  intros Hs Ho Hn.
  destruct (array_cosdelta_spec Hs Ho) as (cs & Ec & Lc & Pc).
  destruct (unit_value_spec Hs) as (a & Ea & La & Pa).
  destruct (unit_value_spec Ho) as (b & Eb & Lb & Pb).
  destruct (array_cross_spec La Lb) as (ab & Eab & Lab & Pab).
  destruct (array_dot_spec Hn Lab) as (d & Ed & Ld & Pd).
  unfold ArrayMethods.angle. rewrite Ec. cbn [bind].
  rewrite Ea. cbn [bind]. rewrite Eb. cbn [bind]. rewrite Eab. cbn [bind].
  unfold ArrayMethods.dot. rewrite Ed. cbn [bind].
  unfold np_multiply, np_arccos, np_sign, np_multiply_s.
  rewrite np_binop_ok by (lengths; lengths). cbn [bind].
  assert (V : forall i, i < n ->
            nth i (map2 mul (map acos cs) (map sign1 d)) lit_0
            = signed_angle_at (TVector3Array.item self i)
                              (TVector3Array.item other i)
                              (TVector3Array.item normal i) false).
  { intros i Hi. unfold signed_angle_at.
    rewrite (nth_map2 mul _ _ lit_0 lit_0) by (lengths; lengths).
    rewrite !(nth_map_in _ _ lit_0) by lia.
    rewrite (Pc i Hi), (Pd i Hi), (Pab i Hi), (Pa i Hi), (Pb i Hi).
    reflexivity. }
  destruct degrees; (eexists; split; [reflexivity|]; split;
                     [lengths; lengths|]); intros i Hi.
  - rewrite (nth_map_in _ _ lit_0) by (lengths; lengths).
    rewrite (V i Hi). reflexivity.
  - exact (V i Hi).
Qed.

End SignedAngle.

Section SignedAngleBinary64.
Open Scope float_scope.

Lemma eqb_zero_spec (a : float) :
  (a =? 0) = true <-> exists s, Prim2SF a = S754_zero s.
Proof.
  rewrite FloatAxioms.eqb_spec. change (Prim2SF 0) with (S754_zero false).
  unfold SFeqb. destruct (Prim2SF a) as [s|s| |s m e]; simpl.
  - split; [intros _; eexists; reflexivity | reflexivity].
  - split; [destruct s; discriminate | intros [s' H]; discriminate].
  - split; [discriminate | intros [s' H]; discriminate].
  - split; [destruct s; discriminate | intros [s' H]; discriminate].
Qed.

Lemma mul_nan_l (p a : float) :
  F64.is_nan p = true -> F64.is_nan (p * a) = true.
Proof.
  rewrite !F64.is_nan_spec, mul_spec. intros ->. reflexivity.
Qed.

Lemma mul_nan_r (a p : float) :
  F64.is_nan p = true -> F64.is_nan (a * p) = true.
Proof.
  rewrite !F64.is_nan_spec, mul_spec. intros ->.
  unfold SF64mul. destruct (Prim2SF a); reflexivity.
Qed.

Lemma add_nan_l (p a : float) :
  F64.is_nan p = true -> F64.is_nan (p + a) = true.
Proof.
  rewrite !F64.is_nan_spec, add_spec. intros ->. reflexivity.
Qed.

Lemma add_nan_r (a p : float) :
  F64.is_nan p = true -> F64.is_nan (a + p) = true.
Proof.
  rewrite !F64.is_nan_spec, add_spec. intros ->.
  unfold SF64add. destruct (Prim2SF a); reflexivity.
Qed.

Lemma sign1_nan (p : float) :
  F64.is_nan p = true -> F64.is_nan (sign1 p) = true.
Proof.
  intros H. unfold sign1.
  change (@ltb float Binary64.number) with PrimFloat.ltb.
  change (@eqb float Binary64.number) with PrimFloat.eqb.
  change (@lit_0 float Binary64.number) with 0.
  rewrite (@F64.ltb_nan_r 0 p H), (@F64.ltb_nan_l p 0 H).
  assert (E : (p =? 0) = false).
  { rewrite FloatAxioms.eqb_spec. apply F64.is_nan_spec in H. rewrite H.
    reflexivity. }
  rewrite E. exact H.
Qed.

(** A vector of three zeros has magnitude +0.0, and dividing it by its
    magnitude gives 0/0 three times. *)
Lemma quotient_of_zeros (v : TVector3.t float) :
  (TVector3.x v =? 0) && (TVector3.y v =? 0) && (TVector3.z v =? 0) = true ->
  (TVector3.dot v v =? 0) = true /\ nan_vector (quotient_at v).
Proof.
  intros H. apply andb_true_iff in H. destruct H as [H Hz].
  apply andb_true_iff in H. destruct H as [Hx Hy].
  apply eqb_zero_spec in Hx, Hy, Hz.
  destruct Hx as [sx Hx], Hy as [sy Hy], Hz as [sz Hz].
  assert (D : Prim2SF (TVector3.dot v v) = S754_zero false).
  { unfold TVector3.dot. cbn [add mul Binary64.number].
    rewrite !add_spec, !mul_spec, Hx, Hy, Hz.
    destruct sx, sy, sz; reflexivity. }
  split; [apply eqb_zero_spec; eexists; exact D|].
  unfold nan_vector, quotient_at.
  cbn [TVector3.x TVector3.y TVector3.z div sqrt Binary64.number].
  rewrite !F64.is_nan_spec, !div_spec, sqrt_spec, D, Hx, Hy, Hz.
  repeat split.
Qed.

Lemma cross_nan (a b : TVector3.t float) :
  nan_vector a \/ nan_vector b -> nan_vector (cross_at a b).
Proof.
  unfold nan_vector, cross_at.
  cbn [TVector3.x TVector3.y TVector3.z sub mul Binary64.number].
  intros [(Hx & Hy & Hz)|(Hx & Hy & Hz)]; repeat split;
    apply sub_nan_l;
    solve [apply mul_nan_l; assumption | apply mul_nan_r; assumption].
Qed.

Lemma dot_nan (nv a : TVector3.t float) :
  nan_vector a -> F64.is_nan (TVector3.dot nv a) = true.
Proof.
  intros (Hx & Hy & Hz). unfold TVector3.dot. cbn [add mul Binary64.number].
  apply add_nan_r, mul_nan_r. exact Hz.
Qed.

(** At a position where [self] or [other] is a vector of three zeros,
    array-mode [angle] with a normal holds a NaN, whatever the normal and
    the C library: [unit] divides 0 by 0 there and the NaN reaches the sign.
    Without a normal the same position holds the arccosine of 1.0. *)
Theorem signed_angle_nan_at_zero_vector
        n (self other normal : TVector3Array.t float) (degrees : bool)
        (i : nat) :
  TVector3Array.has_length n self -> TVector3Array.has_length n other ->
  TVector3Array.has_length n normal -> (i < n)%nat ->
  let v := TVector3Array.item self i in
  let w := TVector3Array.item other i in
  (TVector3.x v =? 0) && (TVector3.y v =? 0) && (TVector3.z v =? 0) = true
  \/ (TVector3.x w =? 0) && (TVector3.y w =? 0) && (TVector3.z w =? 0)
     = true ->
  forall L : Libm float,
  exists signed unsigned,
    ArrayMethods.angle self other (Some normal) degrees = Return signed
    /\ ArrayMethods.angle self other None degrees = Return unsigned
    /\ F64.is_nan (nth i signed 0) = true
    /\ nth i unsigned 0
       = if degrees then acos 1 * (180 / pi) else acos 1.
Proof.
  intros Hs Ho Hn Hi v w Hz L.
  destruct (array_signed_angle_spec degrees Hs Ho Hn) as (out & E & Lo & P).
  destruct (array_cosdelta_spec Hs Ho) as (cs & Ec & Lc & Pc).
  destruct (@array_angle_spec _ _ L n self other cs degrees Ec Lc)
    as (out' & E' & Lo' & P').
  exists out, out'. split; [exact E|]. split; [exact E'|].
  assert (Z : (TVector3.dot v v =? 0) || (TVector3.dot w w =? 0) = true
              /\ (nan_vector (quotient_at v) \/ nan_vector (quotient_at w))).
  { destruct Hz as [Hz|Hz]; destruct (quotient_of_zeros _ Hz) as [D Q].
    - rewrite D. split; [reflexivity | left; exact Q].
    - rewrite D, orb_true_r. split; [reflexivity | right; exact Q]. }
  destruct Z as [Z Q]. split.
  - change 0 with (@lit_0 float Binary64.number). rewrite (P i Hi).
    fold v w. unfold signed_angle_at.
    cbn [mul div Binary64.number].
    assert (S : F64.is_nan
                  (sign1 (TVector3.dot (TVector3Array.item normal i)
                            (cross_at (quotient_at v) (quotient_at w))))
                = true).
    { apply sign1_nan, dot_nan, cross_nan. exact Q. }
    destruct degrees.
    + apply mul_nan_l, mul_nan_r. exact S.
    + apply mul_nan_r. exact S.
  - change 0 with (@lit_0 float Binary64.number). rewrite (P' i Hi).
    rewrite (Pc i Hi). fold v w.
    rewrite (cosdelta_at_zero _ _ _ Z). reflexivity.
Qed.

Lemma signed_angle_nan_at_zero_vector_witness :
  (TVector3Array.has_length 1 (constant_array 1 Examples.zero_vector)
   /\ TVector3Array.has_length 1 (constant_array 1 Examples.v340)
   /\ TVector3Array.has_length 1 (constant_array 1 Examples.v430))
  /\ forall L : Libm float,
     exists signed unsigned,
       ArrayMethods.angle (constant_array 1 Examples.zero_vector)
                          (constant_array 1 Examples.v340)
                          (Some (constant_array 1 Examples.v430)) false
       = Return signed
       /\ ArrayMethods.angle (constant_array 1 Examples.zero_vector)
                             (constant_array 1 Examples.v340) None false
          = Return unsigned
       /\ F64.is_nan (nth 0 signed 0) = true
       /\ nth 0 unsigned 0 = acos 1.
Proof.
  split; [repeat split|].
  exact (@signed_angle_nan_at_zero_vector
           1 (constant_array 1 Examples.zero_vector)
           (constant_array 1 Examples.v340)
           (constant_array 1 Examples.v430) false 0
           (conj eq_refl (conj eq_refl eq_refl))
           (conj eq_refl (conj eq_refl eq_refl))
           (conj eq_refl (conj eq_refl eq_refl))
           (le_n 1) (or_introl eq_refl)).
Defined.

End SignedAngleBinary64.



(** ** Array mode returns *)

Section ArrayTotal.
Context {T : Type} {N : Number T} {L : Libm T}.

Lemma array_delta_phi_returns n (self other : TVector3Array.t T) :
  TVector3Array.has_length n self -> TVector3Array.has_length n other ->
  exists ds, ArrayMethods.delta_phi self other = Return ds /\ length ds = n.
Proof.
  intros Hs Ho.
  destruct (array_phi_spec Hs) as (p1 & E1 & L1 & _).
  destruct (array_phi_spec Ho) as (p2 & E2 & L2 & _).
  unfold ArrayMethods.delta_phi, Common.delta_phi. rewrite E1, E2.
  cbn [bind q_sub q_add_s q_sub_s q_mod_s array_quantity].
  unfold np_subtract. rewrite np_binop_ok by congruence. cbn [bind].
  eexists; split; [reflexivity|]. lengths; lengths.
Qed.

(** Every array-mode method but [isperpendicular] returns, on operands
    of one length [n], an array of length [n]: none raises, whatever the
    components, in any arithmetic; [isperpendicular] raises on every
    input. *)
Theorem array_mode_returns n (self other normal : TVector3Array.t T)
        (tolerance : T) (degrees : bool) :
  TVector3Array.has_length n self -> TVector3Array.has_length n other ->
  TVector3Array.has_length n normal ->
  returns_array n (ArrayMethods.mag self)
  /\ returns_array n (ArrayMethods.rho self)
  /\ returns_array n (ArrayMethods.phi self)
  /\ returns_array n (ArrayMethods.cosdelta self other)
  /\ returns_array n (ArrayMethods.angle self other None degrees)
  /\ returns_array n (ArrayMethods.angle self other (Some normal) degrees)
  /\ returns_array n (ArrayMethods.delta_phi self other)
  /\ returns_array n (ArrayMethods.isopposite self other tolerance)
  /\ returns_array n (ArrayMethods.isparallel self other tolerance)
  /\ returns_array n (ArrayMethods.isantiparallel self other tolerance)
  /\ returns_array n (ArrayMethods.iscollinear self other tolerance)
  /\ (exists u, ArrayMethods.unit_value self = Return u
                /\ TVector3Array.has_length n u)
  /\ (exists e, ArrayMethods.isperpendicular self other tolerance = Raise e).
Proof.
  intros Hs Ho Hn. unfold returns_array.
  destruct (array_mag_spec Hs) as (ms & Em & Lm & _).
  destruct (array_rho_spec Hs) as (rs & Er & Lr & _).
  destruct (array_phi_spec Hs) as (ps & Ep & Lp & _).
  destruct (array_cosdelta_spec Hs Ho) as (cs & Ec & Lc & _).
  destruct (@array_angle_spec _ _ L n self other cs degrees Ec Lc)
    as (a & Ea & La & _).
  destruct (array_signed_angle_spec degrees Hs Ho Hn) as (sa & Esa & Lsa & _).
  destruct (array_delta_phi_returns Hs Ho) as (ds & Ed & Ld).
  destruct (array_isopposite_spec tolerance Hs Ho) as (os & Eo & Lo & _).
  destruct (array_predicates_spec self other tolerance Ec) as (E1 & E2 & E3).
  destruct (unit_value_spec Hs) as (u & Eu & Lu & _).
  split; [exists ms; split; assumption|].
  split; [exists rs; split; assumption|].
  split; [exists ps; split; assumption|].
  split; [exists cs; split; assumption|].
  split; [exists a; split; assumption|].
  split; [exists sa; split; assumption|].
  split; [exists ds; split; assumption|].
  split; [exists os; split; assumption|].
  split; [eexists; split; [exact E1 | lengths]|].
  split; [eexists; split; [exact E2 | lengths]|].
  split; [eexists; split; [exact E3 | lengths]|].
  split; [exists u; split; assumption|].
  eexists. apply (array_isperpendicular_raises tolerance Hs Ho).
Qed.

End ArrayTotal.

Lemma array_mode_returns_witness :
  let a := constant_array 2 Examples.v340 in
  let b := constant_array 2 Examples.v430 in
  let c := constant_array 2 Examples.zero_vector in
  (TVector3Array.has_length 2 a /\ TVector3Array.has_length 2 b
   /\ TVector3Array.has_length 2 c)
  /\ forall L : Libm float,
     returns_array 2 (ArrayMethods.mag a)
     /\ returns_array 2 (ArrayMethods.rho a)
     /\ returns_array 2 (ArrayMethods.phi a)
     /\ returns_array 2 (ArrayMethods.cosdelta a b)
     /\ returns_array 2 (ArrayMethods.angle a b None false)
     /\ returns_array 2 (ArrayMethods.angle a b (Some c) false)
     /\ returns_array 2 (ArrayMethods.delta_phi a b)
     /\ returns_array 2 (ArrayMethods.isopposite a b lit_1e_10)
     /\ returns_array 2 (ArrayMethods.isparallel a b lit_1e_10)
     /\ returns_array 2 (ArrayMethods.isantiparallel a b lit_1e_10)
     /\ returns_array 2 (ArrayMethods.iscollinear a b lit_1e_10)
     /\ (exists u, ArrayMethods.unit_value a = Return u
                   /\ TVector3Array.has_length 2 u)
     /\ (exists e, ArrayMethods.isperpendicular a b lit_1e_10 = Raise e).
Proof.
  intros a b c. split; [repeat split|]. intros L.
  apply (@array_mode_returns float Binary64.number L 2 a b c
                             lit_1e_10 false); repeat split.
Defined.

(** ** A NaN among the components *)

Section NanMagnitude.
Open Scope float_scope.

Lemma eqb_nan_l (p a : float) : F64.is_nan p = true -> (p =? a) = false.
Proof.
  rewrite F64.is_nan_spec, FloatAxioms.eqb_spec. intros ->. reflexivity.
Qed.

Lemma nan_product (m1 m2 : float) :
  F64.is_nan m1 = true \/ F64.is_nan m2 = true ->
  F64.is_nan (m1 * m2) = true.
Proof.
  intros [H|H]; [apply mul_nan_l | apply mul_nan_r]; exact H.
Qed.

(** Where the squared magnitude of either vector is a NaN (a component
    is), [cosdelta] is 1.0 in both modes: in scalar mode the NaN quotient
    fails [r < 1.0] and [min] keeps 1.0; in array mode a NaN denominator is
    not above zero and the position is set to 1.  So [isparallel] holds
    there for every tolerance above zero. *)
Theorem nan_magnitude_cosdelta (tc : float_type) n (self other : TVector3Array.t float)
        (i : nat) (tolerance : float) :
  TVector3Array.has_length n self -> TVector3Array.has_length n other ->
  (i < n)%nat ->
  let v := TVector3Array.item self i in
  let w := TVector3Array.item other i in
  F64.is_nan (TVector3.dot v v) = true
  \/ F64.is_nan (TVector3.dot w w) = true ->
  Methods.cosdelta tc v w = Return 1
  /\ Methods.isparallel tc v w tolerance = Return (0 <? tolerance)
  /\ exists cs ps,
       ArrayMethods.cosdelta self other = Return cs
       /\ ArrayMethods.isparallel self other tolerance = Return ps
       /\ nth i cs 0 = 1 /\ nth i ps false = (0 <? tolerance).
Proof.
  intros Hs Ho Hi v w Hn.
  pose proof (nan_product _ _ Hn) as Hp.
  assert (C : Methods.cosdelta tc v w = Return 1).
  { unfold Methods.cosdelta, Methods.mag2, Common.mag2, Methods.dot.
    cbn [bind].
    change (@eqb float Binary64.number) with PrimFloat.eqb.
    change (@lit_0 float Binary64.number) with 0.
    change (@mul float Binary64.number) with PrimFloat.mul.
    destruct ((TVector3.dot v v =? 0) || (TVector3.dot w w =? 0));
      [reflexivity|].
    unfold math_sqrt.
    change (@ltb float Binary64.number) with PrimFloat.ltb.
    change (@sqrt float Binary64.number) with PrimFloat.sqrt.
    change (@lit_0 float Binary64.number) with 0.
    rewrite (@F64.ltb_nan_l _ 0 Hp). cbn [bind].
    pose proof (@F64.sqrt_nan _ Hp) as Hq.
    rewrite truediv_nonzero by exact (@eqb_nan_l _ 0 Hq). cbn [bind].
    change (@div float Binary64.number) with PrimFloat.div.
    pose proof (@F64.clamp_nan _ (@F64.div_nan_r (TVector3.dot v w) _ Hq))
      as E.
    rewrite E. reflexivity. }
  split; [exact C|].
  destruct (scalar_predicates_spec tc v w tolerance C) as (S1 & _).
  split; [exact S1|].
  destruct (array_cosdelta_spec Hs Ho) as (cs & Ec & Lc & Pc).
  destruct (array_predicates_spec self other tolerance Ec) as (E1 & _).
  exists cs. eexists. split; [exact Ec|]. split; [exact E1|].
  assert (V : nth i cs 0 = 1).
  { change 0 with (@lit_0 float Binary64.number). rewrite (Pc i Hi).
    cbv zeta. fold v w. unfold cosdelta_at.
    change (@ltb float Binary64.number) with PrimFloat.ltb.
    change (@mul float Binary64.number) with PrimFloat.mul.
    change (@lit_0 float Binary64.number) with 0.
    rewrite (@F64.ltb_nan_r 0 _ Hp). reflexivity. }
  split; [exact V|].
  rewrite (nth_map_in _ _ 0) by lia. rewrite V. reflexivity.
Qed.

Lemma nan_magnitude_cosdelta_witness :
  let a := constant_array 1 (TVector3.mk nan 1 0) in
  let b := constant_array 1 Examples.v340 in
  Methods.cosdelta python_float (TVector3Array.item a 0) (TVector3Array.item b 0)
  = Return 1
  /\ Methods.isparallel python_float (TVector3Array.item a 0) (TVector3Array.item b 0)
                        lit_1e_10
     = Return (0 <? lit_1e_10)
  /\ exists cs ps,
       ArrayMethods.cosdelta a b = Return cs
       /\ ArrayMethods.isparallel a b lit_1e_10 = Return ps
       /\ nth 0 cs 0 = 1 /\ nth 0 ps false = (0 <? lit_1e_10).
Proof.
  intros a b.
  exact (@nan_magnitude_cosdelta
           python_float 1 a b 0 lit_1e_10
           (conj eq_refl (conj eq_refl eq_refl))
           (conj eq_refl (conj eq_refl eq_refl))
           (le_n 1) (or_introl eq_refl)).
Defined.

End NanMagnitude.

(** * Rounding on binary64

    What the rounding of the specification floats does, on integers: a
    mantissa is shifted right to the exponent of its format and the last
    place is rounded up or left as it is.  From this, bounds on sums and
    the accuracy of products, quotients and square roots. *)

Module Rounding.

Export Scaled.

#[local] Open Scope Z_scope.

Lemma iter_pos_iter {A : Type} (f : A -> A) (p : positive) (x : A) :
  @SpecFloat.iter_pos _ f p x = Pos.iter f x p.
Proof.
  revert x. induction p as [p IH|p IH|]; intros x; simpl.
  - rewrite !IH, <- !Pos.iter_swap. reflexivity.
  - rewrite !IH. reflexivity.
  - reflexivity.
Qed.

Lemma shr_1_spec (mrs : shr_record) :
  0 <= shr_m mrs ->
  shr_m (shr_1 mrs) = shr_m mrs / 2
  /\ sticky (shr_1 mrs) = Z.odd (shr_m mrs) || sticky mrs.
Proof.
  destruct mrs as [m r s]. cbn [shr_m]. intros Hm.
  rewrite <- Z.div2_div. unfold sticky.
  destruct m as [|[p|p|]|p]; try lia; cbn; split; try reflexivity;
    destruct r, s; reflexivity.
Qed.

(** Shifting right by [n] places divides by [2^n]; the shift is exact
    when nothing was lost before and [2^n] divides the mantissa. *)
Lemma shr_iter_spec (n : positive) (mrs : shr_record) :
  0 <= shr_m mrs ->
  shr_m (@SpecFloat.iter_pos _ shr_1 n mrs) = shr_m mrs / 2 ^ Z.pos n
  /\ (sticky (@SpecFloat.iter_pos _ shr_1 n mrs) = false <->
      sticky mrs = false /\ shr_m mrs mod 2 ^ Z.pos n = 0).
Proof.
  intros Hm. rewrite iter_pos_iter.
  induction n as [|n IH] using Pos.peano_ind.
  - cbn [Pos.iter]. destruct (shr_1_spec mrs Hm) as [E S].
    rewrite E, S. change (2 ^ 1) with 2. split; [reflexivity|].
    rewrite orb_false_iff, <- Z.negb_even, negb_false_iff.
    rewrite Z.even_spec, Z.mod_divide by lia. unfold Z.divide.
    split.
    + intros [[k Hk] Hs]. split; [exact Hs|]. exists k. lia.
    + intros [Hs [k Hk]]. split; [exists k; lia | exact Hs].
  - rewrite Pos.iter_succ. destruct IH as [E S].
    assert (Hq : 0 <= shr_m (Pos.iter shr_1 mrs n)).
    { rewrite E. apply Z.div_pos; lia. }
    destruct (shr_1_spec _ Hq) as [E' S'].
    rewrite E', S', E.
    replace (Z.pos (Pos.succ n)) with (Z.pos n + 1) by lia.
    rewrite Z.pow_add_r by lia. change (2 ^ 1) with 2.
    split; [rewrite Z.div_div by lia; reflexivity|].
    rewrite orb_false_iff, S.
    assert (P : 0 < 2 ^ Z.pos n) by lia.
    rewrite <- Z.negb_even, negb_false_iff, Z.even_spec.
    pose proof (Z.div_mod (shr_m mrs) (2 ^ Z.pos n) ltac:(lia)) as D.
    rewrite !Z.mod_divide by lia.
    split.
    + intros [[k Hk] [Hs Hd]]. split; [exact Hs|].
      destruct Hd as [j Hj]. exists k. 
      rewrite Hj, Z.div_mul in Hk by lia. lia.
    + intros [Hs [k Hk]]. split; [|split; [exact Hs|]].
      * exists k. rewrite Hk.
        replace (k * (2 ^ Z.pos n * 2)) with ((2 * k) * 2 ^ Z.pos n) by lia.
        rewrite Z.div_mul by lia. reflexivity.
      * exists (2 * k). lia.
Qed.

(** ** The number of binary digits *)

Lemma digits2_size (p : positive) : digits2_pos p = Pos.size p.
Proof. induction p; simpl; congruence. Qed.

Lemma digits_bounds (p : positive) :
  2 ^ (Zdigits2 (Z.pos p) - 1) <= Z.pos p < 2 ^ Zdigits2 (Z.pos p).
Proof.
  cbn [Zdigits2]. rewrite digits2_size.
  pose proof (Pos.size_gt p) as G. pose proof (Pos.size_le p) as L.
  apply Pos2Z.pos_lt_pos in G. apply Pos2Z.pos_le_pos in L.
  rewrite Pos2Z.inj_pow in G, L.
  replace (Z.pos (Pos.size p)) with (Z.pos (Pos.size p) - 1 + 1) in L by lia.
  rewrite Z.pow_add_r in L by lia. change (2 ^ 1) with 2 in L.
  split; [|exact G]. change (Z.pos p~0) with (2 * Z.pos p) in L. lia.
Qed.

Lemma digits_pos (p : positive) : 0 < Zdigits2 (Z.pos p).
Proof. cbn. lia. Qed.

Lemma digits_unique (m d : Z) :
  0 < m -> 2 ^ (d - 1) <= m < 2 ^ d -> Zdigits2 m = d.
Proof.
  intros Hm [L U]. destruct m as [|p|p]; try lia.
  pose proof (digits_bounds p) as [L' U']. pose proof (digits_pos p) as P.
  set (k := Zdigits2 (Z.pos p)) in *.
  assert (0 < d).
  { destruct d as [|d|d]; [simpl in U; lia | lia |].
    rewrite (Z.pow_neg_r 2 (Z.neg d)) in U by lia. lia. }
  destruct (Z.lt_trichotomy k d) as [H1|[H1|H1]]; [|exact H1|].
  - assert (2 ^ k <= 2 ^ (d - 1)) by (apply Z.pow_le_mono_r; lia). lia.
  - assert (2 ^ d <= 2 ^ (k - 1)) by (apply Z.pow_le_mono_r; lia). lia.
Qed.

(** ** One rounding *)

Lemma fexp_eq (x : Z) : fexp prec emax x = fexp64 x.
Proof. reflexivity. Qed.

Lemma shr_m_of_loc (m : Z) (l : location) :
  shr_m (shr_record_of_loc m l) = m.
Proof. destruct l as [|[]]; reflexivity. Qed.

Lemma sticky_of_exact (m : Z) : sticky (shr_record_of_loc m loc_Exact) = false.
Proof. reflexivity. Qed.

(** The first shift: down to the exponent of the format. *)
Lemma first_shift (m e : Z) (l : location) :
  0 < m -> e <= fexp64 (Zdigits2 m + e) ->
  let E := fexp64 (Zdigits2 m + e) in
  exists mrs,
    shr_fexp prec emax m e l = (mrs, E)
    /\ shr_m mrs = m / 2 ^ (E - e)
    /\ (l = loc_Exact -> m mod 2 ^ (E - e) = 0 -> sticky mrs = false).
Proof.
  intros Hm He E. unfold shr_fexp, shr. rewrite fexp_eq. fold E.
  destruct (E - e) as [|n|n] eqn:Hn; try lia.
  - exists (shr_record_of_loc m l). replace e with E by lia.
    rewrite shr_m_of_loc, Z.div_1_r.
    split; [reflexivity|]. split; [reflexivity|].
    intros -> _. reflexivity.
  - exists (@SpecFloat.iter_pos _ shr_1 n (shr_record_of_loc m l)).
    destruct (@shr_iter_spec n (shr_record_of_loc m l)) as [Q S];
      [rewrite shr_m_of_loc; lia|].
    rewrite shr_m_of_loc in Q, S.
    split; [f_equal; lia|]. split; [exact Q|].
    intros -> Hd. apply S. split; [reflexivity | exact Hd].
Qed.

(** Rounding to nearest even keeps the mantissa or adds one to it, and
    keeps it when nothing was shifted out. *)
Lemma round_nearest_even_spec (mrs : shr_record) :
  let q := shr_m mrs in
  let q' := round_nearest_even q (loc_of_shr_record mrs) in
  (q' = q \/ q' = q + 1) /\ (sticky mrs = false -> q' = q).
Proof.
  destruct mrs as [q r s]. unfold sticky. cbn [shr_m shr_r shr_s].
  destruct r, s; cbn; try (destruct (Z.even q)); split; auto; discriminate.
Qed.

(** The second shift: a mantissa of at most 53 digits stays; 2^53 becomes
    2^52 one exponent up. *)
Lemma second_shift (q E : Z) :
  0 <= q <= 2 ^ 53 -> -1074 <= E ->
  exists mrs e',
    shr_fexp prec emax q E loc_Exact = (mrs, e')
    /\ E <= e'
    /\ shr_m mrs * 2 ^ (e' - E) = q
    /\ (2 ^ 52 <= q -> 2 ^ 52 <= shr_m mrs)
    /\ (shr_m mrs, e') = (if q =? 2 ^ 53 then (2 ^ 52, E + 1) else (q, E)).
Proof.
  intros [Hq0 Hq] HE. unfold shr_fexp, shr. rewrite fexp_eq.
  destruct (Z.eq_dec q (2 ^ 53)) as [->|Hne].
  - assert (D : Zdigits2 (2 ^ 53) = 54) by reflexivity.
    rewrite D. unfold fexp64.
    replace (Z.max (54 + E - 53) (-1074) - E) with 1 by lia.
    eexists; eexists. split; [reflexivity|].
    split; [lia|]. replace (E + 1 - E) with 1 by lia.
    split; [reflexivity|]. split; [intros _; cbn; lia|].
    rewrite Z.eqb_refl. reflexivity.
  - assert (Hn : fexp64 (Zdigits2 q + E) - E <= 0).
    { unfold fexp64. destruct q as [|p|p]; try lia; [cbn; lia|].
      pose proof (digits_bounds p) as [L U].
      assert (Zdigits2 (Z.pos p) <= 53); [|lia].
      destruct (Z.le_gt_cases (Zdigits2 (Z.pos p)) 53) as [H|H]; [exact H|].
      assert (2 ^ 53 <= 2 ^ (Zdigits2 (Z.pos p) - 1))
        by (apply Z.pow_le_mono_r; lia). lia. }
    destruct (fexp64 (Zdigits2 q + E) - E) as [|n|n] eqn:En; try lia.
    + exists (shr_record_of_loc q loc_Exact), E. cbn [shr_record_of_loc shr_m].
      rewrite Z.sub_diag. split; [reflexivity|]. split; [lia|].
      split; [cbn; lia|]. split; [auto|].
      apply Z.eqb_neq in Hne. rewrite Hne. reflexivity.
    + exists (shr_record_of_loc q loc_Exact), E. cbn [shr_record_of_loc shr_m].
      rewrite Z.sub_diag. split; [reflexivity|]. split; [lia|].
      split; [cbn; lia|]. split; [auto|].
      apply Z.eqb_neq in Hne. rewrite Hne. reflexivity.
Qed.

(** One rounding of [m * 2^e]: with [E] the exponent of the format and
    [q] the mantissa cut at [E], the result is [q] or [q + 1] at [E], and
    [q] when the cut loses nothing. *)
Lemma round_aux_spec (s : bool) (m e : Z) (l : location) :
  0 < m -> e <= fexp64 (Zdigits2 m + e) ->
  let E := fexp64 (Zdigits2 m + e) in
  let q := m / 2 ^ (E - e) in
  exists q',
    (q' = q \/ q' = q + 1)
    /\ (l = loc_Exact -> m mod 2 ^ (E - e) = 0 -> q' = q)
    /\ rounded s (q' * 2 ^ (E + 1074)) (binary_round_aux prec emax s m e l).
Proof.
  intros Hm He E q.
  destruct (first_shift l Hm He) as (mrs & E1 & Q1 & S1). fold E in E1, Q1, S1.
  destruct (round_nearest_even_spec mrs) as [R1 R2]. cbv zeta in R1, R2.
  set (q' := round_nearest_even (shr_m mrs) (loc_of_shr_record mrs)) in *.
  rewrite Q1 in R1, R2. fold q in R1, R2.
  assert (HE : -1074 <= E) by (unfold E, fexp64; lia).
  assert (Hd := Hm). destruct m as [|pm|pm]; try lia.
  pose proof (digits_bounds pm) as [DL DU].
  set (dg := Zdigits2 (Z.pos pm)) in *.
  assert (Hn : dg - 53 <= E - e) by (unfold E, fexp64; lia).
  assert (P2 : 0 < 2 ^ (E - e)) by (apply Z.pow_pos_nonneg; lia).
  assert (Hq0 : 0 <= q) by (apply Z.div_pos; lia).
  assert (Hq53 : q < 2 ^ 53).
  { apply Z.div_lt_upper_bound; [exact P2|].
    rewrite <- Z.pow_add_r by lia.
    assert (2 ^ dg <= 2 ^ (E - e + 53)) by (apply Z.pow_le_mono_r; lia). lia. }
  assert (Hq' : 0 <= q' <= 2 ^ 53) by lia.
  assert (Hq52 : -1074 < E -> 2 ^ 52 <= q).
  { intros HE1.
    assert (En : E - e = dg - 53) by (unfold E, fexp64 in *; lia).
    apply Z.div_le_lower_bound; [exact P2|].
    rewrite En, <- Z.pow_add_r by lia.
    replace (dg - 53 + 52) with (dg - 1) by lia. exact DL. }
  destruct (second_shift Hq' HE) as (mrs2 & e2 & E2 & Le & V2 & B2 & C2).
  exists q'. split; [exact R1|]. split.
  { intros Hl Hmod. apply R2. apply S1; assumption. }
  unfold binary_round_aux. rewrite E1. fold q'. rewrite E2.
  assert (Hm2 : 0 <= shr_m mrs2).
  { destruct (Z.le_gt_cases 0 (shr_m mrs2)) as [H|H]; [exact H|].
    assert (0 < 2 ^ (e2 - E)) by (apply Z.pow_pos_nonneg; lia). nia. }
  assert (Val : shr_m mrs2 * 2 ^ (e2 + 1074) = q' * 2 ^ (E + 1074)).
  { rewrite <- V2. replace (e2 + 1074) with (e2 - E + (E + 1074)) by lia.
    rewrite Z.pow_add_r by lia. ring. }
  destruct (shr_m mrs2) as [|m2|m2] eqn:Em2; try lia.
  - left. split; [lia | reflexivity].
  - destruct (e2 <=? emax - prec) eqn:Hov.
    + right; left. apply Z.leb_le in Hov. change (emax - prec) with 971 in Hov.
      exists m2, e2. split; [reflexivity|]. split; [lia|].
      split; [exact Val|].
      unfold valid_binary, bounded, canonical_mantissa.
      apply andb_true_intro. split; [|apply Z.leb_le; exact Hov].
      apply Z.eqb_eq. rewrite fexp_eq.
      change (Z.pos (digits2_pos m2)) with (Zdigits2 (Z.pos m2)).
      destruct (q' =? 2 ^ 53) eqn:Eq; injection C2 as C2m C2e.
      * rewrite C2e.
        replace (Zdigits2 (Z.pos m2)) with 53 by (rewrite C2m; reflexivity).
        unfold fexp64. lia.
      * apply Z.eqb_neq in Eq. rewrite C2m, C2e.
        assert (Dq : Zdigits2 q' <= 53).
        { rewrite <- C2m.
          pose proof (digits_bounds m2) as [L U].
          destruct (Z.le_gt_cases (Zdigits2 (Z.pos m2)) 53) as [G|G];
            [exact G|].
          assert (2 ^ 53 <= 2 ^ (Zdigits2 (Z.pos m2) - 1))
            by (apply Z.pow_le_mono_r; lia). lia. }
        destruct (Z.eq_dec E (-1074)) as [E0|E0].
        { rewrite E0. unfold fexp64. lia. }
        assert (Dq2 : 53 <= Zdigits2 q').
        { rewrite <- C2m.
          pose proof (digits_bounds m2) as [L U].
          destruct (Z.le_gt_cases 53 (Zdigits2 (Z.pos m2))) as [G|G];
            [exact G|].
          assert (2 ^ Zdigits2 (Z.pos m2) <= 2 ^ 52)
            by (apply Z.pow_le_mono_r; lia).
          assert (2 ^ 52 <= q) by (apply Hq52; lia). lia. }
        unfold fexp64. lia.
    + right; right. split; [reflexivity|].
      apply Z.leb_gt in Hov. change (emax - prec) with 971 in Hov.
      rewrite <- Val.
      assert (Hbig : 2 ^ 52 <= Z.pos m2).
      { apply B2.
        assert (HE' : 971 <= E).
        { destruct (Z.eq_dec e2 E) as [->|Hne]; [lia|].
          assert (0 < e2 - E) by lia.
          assert (2 ^ 1 <= 2 ^ (e2 - E)) by (apply Z.pow_le_mono_r; lia).
          assert (Z.pos m2 * 2 ^ (e2 - E) <= 2 ^ 53) by lia.
          destruct (Z.eq_dec (e2 - E) 1) as [K1|K1]; [lia|].
          assert (2 ^ 2 <= 2 ^ (e2 - E)) by (apply Z.pow_le_mono_r; lia).
          assert (E2' := E2). unfold shr_fexp, shr in E2'.
          destruct (fexp prec emax (Zdigits2 q' + E) - E) as [|k|k] eqn:Hk;
            injection E2' as _ Ee; try lia.
          rewrite fexp_eq in Hk. unfold fexp64 in Hk.
          assert (Zdigits2 q' <= 54); [|lia].
          destruct q' as [|pq|pq]; [cbn; lia| |lia].
          pose proof (digits_bounds pq) as [L U].
          destruct (Z.le_gt_cases (Zdigits2 (Z.pos pq)) 54) as [G|G];
            [exact G|].
          assert (2 ^ 54 <= 2 ^ (Zdigits2 (Z.pos pq) - 1))
            by (apply Z.pow_le_mono_r; lia). lia. }
        assert (En : E - e = dg - 53) by (unfold E, fexp64 in *; lia).
        assert (2 ^ 52 <= q); [|lia].
        apply Z.div_le_lower_bound; [exact P2|].
        rewrite En, <- Z.pow_add_r by lia.
        replace (dg - 53 + 52) with (dg - 1) by lia. exact DL. }
      assert (2 ^ 2046 <= 2 ^ (e2 + 1074)) by (apply Z.pow_le_mono_r; lia).
      change (2 ^ 2098) with (2 ^ 52 * 2 ^ 2046).
      apply Z.mul_le_mono_nonneg; lia.
Qed.

(** ** Rounding in terms of the scaled magnitude *)

Lemma digits_mono (a b : Z) : 0 < a -> a <= b -> Zdigits2 a <= Zdigits2 b.
Proof.
  intros Ha Hab. destruct a as [|pa|pa]; try lia.
  destruct b as [|pb|pb]; try lia.
  pose proof (digits_bounds pa) as [La Ua].
  pose proof (digits_bounds pb) as [Lb Ub].
  destruct (Z.le_gt_cases (Zdigits2 (Z.pos pa)) (Zdigits2 (Z.pos pb)))
    as [H|H]; [exact H|].
  assert (2 ^ Zdigits2 (Z.pos pb) <= 2 ^ (Zdigits2 (Z.pos pa) - 1))
    by (apply Z.pow_le_mono_r; lia).
  lia.
Qed.

Lemma digits_shift (p : positive) (n : Z) :
  0 <= n -> Zdigits2 (Z.pos p * 2 ^ n) = Zdigits2 (Z.pos p) + n.
Proof.
  intros Hn. pose proof (digits_bounds p) as [L U].
  pose proof (digits_pos p) as P.
  assert (Q : 0 < 2 ^ n) by (apply Z.pow_pos_nonneg; lia).
  apply digits_unique; [apply Z.mul_pos_pos; lia|].
  replace (Zdigits2 (Z.pos p) + n - 1) with (Zdigits2 (Z.pos p) - 1 + n)
    by lia.
  rewrite !Z.pow_add_r by lia. split.
  - apply Z.mul_le_mono_nonneg_r; lia.
  - apply Z.mul_lt_mono_pos_r; lia.
Qed.

Lemma round_aux_V (s : bool) (pm : positive) (e : Z) :
  -1074 <= e -> e <= fexp64 (Zdigits2 (Z.pos pm) + e) ->
  let V := Z.pos pm * 2 ^ (e + 1074) in
  let k := grid V in
  let q := V / 2 ^ k in
  exists q',
    (q' = q \/ q' = q + 1) /\ (V mod 2 ^ k = 0 -> q' = q)
    /\ rounded s (q' * 2 ^ k)
         (binary_round_aux prec emax s (Z.pos pm) e loc_Exact).
Proof.
  intros He HE V k q.
  assert (DV : Zdigits2 V = Zdigits2 (Z.pos pm) + (e + 1074))
    by (apply digits_shift; lia).
  set (E := fexp64 (Zdigits2 (Z.pos pm) + e)) in *.
  assert (Hk : k = E + 1074).
  { unfold k, grid. rewrite DV. unfold E, fexp64. lia. }
  assert (Hp : 2 ^ k = 2 ^ (E - e) * 2 ^ (e + 1074)).
  { rewrite Hk, <- Z.pow_add_r by lia. f_equal. lia. }
  assert (C : 0 < 2 ^ (e + 1074)) by (apply Z.pow_pos_nonneg; lia).
  assert (D : 0 < 2 ^ (E - e)) by (apply Z.pow_pos_nonneg; lia).
  destruct (@round_aux_spec s (Z.pos pm) e loc_Exact) as (q' & A & B & R);
    [lia | exact HE |].
  fold E in A, B, R.
  assert (Q : q = Z.pos pm / 2 ^ (E - e)).
  { unfold q, V. rewrite Hp. apply Z.div_mul_cancel_r; lia. }
  exists q'. split; [rewrite Q; exact A|]. split.
  - intros Hmod. rewrite Q. apply B; [reflexivity|].
    unfold V in Hmod. rewrite Hp, Z.mul_mod_distr_r in Hmod by lia. nia.
  - rewrite Hk. exact R.
Qed.

Lemma binary_round_spec (s : bool) (pm : positive) (e : Z) :
  -1074 <= e ->
  let V := Z.pos pm * 2 ^ (e + 1074) in
  let k := grid V in
  let q := V / 2 ^ k in
  exists q',
    (q' = q \/ q' = q + 1) /\ (V mod 2 ^ k = 0 -> q' = q)
    /\ rounded s (q' * 2 ^ k) (binary_round prec emax s pm e).
Proof.
  intros He. unfold binary_round, shl_align. rewrite fexp_eq.
  change (Z.pos (digits2_pos pm)) with (Zdigits2 (Z.pos pm)).
  destruct (fexp64 (Zdigits2 (Z.pos pm) + e) - e) as [|d|d] eqn:Ed.
  - apply round_aux_V; lia.
  - apply round_aux_V; lia.
  - change (Pos.iter xO pm d) with (shift_pos d pm).
    assert (S : Z.pos (shift_pos d pm) = Z.pos pm * 2 ^ Z.pos d).
    { rewrite shift_pos_correct. rewrite Z.mul_comm. reflexivity. }
    set (E := fexp64 (Zdigits2 (Z.pos pm) + e)) in *.
    assert (DS : Zdigits2 (Z.pos (shift_pos d pm)) + E
                 = Zdigits2 (Z.pos pm) + e).
    { rewrite S, digits_shift by lia. lia. }
    assert (HE : -1074 <= E) by (unfold E, fexp64; lia).
    pose proof (@round_aux_V s (shift_pos d pm) E HE) as X.
    rewrite DS in X. fold E in X. specialize (X (Z.le_refl E)).
    replace (Z.pos (shift_pos d pm) * 2 ^ (E + 1074))
      with (Z.pos pm * 2 ^ (e + 1074)) in X; [exact X|].
    rewrite S, <- Z.mul_assoc, <- Z.pow_add_r by lia. f_equal. f_equal. lia.
Qed.

(** ** Rounding keeps a value between representable bounds *)

Lemma grid_mono (a b : Z) : 0 < a -> a <= b -> grid a <= grid b.
Proof.
  intros Ha Hab. unfold grid. pose proof (digits_mono Ha Hab). lia.
Qed.

Lemma on_grid_below (H k : Z) :
  on_grid H -> 0 <= k <= grid H -> exists c, H = c * 2 ^ k.
Proof.
  intros G Hk. unfold on_grid in G.
  apply Z.mod_divide in G; [|apply Z.pow_nonzero; lia].
  destruct G as [c Hc]. exists (c * 2 ^ (grid H - k)).
  rewrite <- Z.mul_assoc, <- Z.pow_add_r by lia.
  replace (grid H - k + k) with (grid H) by lia. exact Hc.
Qed.

Lemma round_upper (V H q' : Z) :
  0 < V -> V <= H -> on_grid H ->
  (q' = V / 2 ^ grid V \/ q' = V / 2 ^ grid V + 1) ->
  (V mod 2 ^ grid V = 0 -> q' = V / 2 ^ grid V) ->
  q' * 2 ^ grid V <= H.
Proof.
  intros HV HH G A B.
  assert (K0 : 0 <= grid V) by (unfold grid; lia).
  destruct (@on_grid_below H (grid V) G) as [c Hc].
  { split; [exact K0 | apply grid_mono; assumption]. }
  assert (P : 0 < 2 ^ grid V) by (apply Z.pow_pos_nonneg; lia).
  set (p := 2 ^ grid V) in *.
  pose proof (Z.div_mod V p ltac:(lia)) as DM.
  pose proof (Z.mod_pos_bound V p P) as MB.
  set (q := V / p) in *. set (r := V mod p) in *.
  destruct (Z.eq_dec r 0) as [R0|R0].
  - rewrite (B R0). lia.
  - assert (q < c) by nia.
    assert (q' <= c) by lia.
    rewrite Hc. apply Z.mul_le_mono_nonneg_r; lia.
Qed.

Lemma round_lower (V L q' : Z) :
  0 < V -> 0 <= L <= V -> on_grid L ->
  (q' = V / 2 ^ grid V \/ q' = V / 2 ^ grid V + 1) ->
  L <= q' * 2 ^ grid V.
Proof.
  intros HV [L0 LV] G A.
  assert (K0 : 0 <= grid V) by (unfold grid; lia).
  assert (P : 0 < 2 ^ grid V) by (apply Z.pow_pos_nonneg; lia).
  assert (Q0 : 0 <= V / 2 ^ grid V) by (apply Z.div_pos; lia).
  assert (S : V / 2 ^ grid V * 2 ^ grid V <= q' * 2 ^ grid V).
  { apply Z.mul_le_mono_nonneg_r; lia. }
  destruct (Z.eq_dec L 0) as [->|Ln]; [nia|].
  assert (LP : 0 < L) by lia.
  destruct (Z.le_gt_cases (grid V) (grid L)) as [C|C].
  - destruct (@on_grid_below L (grid V) G) as [c Hc]; [lia|].
    set (p := 2 ^ grid V) in *.
    pose proof (Z.div_mod V p ltac:(lia)) as DM.
    pose proof (Z.mod_pos_bound V p P) as MB.
    set (q := V / p) in *. set (r := V mod p) in *.
    assert (c <= q) by nia.
    assert (c * p <= q * p) by (apply Z.mul_le_mono_nonneg_r; lia).
    lia.
  - destruct V as [|pv|pv]; try lia. destruct L as [|pl|pl]; try lia.
    pose proof (digits_bounds pv) as [LV' UV].
    pose proof (digits_bounds pl) as [LL UL].
    unfold grid in *.
    set (dv := Zdigits2 (Z.pos pv)) in *.
    set (dl := Zdigits2 (Z.pos pl)) in *.
    assert (Hd : dl < dv) by lia.
    assert (Hk : Z.max (dv - 53) 0 = dv - 53) by lia.
    rewrite Hk in *.
    assert (X : 2 ^ dl <= 2 ^ (dv - 1)) by (apply Z.pow_le_mono_r; lia).
    assert (Y : 2 ^ (dv - 1) = 2 ^ 52 * 2 ^ (dv - 53)).
    { rewrite <- Z.pow_add_r by lia. f_equal. lia. }
    assert (Z1 : 2 ^ 52 <= Z.pos pv / 2 ^ (dv - 53)).
    { apply Z.div_le_lower_bound; [exact P|]. rewrite Z.mul_comm, <- Y.
      exact LV'. }
    assert (2 ^ 52 * 2 ^ (dv - 53)
            <= Z.pos pv / 2 ^ (dv - 53) * 2 ^ (dv - 53)).
    { apply Z.mul_le_mono_nonneg_r; lia. }
    lia.
Qed.

(** ** Values of valid floats *)

Lemma valid_facts (s : bool) (m : positive) (e : Z) :
  valid_binary (S754_finite s m e) = true ->
  -1074 <= e <= 971
  /\ fexp64 (Zdigits2 (Z.pos m) + e) = e
  /\ Z.pos m < 2 ^ 53
  /\ (-1074 < e -> 2 ^ 52 <= Z.pos m)
  /\ on_grid (Z.pos m * 2 ^ (e + 1074))
  /\ 0 < Z.pos m * 2 ^ (e + 1074) < 2 ^ 2098.
Proof.
  unfold valid_binary, bounded, canonical_mantissa. intros H.
  apply andb_prop in H. destruct H as [C B].
  apply Z.eqb_eq in C. apply Z.leb_le in B. rewrite fexp_eq in C.
  change (Z.pos (digits2_pos m)) with (Zdigits2 (Z.pos m)) in C.
  change (emax - prec) with 971 in B.
  pose proof (digits_bounds m) as [L U].
  set (dg := Zdigits2 (Z.pos m)) in *.
  assert (E0 : -1074 <= e) by (unfold fexp64 in C; lia).
  assert (D53 : dg <= 53) by (unfold fexp64 in C; lia).
  assert (M53 : Z.pos m < 2 ^ 53).
  { assert (2 ^ dg <= 2 ^ 53) by (apply Z.pow_le_mono_r; lia). lia. }
  assert (P : 0 < 2 ^ (e + 1074)) by (apply Z.pow_pos_nonneg; lia).
  split; [lia|]. split; [exact C|]. split; [exact M53|]. split.
  { intros He. assert (dg = 53) by (unfold fexp64 in C; lia).
    subst dg. rewrite H in L. exact L. }
  split.
  - unfold on_grid, grid. rewrite digits_shift by lia. fold dg.
    replace (Z.max (dg + (e + 1074) - 53) 0) with (e + 1074)
      by (unfold fexp64 in C; lia).
    apply Z.mod_mul. lia.
  - split; [apply Z.mul_pos_pos; lia|].
    assert (2 ^ (e + 1074) <= 2 ^ 2045) by (apply Z.pow_le_mono_r; lia).
    assert (Z.pos m * 2 ^ (e + 1074) <= Z.pos m * 2 ^ 2045)
      by (apply Z.mul_le_mono_nonneg_l; lia).
    assert (Z.pos m * 2 ^ 2045 < 2 ^ 53 * 2 ^ 2045)
      by (apply Z.mul_lt_mono_pos_r; [reflexivity | exact M53]).
    change (2 ^ 2098) with (2 ^ 53 * 2 ^ 2045). lia.
Qed.

Lemma FV_facts (x : spec_float) :
  FV x -> on_grid (Z.abs (SV x)) /\ Z.abs (SV x) < 2 ^ 2098.
Proof.
  destruct x as [s|s| |s m e]; cbn [FV SV]; try contradiction.
  - intros _. split; [reflexivity | reflexivity].
  - intros V. destruct (@valid_facts s m e V) as (_ & _ & _ & _ & G & B).
    destruct s; unfold cond_Zopp; rewrite ?Z.abs_opp, Z.abs_eq by lia;
      (split; [exact G | lia]).
Qed.

Lemma on_grid_0 : on_grid 0.
Proof. reflexivity. Qed.

(** Among valid floats of one sign the one of smaller exponent is the
    smaller. *)
Lemma exponent_order (s1 s2 : bool) (m1 m2 : positive) (e1 e2 : Z) :
  valid_binary (S754_finite s1 m1 e1) = true ->
  valid_binary (S754_finite s2 m2 e2) = true ->
  e1 < e2 -> Z.pos m1 * 2 ^ (e1 + 1074) < Z.pos m2 * 2 ^ (e2 + 1074).
Proof.
  intros V1 V2 He.
  destruct (@valid_facts s1 m1 e1 V1) as (B1 & _ & M1 & _ & _ & _).
  destruct (@valid_facts s2 m2 e2 V2) as (B2 & _ & _ & M2 & _ & _).
  assert (P : 0 < 2 ^ (e1 + 1074)) by (apply Z.pow_pos_nonneg; lia).
  replace (e2 + 1074) with (e2 - e1 + (e1 + 1074)) by lia.
  rewrite (Z.pow_add_r 2 (e2 - e1) (e1 + 1074)) by lia.
  rewrite Z.mul_assoc.
  apply Z.mul_lt_mono_pos_r; [exact P|].
  assert (2 ^ 1 <= 2 ^ (e2 - e1)) by (apply Z.pow_le_mono_r; lia).
  assert (2 ^ 52 <= Z.pos m2) by (apply M2; lia).
  change (2 ^ 1) with 2 in *.
  assert (2 ^ 52 * 2 <= Z.pos m2 * 2 ^ (e2 - e1))
    by (apply Z.mul_le_mono_nonneg; lia).
  change (2 ^ 53) with (2 ^ 52 * 2) in M1. lia.
Qed.

(** Comparison of zeros and valid finite floats is comparison of their
    values. *)
Lemma compare_values (x y : spec_float) :
  FV x -> FV y -> SFcompare x y = Some (SV x ?= SV y).
Proof.
  destruct x as [sx|sx| |sx mx ex]; cbn [FV]; try contradiction;
    destruct y as [sy|sy| |sy my ey]; cbn [FV]; try contradiction;
    intros Vx Vy.
  - reflexivity.
  - destruct (@valid_facts sy my ey Vy) as (_ & _ & _ & _ & _ & B).
    cbn [SFcompare SV]. f_equal. symmetry.
    destruct sy; unfold cond_Zopp;
      [apply Z.compare_gt_iff | apply Z.compare_lt_iff]; lia.
  - destruct (@valid_facts sx mx ex Vx) as (_ & _ & _ & _ & _ & B).
    cbn [SFcompare SV]. f_equal. symmetry.
    destruct sx; unfold cond_Zopp;
      [apply Z.compare_lt_iff | apply Z.compare_gt_iff]; lia.
  - destruct (@valid_facts sx mx ex Vx) as (Bx & _ & _ & _ & _ & Px).
    destruct (@valid_facts sy my ey Vy) as (By & _ & _ & _ & _ & Py).
    assert (Lt1 : ex < ey ->
                  Z.pos mx * 2 ^ (ex + 1074) < Z.pos my * 2 ^ (ey + 1074))
      by (apply (@exponent_order sx sy mx my ex ey Vx Vy)).
    assert (Gt1 : ey < ex ->
                  Z.pos my * 2 ^ (ey + 1074) < Z.pos mx * 2 ^ (ex + 1074))
      by (apply (@exponent_order sy sx my mx ey ex Vy Vx)).
    assert (P : 0 < 2 ^ (ex + 1074)) by (apply Z.pow_pos_nonneg; lia).
    cbn [SFcompare SV]. f_equal. symmetry. rewrite Pos.compare_cont_spec.
    cbn [Pos.switch_Eq]. change (mx ?= my)%positive
      with (Z.pos mx ?= Z.pos my).
    destruct sx, sy; unfold cond_Zopp.
    + destruct (Z.compare_spec ex ey) as [E|E|E].
      * subst ey. destruct (Z.compare_spec (Z.pos mx) (Z.pos my)) as [F|F|F];
          cbn [CompOpp].
        -- rewrite F. apply Z.compare_eq_iff. reflexivity.
        -- apply Z.compare_gt_iff.
           assert (Z.pos mx * 2 ^ (ex + 1074) < Z.pos my * 2 ^ (ex + 1074))
             by (apply Z.mul_lt_mono_pos_r; lia). lia.
        -- apply Z.compare_lt_iff.
           assert (Z.pos my * 2 ^ (ex + 1074) < Z.pos mx * 2 ^ (ex + 1074))
             by (apply Z.mul_lt_mono_pos_r; lia). lia.
      * apply Z.compare_gt_iff. specialize (Lt1 E). lia.
      * apply Z.compare_lt_iff. specialize (Gt1 E). lia.
    + apply Z.compare_lt_iff. lia.
    + apply Z.compare_gt_iff. lia.
    + destruct (Z.compare_spec ex ey) as [E|E|E].
      * subst ey. destruct (Z.compare_spec (Z.pos mx) (Z.pos my)) as [F|F|F].
        -- rewrite F. apply Z.compare_eq_iff. reflexivity.
        -- apply Z.compare_lt_iff. apply Z.mul_lt_mono_pos_r; lia.
        -- apply Z.compare_gt_iff. apply Z.mul_lt_mono_pos_r; lia.
      * apply Z.compare_lt_iff. exact (Lt1 E).
      * apply Z.compare_gt_iff. exact (Gt1 E).
Qed.

Lemma round_between (s : bool) (pm : positive) (e Lo Hi : Z) :
  -1074 <= e -> on_grid Lo -> on_grid Hi ->
  0 <= Lo <= Z.pos pm * 2 ^ (e + 1074) ->
  Z.pos pm * 2 ^ (e + 1074) <= Hi -> Hi < 2 ^ 2098 ->
  let r := binary_round prec emax s pm e in
  FV r /\ exists R, Lo <= R <= Hi /\ SV r = cond_Zopp s R.
Proof.
  intros He GL GH HL HH HB r.
  destruct (@binary_round_spec s pm e He) as (q' & A & B & Rd).
  fold r in Rd. set (V := Z.pos pm * 2 ^ (e + 1074)) in *.
  assert (HV : 0 < V).
  { apply Z.mul_pos_pos; [lia | apply Z.pow_pos_nonneg; lia]. }
  pose proof (@round_upper V Hi q' HV HH GH A B) as U.
  pose proof (@round_lower V Lo q' HV HL GL A) as L.
  destruct Rd as [[Z0 Er] | [(m & e' & Er & Be & Ev & Val) | [Er Big]]].
  - rewrite Er. split; [exact I|]. exists 0. split; [lia|].
    destruct s; reflexivity.
  - split; [rewrite Er; cbn [FV]; rewrite <- Er; exact Val|].
    exists (q' * 2 ^ grid V). split; [lia|]. rewrite Er. cbn [SV].
    rewrite Ev. reflexivity.
  - lia.
Qed.

(** A sum or difference computed exactly and then rounded stays between
    any two floats its exact value lies between. *)
Lemma normalize_between (M e : Z) (sz : bool) (lo hi : spec_float) :
  -1074 <= e -> FV lo -> FV hi ->
  SV lo <= M * 2 ^ (e + 1074) <= SV hi ->
  let r := binary_normalize prec emax M e sz in
  FV r /\ SV lo <= SV r <= SV hi.
Proof.
  intros He Flo Fhi [HL HH] r. unfold r, binary_normalize.
  destruct (@FV_facts lo Flo) as [Glo Blo].
  destruct (@FV_facts hi Fhi) as [Ghi Bhi].
  assert (P : 0 < 2 ^ (e + 1074)) by (apply Z.pow_pos_nonneg; lia).
  destruct M as [|pm|pm].
  - rewrite Z.mul_0_l in HL, HH. split; [exact I|]. cbn [SV]. lia.
  - assert (HV : 0 < Z.pos pm * 2 ^ (e + 1074))
      by (apply Z.mul_pos_pos; lia).
    destruct (@round_between false pm e (Z.max 0 (SV lo)) (SV hi) He)
      as (F & R & BR & ER).
    + destruct (Z.max_spec 0 (SV lo)) as [[a ->]|[a ->]].
      * replace (SV lo) with (Z.abs (SV lo)) by lia. exact Glo.
      * exact on_grid_0.
    + replace (SV hi) with (Z.abs (SV hi)) by lia. exact Ghi.
    + lia.
    + lia.
    + lia.
    + split; [exact F|]. rewrite ER. cbn [cond_Zopp]. lia.
  - change (Z.neg pm) with (- Z.pos pm) in HL, HH.
    rewrite Z.mul_opp_l in HL, HH.
    assert (HV : 0 < Z.pos pm * 2 ^ (e + 1074))
      by (apply Z.mul_pos_pos; lia).
    destruct (@round_between true pm e (Z.max 0 (- SV hi)) (- SV lo) He)
      as (F & R & BR & ER).
    + destruct (Z.max_spec 0 (- SV hi)) as [[a ->]|[a ->]].
      * replace (- SV hi) with (Z.abs (SV hi)) by lia. exact Ghi.
      * exact on_grid_0.
    + replace (- SV lo) with (Z.abs (SV lo)) by lia. exact Glo.
    + lia.
    + lia.
    + lia.
    + split; [exact F|]. rewrite ER. cbn [cond_Zopp]. lia.
Qed.

(** ** Addition, subtraction and remainder *)

Lemma shl_align_value (mx : positive) (ex ez : Z) :
  ez <= ex -> Z.pos (fst (shl_align mx ex ez)) = Z.pos mx * 2 ^ (ex - ez).
Proof.
  intros H. unfold shl_align. destruct (ez - ex) as [|d|d] eqn:Ed; try lia.
  - replace (ex - ez) with 0 by lia. cbn [fst]. lia.
  - cbn [fst]. change (Pos.iter xO mx d) with (shift_pos d mx).
    rewrite shift_pos_correct, Z.mul_comm.
    replace (ex - ez) with (Z.pos d) by lia. reflexivity.
Qed.

Lemma cond_Zopp_mul (s : bool) (a b : Z) :
  cond_Zopp s a * b = cond_Zopp s (a * b).
Proof. destruct s; unfold cond_Zopp; lia. Qed.

Lemma aligned_value (s : bool) (mx : positive) (ex ez : Z) :
  -1074 <= ez <= ex ->
  cond_Zopp s (Z.pos (fst (shl_align mx ex ez))) * 2 ^ (ez + 1074)
  = SV (S754_finite s mx ex).
Proof.
  intros H. rewrite shl_align_value by lia. rewrite cond_Zopp_mul.
  cbn [SV]. f_equal. rewrite <- Z.mul_assoc, <- Z.pow_add_r by lia.
  f_equal. f_equal. lia.
Qed.

Lemma FV_exponent (s : bool) (m : positive) (e : Z) :
  FV (S754_finite s m e) -> -1074 <= e.
Proof.
  cbn [FV]. intros V. destruct (@valid_facts s m e V) as (B & _). lia.
Qed.

Lemma SFadd_between (x y lo hi : spec_float) :
  FV x -> FV y -> FV lo -> FV hi ->
  SV lo <= SV x + SV y <= SV hi ->
  FV (SFadd prec emax x y)
  /\ SV lo <= SV (SFadd prec emax x y) <= SV hi.
Proof.
  intros Fx Fy Flo Fhi H.
  destruct x as [sx|sx| |sx mx ex]; try contradiction;
    destruct y as [sy|sy| |sy my ey]; try contradiction.
  - assert (R : FV (SFadd prec emax (S754_zero sx) (S754_zero sy))
                /\ SV (SFadd prec emax (S754_zero sx) (S754_zero sy)) = 0)
      by (destruct sx, sy; split; exact I || reflexivity).
    destruct R as [R1 R2]. split; [exact R1|]. rewrite R2. exact H.
  - cbn [SFadd]. split; [exact Fy|]. cbn [SV] in *. lia.
  - cbn [SFadd]. split; [exact Fx|]. cbn [SV] in *. lia.
  - pose proof (FV_exponent Fx) as Ex. pose proof (FV_exponent Fy) as Ey.
    unfold SFadd. apply normalize_between; try assumption; [lia|].
    rewrite Z.mul_add_distr_r, !aligned_value by lia. exact H.
Qed.

Lemma SFsub_between (x y lo hi : spec_float) :
  FV x -> FV y -> FV lo -> FV hi ->
  SV lo <= SV x - SV y <= SV hi ->
  FV (SFsub prec emax x y)
  /\ SV lo <= SV (SFsub prec emax x y) <= SV hi.
Proof.
  intros Fx Fy Flo Fhi H.
  destruct x as [sx|sx| |sx mx ex]; try contradiction;
    destruct y as [sy|sy| |sy my ey]; try contradiction.
  - assert (R : FV (SFsub prec emax (S754_zero sx) (S754_zero sy))
                /\ SV (SFsub prec emax (S754_zero sx) (S754_zero sy)) = 0)
      by (destruct sx, sy; split; exact I || reflexivity).
    destruct R as [R1 R2]. split; [exact R1|]. rewrite R2. exact H.
  - cbn [SFsub]. split; [exact Fy|]. cbn [SV] in *.
    destruct sy; unfold cond_Zopp in *; cbn [negb]; lia.
  - cbn [SFsub]. split; [exact Fx|]. cbn [SV] in *. lia.
  - pose proof (FV_exponent Fx) as Ex. pose proof (FV_exponent Fy) as Ey.
    unfold SFsub. apply normalize_between; try assumption; [lia|].
    rewrite Z.mul_sub_distr_r, !aligned_value by lia. exact H.
Qed.

(** The remainder of [fmod] by a positive float: no larger than the
    divisor, and of the sign of the dividend. *)
Lemma SFfmod_between (x : spec_float) (my : positive) (ey : Z) :
  FV x -> FV (S754_finite false my ey) ->
  let y := S754_finite false my ey in
  let r := Binary64.SFfmod x y in
  FV r /\ - SV y <= SV r <= SV y
  /\ (0 <= SV x -> 0 <= SV r) /\ (SV x <= 0 -> SV r <= 0).
Proof.
  intros Fx Fy y r. subst r y.
  assert (Fn : FV (S754_finite true my ey)) by exact Fy.
  pose proof (FV_exponent Fy) as Ey.
  cbn [SV cond_Zopp]. set (Vy := Z.pos my * 2 ^ (ey + 1074)).
  assert (Py : 0 < Vy).
  { apply Z.mul_pos_pos; [lia | apply Z.pow_pos_nonneg; lia]. }
  destruct x as [sx|sx| |sx mx ex]; try contradiction.
  - cbn [Binary64.SFfmod SV]. split; [exact I|]. lia.
  - pose proof (FV_exponent Fx) as Ex.
    cbn [Binary64.SFfmod]. cbv zeta.
    set (e := Z.min ex ey).
    set (X := Z.pos mx * 2 ^ (ex - e)).
    set (Y := Z.pos my * 2 ^ (ey - e)).
    assert (PX : 0 < X).
    { apply Z.mul_pos_pos; [lia | apply Z.pow_pos_nonneg; lia]. }
    assert (PY : 0 < Y).
    { apply Z.mul_pos_pos; [lia | apply Z.pow_pos_nonneg; lia]. }
    pose proof (Z.rem_bound_pos X Y ltac:(lia) PY) as RB.
    assert (P : 0 < 2 ^ (e + 1074)) by (apply Z.pow_pos_nonneg; lia).
    assert (VY : Y * 2 ^ (e + 1074) = Vy).
    { unfold Y, Vy.
      rewrite <- Z.mul_assoc, <- Z.pow_add_r by lia. f_equal. f_equal. lia. }
    assert (RY : Z.rem X Y * 2 ^ (e + 1074) <= Vy).
    { rewrite <- VY. apply Z.mul_le_mono_nonneg_r; lia. }
    assert (R0 : 0 <= Z.rem X Y * 2 ^ (e + 1074))
      by (apply Z.mul_nonneg_nonneg; lia).
    assert (SX : 0 < Z.pos mx * 2 ^ (ex + 1074)).
    { apply Z.mul_pos_pos; [lia | apply Z.pow_pos_nonneg; lia]. }
    destruct sx.
    + destruct (@normalize_between (cond_Zopp true (Z.rem X Y)) e true
                  (S754_finite true my ey) (S754_zero false))
        as [F B]; try assumption; try exact I; [lia| |].
      * rewrite cond_Zopp_mul. cbn [SV cond_Zopp]. fold Vy. lia.
      * split; [exact F|]. cbn [SV cond_Zopp] in B. fold Vy in B.
        cbn [SV cond_Zopp]. lia.
    + destruct (@normalize_between (cond_Zopp false (Z.rem X Y)) e false
                  (S754_zero false) (S754_finite false my ey))
        as [F B]; try assumption; try exact I; [lia| |].
      * rewrite cond_Zopp_mul. cbn [SV cond_Zopp]. fold Vy. lia.
      * split; [exact F|]. cbn [SV cond_Zopp] in B. fold Vy in B.
        cbn [SV cond_Zopp]. lia.
Qed.

(** ** On the primitive floats *)

Lemma FV_valid (r : spec_float) : FV r -> valid_binary r = true.
Proof. destruct r; cbn [FV]; try contradiction; auto. Qed.

Lemma finite_FV (x : float) : PrimFloat.is_finite x = true -> FVf x.
Proof.
  intros H. apply is_finite_spec in H. pose proof (Prim2SF_valid x) as V.
  unfold FVf. destruct H as [[s E]|(s & m & e & E)]; rewrite E in *.
  - exact I.
  - exact V.
Qed.

Lemma not_finite_fmod (x y : float) :
  PrimFloat.is_finite x = false ->
  F64.is_nan (Binary64.fmod64 x y) = true.
Proof.
  intros H. apply F64.is_nan_spec. unfold Binary64.fmod64.
  assert (E : Binary64.SFfmod (Prim2SF x) (Prim2SF y) = S754_nan).
  { destruct (Prim2SF x) as [s|s| |s m e] eqn:Ex.
    - assert (C : PrimFloat.is_finite x = true)
        by (apply is_finite_spec; left; exists s; exact Ex).
      congruence.
    - destruct (Prim2SF y); reflexivity.
    - reflexivity.
    - assert (C : PrimFloat.is_finite x = true)
        by (apply is_finite_spec; right; exists s, m, e; exact Ex).
      congruence. }
  rewrite E. apply Prim2SF_SF2Prim. reflexivity.
Qed.

Lemma leb_values (x y : float) :
  FVf x -> FVf y -> PrimFloat.leb x y = (Vf x <=? Vf y).
Proof.
  intros Fx Fy. rewrite leb_spec. unfold SFleb, Z.leb, Vf.
  rewrite (@compare_values (Prim2SF x) (Prim2SF y) Fx Fy). destruct (_ ?= _); reflexivity.
Qed.

Lemma ltb_values (x y : float) :
  FVf x -> FVf y -> PrimFloat.ltb x y = (Vf x <? Vf y).
Proof.
  intros Fx Fy. rewrite ltb_spec. unfold SFltb, Z.ltb, Vf.
  rewrite (@compare_values (Prim2SF x) (Prim2SF y) Fx Fy). destruct (_ ?= _); reflexivity.
Qed.

Lemma eqb_values (x y : float) :
  FVf x -> FVf y -> PrimFloat.eqb x y = (Vf x =? Vf y).
Proof.
  intros Fx Fy. rewrite FloatAxioms.eqb_spec. unfold SFeqb, Vf.
  rewrite (@compare_values (Prim2SF x) (Prim2SF y) Fx Fy).
  destruct (Z.compare_spec (SV (Prim2SF x)) (SV (Prim2SF y))) as [E|E|E];
    symmetry; [apply Z.eqb_eq | apply Z.eqb_neq | apply Z.eqb_neq]; lia.
Qed.

Lemma add_between (x y lo hi : float) :
  FVf x -> FVf y -> FVf lo -> FVf hi ->
  Vf lo <= Vf x + Vf y <= Vf hi ->
  FVf (PrimFloat.add x y) /\ Vf lo <= Vf (PrimFloat.add x y) <= Vf hi.
Proof.
  unfold FVf, Vf. rewrite add_spec. apply SFadd_between.
Qed.

Lemma sub_between (x y lo hi : float) :
  FVf x -> FVf y -> FVf lo -> FVf hi ->
  Vf lo <= Vf x - Vf y <= Vf hi ->
  FVf (PrimFloat.sub x y) /\ Vf lo <= Vf (PrimFloat.sub x y) <= Vf hi.
Proof.
  unfold FVf, Vf. rewrite sub_spec. apply SFsub_between.
Qed.

Lemma fmod_between (x y : float) (my : positive) (ey : Z) :
  FVf x -> Prim2SF y = S754_finite false my ey ->
  let r := Binary64.fmod64 x y in
  FVf r /\ - Vf y <= Vf r <= Vf y
  /\ (0 <= Vf x -> 0 <= Vf r) /\ (Vf x <= 0 -> Vf r <= 0).
Proof.
  intros Fx Ey r. unfold r, FVf, Vf, Binary64.fmod64.
  pose proof (Prim2SF_valid y) as Vy. rewrite Ey in *.
  destruct (@SFfmod_between (Prim2SF x) my ey Fx Vy) as (F & B).
  rewrite Prim2SF_SF2Prim by (apply FV_valid; exact F).
  split; [exact F | exact B].
Qed.

End Rounding.
(** * The range of [delta_phi] on binary64 *)

Section DeltaPhiRange.

Import Rounding.

Let P : float := 0x1.921fb54442d18p+1%float.
Let T : float := 0x1.921fb54442d18p+2%float.

Lemma two_pi_value : (mul lit_2 pi : float) = T.
Proof. reflexivity. Qed.

Lemma pi_values :
  FVf P /\ FVf T /\ FVf (- P)%float /\ FVf 0%float
  /\ Vf T = (2 * Vf P)%Z /\ Vf (- P)%float = (- Vf P)%Z
  /\ Vf 0%float = 0%Z /\ (0 < Vf P)%Z
  /\ Prim2SF T = S754_finite false 7074237752028440 (-50).
Proof.
  assert (E1 : Prim2SF P = S754_finite false 7074237752028440 (-51))
    by (vm_compute; reflexivity).
  assert (E2 : Prim2SF T = S754_finite false 7074237752028440 (-50))
    by (vm_compute; reflexivity).
  assert (E3 : Prim2SF (- P)%float = S754_finite true 7074237752028440 (-51))
    by (vm_compute; reflexivity).
  assert (E4 : Prim2SF 0%float = S754_zero false) by (vm_compute; reflexivity).
  unfold FVf, Vf. rewrite E1, E2, E3, E4. cbn [FV SV cond_Zopp].
  repeat (split; try reflexivity); exact I.
Qed.

Lemma mod_then_sub (s : float) :
  exists m, py_mod s T = Return m
    /\ (PrimFloat.is_finite s = false -> F64.is_nan (m - P)%float = true)
    /\ (PrimFloat.is_finite s = true -> between (- P) P (m - P) = true).
Proof.
  destruct pi_values as (FP & FT & FN & F0 & VT & VN & V0 & PP & ET).
  unfold py_mod. cbn [eqb ltb fmod add copysign lit_0 Binary64.number].
  assert (T0 : (T =? 0)%float = false) by reflexivity.
  assert (T1 : (T <? 0)%float = false) by reflexivity.
  rewrite T0, T1. cbn [xorb].
  destruct (PrimFloat.is_finite s) eqn:Fs.
  - pose proof (@finite_FV s Fs) as FS.
    destruct (@fmod_between s T _ _ FS ET) as (Ff & Bf & Sp & Sn).
    cbv zeta in Ff, Bf, Sp, Sn.
    set (f := Binary64.fmod64 s T) in *.
    rewrite (@eqb_values f 0%float Ff F0), (@ltb_values f 0%float Ff F0), V0.
    assert (R : forall m, FVf m -> (0 <= Vf m <= Vf T)%Z ->
                          between (- P) P (m - P) = true).
    { intros m Fm Bm.
      destruct (@sub_between m P (- P)%float P Fm FP FN FP) as [Fr Br];
        [lia|].
      unfold between.
      rewrite (@leb_values _ _ FN Fr), (@leb_values _ _ Fr FP).
      apply andb_true_intro. split; apply Z.leb_le; lia. }
    destruct (Vf f =? 0)%Z eqn:E0; cbn [negb].
    + eexists. split; [reflexivity|]. split; [discriminate|].
      intros _. vm_compute. reflexivity.
    + apply Z.eqb_neq in E0. destruct (Vf f <? 0)%Z eqn:E1.
      * apply Z.ltb_lt in E1. eexists. split; [reflexivity|].
        split; [discriminate|]. intros _.
        destruct (@add_between f T 0%float T Ff FT F0 FT) as [Fm Bm];
          [lia|].
        apply R; [exact Fm | lia].
      * apply Z.ltb_ge in E1. eexists. split; [reflexivity|].
        split; [discriminate|]. intros _. apply R; [exact Ff | lia].
  - pose proof (@not_finite_fmod s T Fs) as Nf.
    rewrite (@eqb_nan_l _ 0%float Nf), (@F64.ltb_nan_l _ 0%float Nf).
    cbn [negb]. eexists. split; [reflexivity|].
    split; [|discriminate]. intros _. apply sub_nan_l. exact Nf.
Qed.

Lemma scalar_delta_phi_range (p1 p2 : float) :
  exists d, Common.delta_phi phi_of_angle p1 p2 = Return d
    /\ (PrimFloat.is_finite (p1 - p2 + pi) = true ->
        between (- pi) pi d = true)
    /\ (PrimFloat.is_finite (p1 - p2 + pi) = false ->
        F64.is_nan d = true).
Proof.
  unfold Common.delta_phi, phi_of_angle.
  cbn [bind q_sub q_add_s q_sub_s q_mod_s scalar_quantity].
  rewrite two_pi_value. cbn [add sub pi Binary64.number]. fold P.
  destruct (mod_then_sub (p1 - p2 + P)) as (m & E & Hn & Hf).
  rewrite E. cbn [bind]. exists (m - P)%float.
  split; [reflexivity|]. split; [exact Hf | exact Hn].
Qed.

Lemma nan_or_between (s d : float) :
  (PrimFloat.is_finite s = true -> between (- pi) pi d = true) ->
  (PrimFloat.is_finite s = false -> F64.is_nan d = true) ->
  F64.is_nan d = true \/ between (- pi) pi d = true.
Proof.
  intros A B. destruct (PrimFloat.is_finite s); [right | left]; auto.
Qed.

(** With phi1 = -3 and phi2 = 0.14159265358979356 the sum
    phi1 - phi2 + pi is -2^-51, the remainder plus 2 pi rounds to 2 pi,
    and the result is pi: the upper end is reached. *)
Lemma delta_phi_attains_pi :
  Common.delta_phi phi_of_angle (-3)%float 0x1.21fb54442d190p-3%float
  = Return (pi : float).
Proof. vm_compute. reflexivity. Qed.

(** C4, counterexample.  With phi1 = 0 and phi2 = pi the formula gives
    exactly -pi (0.0 - pi + pi is 0.0, and 0.0 % 2pi is 0.0), which the
    interval (-pi, pi] leaves out: -pi is not below the result. *)
Lemma delta_phi_attains_minus_pi :
  Common.delta_phi phi_of_angle 0%float pi = Return (- pi)%float
  /\ (- pi <? - pi)%float = false.
Proof. split; vm_compute; reflexivity. Qed.

(** C4, as amended.  For any two binary64 azimuthal angles phi1 and phi2,
    [delta_phi] returns; when phi1 - phi2 + pi is a finite number the value
    lies in the closed interval [-pi, pi], and it is a NaN otherwise.  So
    it is for any two vectors in scalar mode and at every position in array
    mode.  And [delta_phi(v, v)] is 0 whenever the azimuth of [v] is a
    finite number. *)
Theorem delta_phi_range :
  (forall p1 p2 : float,
     exists d, Common.delta_phi phi_of_angle p1 p2 = Return d
       /\ (PrimFloat.is_finite (p1 - p2 + pi) = true ->
           between (- pi) pi d = true)
       /\ (PrimFloat.is_finite (p1 - p2 + pi) = false ->
           F64.is_nan d = true))
  /\ (forall (L : Libm float) (v w : TVector3.t float),
        exists d, Methods.delta_phi v w = Return d
          /\ (F64.is_nan d = true \/ between (- pi) pi d = true))
  /\ (forall (L : Libm float) (n : nat) (self other : TVector3Array.t float),
        TVector3Array.has_length n self ->
        TVector3Array.has_length n other ->
        exists ds, ArrayMethods.delta_phi self other = Return ds
          /\ length ds = n
          /\ forall i, i < n ->
               F64.is_nan (nth i ds 0%float) = true
               \/ between (- pi) pi (nth i ds 0%float) = true)
  /\ (forall (L : Libm float) (v : TVector3.t float),
        PrimFloat.is_finite (atan2 (TVector3.y v) (TVector3.x v)) = true ->
        Methods.delta_phi v v = Return 0%float).
Proof.
  assert (S : forall (L : Libm float) (v w : TVector3.t float),
            exists d, Methods.delta_phi v w = Return d
              /\ (F64.is_nan d = true \/ between (- pi) pi d = true)).
  { intros L v w.
    destruct (scalar_delta_phi_range
                (math_atan2 (TVector3.y v) (TVector3.x v))
                (math_atan2 (TVector3.y w) (TVector3.x w)))
      as (d & E & A & B).
    exists d. split; [exact E|]. exact (@nan_or_between _ d A B). }
  split; [exact scalar_delta_phi_range|]. split; [exact S|]. split.
  - intros L n self other Hs Ho.
    assert (NZ : eqb (mul lit_2 pi) (lit_0 : float) = false)
      by (vm_compute; reflexivity).
    destruct (@delta_phi_agreement float _ L n self other NZ Hs Ho)
      as (ds & E & Ln & I).
    exists ds. split; [exact E|]. split; [exact Ln|]. intros i Hi.
    destruct (S L (TVector3Array.item self i) (TVector3Array.item other i))
      as (d & Ed & R).
    rewrite (I i Hi) in Ed. injection Ed as <-. exact R.
  - intros L v Hf. unfold Methods.delta_phi, Common.delta_phi, Methods.phi.
    unfold math_atan2.
    cbn [bind q_sub q_add_s q_sub_s q_mod_s scalar_quantity].
    cbn [sub Binary64.number].
    rewrite (sub_self_finite _ Hf). vm_compute. reflexivity.
Qed.

End DeltaPhiRange.

(** * Elements of arrays as scalar vectors

    A vector taken out of an array has [numpy.float64] components.  On such
    a vector scalar-mode [cosdelta] never raises: a zero denominator gives
    an infinity or a NaN, which the clamp turns into -1.0 or 1.0. *)

Section NumpyElements.
Open Scope float_scope.

(** What [max(-1.0, min(1.0, d / s))] is when [s] is +0.0. *)
Lemma clamp_div_zero (d s : float) :
  Prim2SF s = S754_zero false ->
  py_max (opp lit_1) (py_min lit_1 (d / s)) = if d <? 0 then -1 else 1.
Proof.
  intros Hs.
  assert (E : d / s = SF2Prim (SF64div (Prim2SF d) (S754_zero false))).
  { rewrite <- (SF2Prim_Prim2SF (d / s)), div_spec, Hs. reflexivity. }
  rewrite E, ltb_spec. change (Prim2SF 0) with (S754_zero false).
  destruct (Prim2SF d) as [sd|sd| |sd md ed]; try destruct sd;
    reflexivity.
Qed.

(** The square root of a number that is not negative, when it is zero,
    is +0.0. *)
Lemma sqrt_zero_unsigned (x : float) :
  unsigned (Prim2SF x) -> (PrimFloat.sqrt x =? 0) = true ->
  Prim2SF (PrimFloat.sqrt x) = S754_zero false.
Proof.
  intros Hu Hz. apply eqb_zero_spec in Hz. destruct Hz as [s Hz].
  pose proof (@sqrt_unsigned _ Hu) as Hsu. rewrite Hz in Hsu.
  simpl in Hsu. subst s. exact Hz.
Qed.

(** With [numpy.float64] components scalar-mode [cosdelta] returns for
    every pair of vectors: 1.0 under the guard, the clamped quotient
    otherwise. *)
Lemma numpy_cosdelta_value (v w : TVector3.t float) :
  let m1 := TVector3.dot v v in
  let m2 := TVector3.dot w w in
  Methods.cosdelta numpy_float64 v w
  = Return (if (m1 =? 0) || (m2 =? 0) then 1
            else py_max (opp lit_1)
                        (py_min lit_1
                                (TVector3.dot v w / PrimFloat.sqrt (m1 * m2)))).
Proof.
  intros m1 m2.
  pose proof (F64.denominator_not_neg v w) as Hneg. fold m1 m2 in Hneg.
  unfold Methods.cosdelta, Methods.mag2, Common.mag2, Methods.dot.
  cbn [bind]. fold m1 m2.
  change (@eqb float Binary64.number) with PrimFloat.eqb.
  change (@lit_0 float Binary64.number) with 0.
  change (@mul float Binary64.number) with PrimFloat.mul.
  destruct ((m1 =? 0) || (m2 =? 0)); [reflexivity|].
  unfold math_sqrt.
  change (@ltb float Binary64.number) with PrimFloat.ltb.
  change (@sqrt float Binary64.number) with PrimFloat.sqrt.
  change (@lit_0 float Binary64.number) with 0.
  rewrite Hneg. reflexivity.
Qed.

(** Scalar mode on an element against array mode at its position: the
    same number, unless array mode holds a NaN (scalar mode answers 1.0),
    or the product of two nonzero squared magnitudes is not above zero and
    the dot product is below zero (scalar mode answers -1.0, array 1.0). *)
Lemma numpy_vs_array_cosdelta (v w : TVector3.t float) :
  let m1 := TVector3.dot v v in
  let m2 := TVector3.dot w w in
  let d := TVector3.dot v w in
  let a := cosdelta_at m1 m2 d in
  exists c,
    Methods.cosdelta numpy_float64 v w = Return c
    /\ between (-1) 1 c = true
    /\ (a = c
        \/ (F64.is_nan a = true /\ c = 1)
        \/ ((m1 =? 0) || (m2 =? 0) = false /\ (0 <? m1 * m2) = false
            /\ (d <? 0) = true /\ a = 1 /\ c = -1)).
Proof.
  intros m1 m2 d a. eexists. split; [apply numpy_cosdelta_value|].
  fold m1 m2 d. unfold a, cosdelta_at.
  change (@ltb float Binary64.number) with PrimFloat.ltb.
  change (@mul float Binary64.number) with PrimFloat.mul.
  change (@div float Binary64.number) with PrimFloat.div.
  change (@sqrt float Binary64.number) with PrimFloat.sqrt.
  change (@lit_0 float Binary64.number) with 0.
  destruct ((m1 =? 0) || (m2 =? 0)) eqn:G.
  - split; [reflexivity|]. left.
    apply orb_true_iff in G. destruct G as [G|G].
    + rewrite (proj1 (@F64.mul_zero_not_pos m1 m2 G)). reflexivity.
    + rewrite (proj2 (@F64.mul_zero_not_pos m2 m1 G)). reflexivity.
  - split; [apply F64.clamp_between|].
    set (q := d / PrimFloat.sqrt (m1 * m2)).
    destruct (0 <? m1 * m2) eqn:Hpos.
    + destruct (F64.is_nan q) eqn:Hn.
      * right; left. rewrite (@F64.clip_nan _ Hn), (@F64.clamp_nan _ Hn). auto.
      * left. symmetry. apply F64.clamp_clip. exact Hn.
    + destruct (PrimFloat.sqrt (m1 * m2) =? 0) eqn:Hs.
      * assert (Hu : unsigned (Prim2SF (m1 * m2)))
          by (apply F64.mul_unsigned; apply F64.dot_self_unsigned).
        pose proof (@sqrt_zero_unsigned _ Hu Hs) as Hz.
        pose proof (@clamp_div_zero d _ Hz) as E. fold q in E. rewrite E.
        destruct (d <? 0) eqn:Hd.
        -- right; right. repeat split.
        -- left. reflexivity.
      * left.
        assert (Hn : F64.is_nan q = true).
        { apply F64.div_nan_r, F64.sqrt_nan, F64.undecided_is_nan;
            [apply F64.denominator_not_neg | exact Hpos | exact Hs]. }
        rewrite (@F64.clamp_nan _ Hn). reflexivity.
Qed.

(** C1, counterexample.  The array of the one vector (1e200, 0, 0)
    against itself: array-mode [cosdelta] holds a NaN at position 0, the
    scalar-mode computation on element 0 returns 1.0.  The array of
    (1e-100, 0, 0) against that of (-1e-100, 0, 0): array mode holds 1.0,
    scalar mode on the two elements returns -1.0. *)
Lemma modes_disagree :
  (ArrayMethods.cosdelta (constant_array 1 Examples.huge)
                         (constant_array 1 Examples.huge) = Return [nan]
   /\ Methods.cosdelta
        numpy_float64
        (TVector3Array.item (constant_array 1 Examples.huge) 0)
        (TVector3Array.item (constant_array 1 Examples.huge) 0)
      = Return 1
   /\ (nan =? 1) = false)
  /\ (ArrayMethods.cosdelta (constant_array 1 Examples.tiny)
                            (constant_array 1 Examples.tiny_opposite)
      = Return [1]
      /\ Methods.cosdelta
           numpy_float64
           (TVector3Array.item (constant_array 1 Examples.tiny) 0)
           (TVector3Array.item (constant_array 1 Examples.tiny_opposite) 0)
         = Return (-1)
      /\ (1 =? -1) = false).
Proof.
  repeat split; vm_compute; reflexivity.
Qed.

(** C1, as amended.  On arrays of one length, at every position: array
    mode holds what scalar mode returns on the element there for [mag],
    [phi] and [isopposite]; scalar-mode [cosdelta] and [angle] return on
    the element, and array mode holds the same numbers unless its cosine
    is a NaN (scalar mode answers 1.0), or the product of two nonzero
    squared magnitudes is not above zero and the dot product is below zero
    (scalar mode answers -1.0, array mode 1.0). *)
Theorem modes_agree_on_elements
        (n : nat) (self other : TVector3Array.t float) (i : nat)
        (tolerance : float)
        (Hs : TVector3Array.has_length n self)
        (Ho : TVector3Array.has_length n other)
        (Hi : (i < n)%nat) :
  let v := TVector3Array.item self i in
  let w := TVector3Array.item other i in
  let m1 := TVector3.dot v v in
  let m2 := TVector3.dot w w in
  let d := TVector3.dot v w in
  (exists ms, ArrayMethods.mag self = Return ms /\
              Methods.mag v = Return (nth i ms 0))
  /\ (forall L : Libm float,
        exists ps, ArrayMethods.phi self = Return ps /\
                   Methods.phi v = Return (nth i ps 0))
  /\ (exists bs, ArrayMethods.isopposite self other tolerance = Return bs /\
                 Methods.isopposite v w tolerance = Return (nth i bs false))
  /\ (exists cs c,
        ArrayMethods.cosdelta self other = Return cs /\
        Methods.cosdelta numpy_float64 v w = Return c /\
        (nth i cs 0 = c
         \/ (PrimFloat.is_nan (nth i cs 0) = true /\ c = 1)
         \/ ((m1 =? 0) || (m2 =? 0) = false /\ (0 <? m1 * m2) = false
             /\ (d <? 0) = true /\ nth i cs 0 = 1 /\ c = -1)) /\
        (forall (L : Libm float) (degrees : bool),
           exists out a,
             ArrayMethods.angle self other None degrees = Return out /\
             Methods.angle numpy_float64 v w degrees = Return a /\
             (nth i cs 0 = c -> nth i out 0 = a))).
Proof.
  intros v w m1 m2 d.
  split.
  { destruct (array_mag_spec Hs) as (ms & E & _ & P).
    exists ms. split; [exact E | exact (P i Hi)]. }
  split.
  { intros L. destruct (array_phi_spec Hs) as (ps & E & _ & P).
    exists ps. split; [exact E | exact (P i Hi)]. }
  split.
  { destruct (array_isopposite_spec tolerance Hs Ho) as (bs & E & _ & P).
    exists bs. split; [exact E | exact (P i Hi)]. }
  destruct (array_cosdelta_spec Hs Ho) as (cs & E & Lc & P).
  destruct (numpy_vs_array_cosdelta v w) as (c & Ec & _ & R).
  exists cs, c. split; [exact E|]. split; [exact Ec|].
  change (@lit_0 float Binary64.number) with 0 in P.
  rewrite (P i Hi). fold v w m1 m2 d. split; [exact R|].
  intros L degrees.
  destruct (@array_angle_spec float Binary64.number L n self other cs
                              degrees E Lc) as (out & Eo & _ & Po).
  exists out. eexists. split; [exact Eo|].
  split; [exact (@angle_of_cosdelta L numpy_float64 v w c degrees Ec)|].
  intros Hc. change (@lit_0 float Binary64.number) with 0 in Po.
  rewrite (Po i Hi), (P i Hi). fold v w m1 m2 d. rewrite Hc.
  destruct degrees; reflexivity.
Qed.

(** On the arrays [(3,4,0), (1,0,0)] and [(4,3,0), (-1,0,0)], position 0. *)
Lemma modes_agree_witness :
  let self := TVector3Array.mk [3; 1] [4; 0] [0; 0] in
  let other := TVector3Array.mk [4; -1] [3; 0] [0; 0] in
  let v := Examples.v340 in
  let w := Examples.v430 in
  (exists ms, ArrayMethods.mag self = Return ms /\
              Methods.mag v = Return (nth 0 ms 0))
  /\ (forall L : Libm float,
        exists ps, ArrayMethods.phi self = Return ps /\
                   Methods.phi v = Return (nth 0 ps 0))
  /\ (exists bs, ArrayMethods.isopposite self other lit_1e_10 = Return bs /\
                 Methods.isopposite v w lit_1e_10 = Return (nth 0 bs false))
  /\ (exists cs c,
        ArrayMethods.cosdelta self other = Return cs /\
        Methods.cosdelta numpy_float64 v w = Return c /\
        (nth 0 cs 0 = c
         \/ (PrimFloat.is_nan (nth 0 cs 0) = true /\ c = 1)
         \/ ((TVector3.dot v v =? 0) || (TVector3.dot w w =? 0) = false
             /\ (0 <? TVector3.dot v v * TVector3.dot w w) = false
             /\ (TVector3.dot v w <? 0) = true
             /\ nth 0 cs 0 = 1 /\ c = -1)) /\
        (forall (L : Libm float) (degrees : bool),
           exists out a,
             ArrayMethods.angle self other None degrees = Return out /\
             Methods.angle numpy_float64 v w degrees = Return a /\
             (nth 0 cs 0 = c -> nth 0 out 0 = a))).
Proof.
  exact (@modes_agree_on_elements
           2 (TVector3Array.mk [3; 1] [4; 0] [0; 0])
           (TVector3Array.mk [4; -1] [3; 0] [0; 0]) 0 lit_1e_10
           (conj eq_refl (conj eq_refl eq_refl))
           (conj eq_refl (conj eq_refl eq_refl))
           (Nat.lt_0_succ 1)).
Defined.

End NumpyElements.

(** * Scalar [unit] *)

Section ScalarUnit.
Open Scope float_scope.

(** Numpy's division by a zero: an infinity or a NaN, never a finite
    number. *)
Lemma div_by_zero_not_finite (x m : float) :
  (m =? 0) = true -> PrimFloat.is_finite (x / m) = false.
Proof.
  intros Hm. apply eqb_zero_spec in Hm. destruct Hm as [s Hm].
  destruct (PrimFloat.is_finite (x / m)) eqn:Hf; [|reflexivity].
  apply is_finite_spec in Hf. rewrite div_spec, Hm in Hf.
  destruct (Prim2SF x) as [sx|sx| |sx mx ex]; simpl in Hf;
    destruct Hf as [[s' H]|(s' & m' & e' & H)]; discriminate.
Qed.

(** C7, counterexample.  [unit()] of the zero vector raises nothing: it
    returns the vector of three NaN, whether the components are Python
    floats or [numpy.float64]. *)
Lemma unit_of_zero_vector :
  Methods.mag Examples.zero_vector = Return 0
  /\ Methods.unit python_float Examples.zero_vector
     = Return (TVector3.mk nan nan nan)
  /\ Methods.unit numpy_float64 Examples.zero_vector
     = Return (TVector3.mk nan nan nan)
  /\ (forall e, Methods.unit python_float Examples.zero_vector <> Raise e).
Proof.
  repeat split; try (vm_compute; reflexivity).
  intros e. vm_compute. discriminate.
Qed.

(** C7, as amended.  Scalar-mode [unit()] is [self] divided by [mag()],
    with no case of its own for a zero magnitude, and it raises nothing:
    [mag()] is what [numpy.sqrt] returns, so the division is numpy's.  It
    returns the three quotients; when [mag()] is zero none of them is a
    finite number. *)
Theorem unit_divides_by_mag (tc : float_type) (v : TVector3.t float) :
  let m := PrimFloat.sqrt (TVector3.dot v v) in
  let u := TVector3.mk (TVector3.x v / m) (TVector3.y v / m)
                       (TVector3.z v / m) in
  Methods.mag v = Return m
  /\ Methods.unit tc v = Return u
  /\ ((m =? 0) = true ->
      PrimFloat.is_finite (TVector3.x u) = false
      /\ PrimFloat.is_finite (TVector3.y u) = false
      /\ PrimFloat.is_finite (TVector3.z u) = false).
Proof.
  intros m u. split; [reflexivity|]. split.
  - unfold Methods.unit, Methods.mag, Common.mag, Common.mag2, Methods.dot.
    cbn [bind q_sqrt scalar_quantity]. unfold TVector3.__truediv__.
    destruct tc; reflexivity.
  - intros Hm. unfold u. cbn [TVector3.x TVector3.y TVector3.z].
    repeat split; apply div_by_zero_not_finite; exact Hm.
Qed.

End ScalarUnit.

(** * The outcomes of scalar [cosdelta] and [angle] *)

Section Outcomes.
Open Scope float_scope.

(** Scalar-mode [cosdelta], by the type of the components.  On Python
    floats it has two outcomes: a value in [-1, 1], or ZeroDivisionError,
    raised exactly when neither squared magnitude is zero and the square
    root of their product is.  On [numpy.float64] components it returns a
    value in [-1, 1] for every pair of vectors.  The domain error of
    [math.sqrt] occurs for neither. *)
Theorem scalar_cosdelta_outcomes (v w : TVector3.t float) :
  let m1 := TVector3.dot v v in
  let m2 := TVector3.dot w w in
  (if (m1 =? 0) || (m2 =? 0) || negb (PrimFloat.sqrt (m1 * m2) =? 0)
   then exists c, Methods.cosdelta python_float v w = Return c
                  /\ between (-1) 1 c = true
   else Methods.cosdelta python_float v w
        = Raise (ZeroDivisionError "float division by zero"))
  /\ exists c, Methods.cosdelta numpy_float64 v w = Return c
               /\ between (-1) 1 c = true.
Proof.
  intros m1 m2. split; [exact (F64.scalar_cosdelta_cases v w)|].
  destruct (numpy_vs_array_cosdelta v w) as (c & E & B & _).
  exists c. split; assumption.
Qed.

(** Scalar-mode [angle] has the outcomes of [cosdelta] and no other: on
    Python floats the arccosine of a cosine in [-1, 1] (times 180/pi in
    degrees) or ZeroDivisionError, under the same condition; on
    [numpy.float64] components always the arccosine.  The domain error of
    [math.acos] never occurs. *)
Theorem scalar_angle_outcomes (L : Libm float) (v w : TVector3.t float)
        (degrees : bool) :
  let m1 := TVector3.dot v v in
  let m2 := TVector3.dot w w in
  (if (m1 =? 0) || (m2 =? 0) || negb (PrimFloat.sqrt (m1 * m2) =? 0)
   then exists c,
          Methods.cosdelta python_float v w = Return c
          /\ between (-1) 1 c = true
          /\ Methods.angle python_float v w degrees
             = Return (if degrees then acos c * (180 / pi) else acos c)
   else Methods.angle python_float v w degrees
        = Raise (ZeroDivisionError "float division by zero"))
  /\ exists c,
       Methods.cosdelta numpy_float64 v w = Return c
       /\ between (-1) 1 c = true
       /\ Methods.angle numpy_float64 v w degrees
          = Return (if degrees then acos c * (180 / pi) else acos c).
Proof.
  intros m1 m2. split.
  - pose proof (F64.scalar_cosdelta_cases v w) as H.
    cbv zeta in H. fold m1 m2 in H.
    destruct ((m1 =? 0) || (m2 =? 0)
              || negb (PrimFloat.sqrt (m1 * m2) =? 0)).
    + destruct H as (c & E & B). exists c.
      split; [exact E|]. split; [exact B|].
      exact (@angle_of_cosdelta L python_float v w c degrees E).
    + unfold Methods.angle. rewrite H. reflexivity.
  - destruct (numpy_vs_array_cosdelta v w) as (c & E & B & _).
    exists c. split; [exact E|]. split; [exact B|].
    exact (@angle_of_cosdelta L numpy_float64 v w c degrees E).
Qed.

End Outcomes.
